(** * Workshop booking server: seat ledger, QR tokens, check-in

    A shallow embedding of the Express/better-sqlite3 server of the
    repository.  The latest server file (the one with the [qr_tokens]
    table and the workshop-scoped QR routes) is embedded in [Module Api];
    the earlier [src/server/index.js], which only has the user-scoped QR
    routes, is embedded in [Module ServerIndex].

    Every route handler is a synchronous function body (better-sqlite3
    has no asynchronous calls and the handlers contain no [await]), so a
    handler is a function from the state before the request to a response
    and the state after it.

    Tables are finite maps from their PRIMARY KEY to the remaining
    columns; an INSERT on a key that is present, or that breaks a UNIQUE
    or NOT NULL constraint, throws.  The declared FOREIGN KEY clauses are
    not modelled: no route deletes a user or a workshop.

    The seat columns hold what SQLite holds: a 64-bit INTEGER or a REAL
    (an IEEE 754 double), since POST /workshops stores
    [Number(totalSeats)] as it comes. *)

From stdpp Require Import base gmap strings list fin_maps pretty.
From Stdlib Require Import ZArith Lia QArith Floats.SpecFloat.

Open Scope string_scope.
Open Scope Z_scope.
Open Scope list_scope.

(** ** Numbers *)

(** A JavaScript Number, and a REAL of SQLite: IEEE 754 binary64. *)
Definition float : Type := spec_float.
Definition prec : Z := 53.
Definition emax : Z := 1024.

(** The double nearest to an integer (ties to even): the Number a JSON
    integer denotes, and the C conversion of an int64 to double. *)
Definition float_of_Z (z : Z) : float := binary_normalize prec emax z 0 false.

Definition float_add (x y : float) : float := SFadd prec emax x y.
Definition float_div (x y : float) : float := SFdiv prec emax x y.

(** The integer a double is equal to, when it is equal to one. *)
Definition float_to_Z (f : float) : option Z :=
  match f with
  | S754_zero _ => Some 0
  | S754_finite s m e =>
      if bool_decide (0 ≤ e) then Some (cond_Zopp s (Z.pos m * 2 ^ e))
      else if bool_decide (Z.pos m mod 2 ^ (- e) = 0)
           then Some (cond_Zopp s (Z.pos m / 2 ^ (- e)))
           else None
  | _ => None
  end.

(** What a NOT NULL column of INTEGER affinity holds once a number was
    stored in it: an INTEGER (64 bits) or a REAL. *)
Inductive SqlNumber := Int (z : Z) | Real (f : float).

(** INTEGER affinity: a REAL is stored as an INTEGER when it is equal to
    an integer strictly between the smallest and the largest int64, and
    as it is otherwise. *)
Definition integer_affinity (f : float) : SqlNumber :=
  match float_to_Z f with
  | Some z => if bool_decide (- 2 ^ 63 < z < 2 ^ 63 - 1) then Int z else Real f
  | None => Real f
  end.

(** A Number bound to a parameter of an INSERT into such a column
    (better-sqlite3 binds every Number as a double).  NaN is bound as
    NULL, which NOT NULL refuses: [None]. *)
Definition bind_number (f : float) : option SqlNumber :=
  match f with
  | S754_nan => None
  | _ => Some (integer_affinity f)
  end.

(** [column + d] of an UPDATE, for an integer literal [d], stored back
    into the column: 64-bit integer arithmetic on an INTEGER, on doubles
    when that overflows or when the column holds a REAL. *)
Definition sql_add (v : SqlNumber) (d : Z) : SqlNumber :=
  match v with
  | Int a =>
      if bool_decide (- 2 ^ 63 ≤ a + d < 2 ^ 63) then Int (a + d)
      else integer_affinity (float_add (float_of_Z a) (float_of_Z d))
  | Real f => integer_affinity (float_add f (float_of_Z d))
  end.

(** The Number a SELECT hands to JavaScript for the column. *)
Definition js_number (v : SqlNumber) : float :=
  match v with Int z => float_of_Z z | Real f => f end.

(** [x <= 0] on Numbers. *)
Definition js_le_zero (x : float) : bool := SFleb x (S754_zero false).

(** The number a stored value is, exactly; the infinities are none. *)
Definition sql_value (v : SqlNumber) : option Q :=
  match v with
  | Int z => Some (inject_Z z)
  | Real (S754_zero _) => Some (inject_Z 0)
  | Real (S754_finite s m e) =>
      Some (Qmult (inject_Z (cond_Zopp s (Z.pos m))) (Qpower (2 # 1) e))
  | Real _ => None
  end.

(** A field of a JSON body that a handler reads through [!field] and
    [Number(field)] only: the two conversions of whatever was sent (a
    number, a string, a boolean, ...). *)
Record BodyNumber := mkBodyNumber { b_truthy : bool; b_number : float }.

(** The field when the body holds the number [f]: falsy when 0 or NaN. *)
Definition json_number (f : float) : BodyNumber :=
  mkBodyNumber (match f with
                | S754_nan => false
                | _ => negb (SFeqb f (S754_zero false))
                end) f.

(** ** Rows *)

(** [users]: id -> name, email, password, role (createdAt plays no
    part); UNIQUE(email). *)
Record User := mkUser {
  name : string;
  email : string;
  password : string;
  role : string
}.

(** [workshops]: id -> date, availableSeats, totalSeats.  [date] is the
    instant [new Date(`${workshop.date}T00:00:00`)] denotes, [None] for an
    Invalid Date (every comparison with it is false). *)
Record Workshop := mkWorkshop {
  date : option Z;
  availableSeats : SqlNumber;
  totalSeats : SqlNumber
}.

(** [reservations]: id -> userId, workshopId, createdAt;
    UNIQUE(userId, workshopId). *)
Record Reservation := mkReservation {
  r_userId : string;
  r_workshopId : string;
  r_createdAt : Z
}.

(** [attendance]: id -> userId, workshopId, checkedInAt;
    UNIQUE(userId, workshopId). *)
Record Attendance := mkAttendance {
  a_userId : string;
  a_workshopId : string;
  a_checkedInAt : Z
}.

(** [qr_tokens]: token -> workshopId, createdAt, expiresAt, used.
    [expiresAt] is a TEXT column holding [String(expiresAt)]; the model
    keeps the integer [parseInt] reads back from it. *)
Record QrRow := mkQrRow {
  q_workshopId : string;
  q_createdAt : Z;
  q_expiresAt : Z;
  q_used : bool
}.

(** Values of the in-memory [qrTokens] Map. *)
Record TokenData := mkTokenData {
  t_userId : string;
  t_workshopId : string;
  t_expiresAt : Z
}.

(** ** Server-sent events *)

Inductive Payload :=
| AttendanceData (id userId userName userEmail workshopId : string)
                 (checkedInAt : Z)
| QrUsedData (workshopId userName newToken : string) (timestamp : Z).

Record SseMessage := mkSse { event : string; data : Payload }.

(** ** State: the database, the in-memory token map, the SSE clients and
    what was written to each of them. *)
Record State := mkState {
  users : gmap string User;
  workshops : gmap string Workshop;
  reservations : gmap string Reservation;
  attendance : gmap string Attendance;
  qr_tokens : gmap string QrRow;
  qrTokens : gmap string TokenData;
  sseClients : list nat;
  wire : list (nat * SseMessage)
}.

Definition set_users (f : gmap string User → gmap string User) (s : State)
    : State :=
  mkState (f (users s)) (workshops s) (reservations s) (attendance s)
          (qr_tokens s) (qrTokens s) (sseClients s) (wire s).

Definition set_workshops (f : gmap string Workshop → gmap string Workshop)
    (s : State) : State :=
  mkState (users s) (f (workshops s)) (reservations s) (attendance s)
          (qr_tokens s) (qrTokens s) (sseClients s) (wire s).

Definition set_reservations
    (f : gmap string Reservation → gmap string Reservation)
    (s : State) : State :=
  mkState (users s) (workshops s) (f (reservations s)) (attendance s)
          (qr_tokens s) (qrTokens s) (sseClients s) (wire s).

Definition set_attendance
    (f : gmap string Attendance → gmap string Attendance)
    (s : State) : State :=
  mkState (users s) (workshops s) (reservations s) (f (attendance s))
          (qr_tokens s) (qrTokens s) (sseClients s) (wire s).

Definition set_qr_tokens (f : gmap string QrRow → gmap string QrRow)
    (s : State) : State :=
  mkState (users s) (workshops s) (reservations s) (attendance s)
          (f (qr_tokens s)) (qrTokens s) (sseClients s) (wire s).

Definition set_qrTokens (f : gmap string TokenData → gmap string TokenData)
    (s : State) : State :=
  mkState (users s) (workshops s) (reservations s) (attendance s)
          (qr_tokens s) (f (qrTokens s)) (sseClients s) (wire s).

Definition set_sseClients (f : list nat → list nat) (s : State) : State :=
  mkState (users s) (workshops s) (reservations s) (attendance s)
          (qr_tokens s) (qrTokens s) (f (sseClients s)) (wire s).

Definition set_wire (f : list (nat * SseMessage) → list (nat * SseMessage))
    (s : State) : State :=
  mkState (users s) (workshops s) (reservations s) (attendance s)
          (qr_tokens s) (qrTokens s) (sseClients s) (f (wire s)).

(** ** Responses *)

(** One constructor per error message of the two server files. *)
Inductive ApiError :=
| E_register_required
| E_email_already_registered
| E_login_required
| E_invalid_credentials
| E_userId_required
| E_missing_fields
| E_ids_required
| E_user_or_workshop_not_found
| E_workshop_expired
| E_workshop_full
| E_already_reserved
| E_reservation_not_found
| E_no_reservation
| E_token_required
| E_invalid_or_expired_token
| E_invalid_token_format
| E_token_expired
| E_user_not_found
| E_already_checked_in
| E_workshopId_required
| E_workshop_not_found
| E_validate_workshop_required
| E_no_reservation_for_workshop
| E_invalid_qr_token
| E_qr_already_used
| E_qr_expired
| E_already_checked_in_workshop.

Definition message (e : ApiError) : string :=
  match e with
  | E_register_required => "name, email, password required"
  | E_email_already_registered => "email already registered"
  | E_login_required => "email and password required"
  | E_invalid_credentials => "invalid credentials"
  | E_userId_required => "userId required"
  | E_missing_fields => "missing fields"
  | E_ids_required => "userId and workshopId required"
  | E_user_or_workshop_not_found => "user or workshop not found"
  | E_workshop_expired => "workshop expired"
  | E_workshop_full => "workshop full"
  | E_already_reserved => "already reserved"
  | E_reservation_not_found => "reservation not found"
  | E_no_reservation => "No reservation found"
  | E_token_required => "token required"
  | E_invalid_or_expired_token => "Invalid or expired token"
  | E_invalid_token_format =>
      "Invalid token format. Please use workshop-specific QR validation."
  | E_token_expired => "Token expired"
  | E_user_not_found => "User not found"
  | E_already_checked_in => "Already checked in"
  | E_workshopId_required => "workshopId required"
  | E_workshop_not_found => "Workshop not found"
  | E_validate_workshop_required => "token, workshopId, and userId required"
  | E_no_reservation_for_workshop => "No reservation found for this workshop"
  | E_invalid_qr_token => "Invalid QR token for this workshop"
  | E_qr_already_used => "QR token already used"
  | E_qr_expired => "QR token expired"
  | E_already_checked_in_workshop => "Already checked in for this workshop"
  end.

Definition status (e : ApiError) : Z :=
  match e with
  | E_user_or_workshop_not_found | E_reservation_not_found
  | E_user_not_found | E_workshop_not_found => 404
  | E_invalid_credentials => 401
  | _ => 400
  end.

(** The failure kinds of the specification's taxonomy; [Unclassified]
    for the two answers of /register and /login it has no kind for. *)
Inductive FailureKind :=
| BadRequest | NotFound | Expired | Full | AlreadyReserved | NoReservation
| InvalidToken | AlreadyUsed | TokenExpired | AlreadyCheckedIn
| Unclassified.

Definition kind (e : ApiError) : FailureKind :=
  match e with
  | E_register_required | E_login_required | E_userId_required
  | E_missing_fields | E_ids_required | E_token_required
  | E_workshopId_required | E_validate_workshop_required => BadRequest
  | E_email_already_registered | E_invalid_credentials => Unclassified
  | E_user_or_workshop_not_found | E_reservation_not_found
  | E_user_not_found | E_workshop_not_found => NotFound
  | E_workshop_expired => Expired
  | E_workshop_full => Full
  | E_already_reserved => AlreadyReserved
  | E_no_reservation | E_no_reservation_for_workshop => NoReservation
  | E_invalid_or_expired_token | E_invalid_token_format
  | E_invalid_qr_token => InvalidToken
  | E_qr_already_used => AlreadyUsed
  | E_token_expired | E_qr_expired => TokenExpired
  | E_already_checked_in | E_already_checked_in_workshop => AlreadyCheckedIn
  end.

Inductive Reply :=
| Health
| Registered (id name email role : string)
| LoggedIn (id name email role : string)
| WorkshopList (rows : gmap string Workshop)
| ReservationList (rows : gmap string Reservation)
| Overview (users : gmap string (string * string * string))
           (workshops : gmap string Workshop)
           (reservations : gmap string Reservation)
           (attendance : gmap string Attendance)
| WorkshopCreated (id : string) (created : option Workshop)
| ReservationCreated (id : string) (reservation : Reservation)
                     (workshop : option Workshop)
| ReservationCancelled (workshop : option Workshop)
| TokenIssued (token : string) (expiresAt : Z)
| CheckedIn (user : string) (workshopId : string) (checkedInAt : Z)
| WorkshopTokenIssued (token : string) (attendanceCount : nat)
| CheckedInWorkshop (user : string) (workshopId : string) (checkedInAt : Z)
                    (newToken : string) (newExpiresAt : Z)
| Streaming
| NoReply.

(** [Err e] is [res.status(status e).json({ error: message e })].
    [Threw]: a statement threw inside the async handler (a constraint
    violation); no response is sent. *)
Inductive Response :=
| Ok (code : Z) (body : Reply)
| Err (e : ApiError)
| Threw.

(** ** What a request reads from outside the state *)
Record Env := mkEnv {
  now : Z;              (* Date.now(), milliseconds: a non-negative
                           integer, whose String is its digits *)
  startOfToday : Z;     (* local midnight of the current day *)
  randomBytes : string; (* crypto.randomBytes(32).toString('hex') *)
  randomUUID : string;  (* crypto.randomUUID() of the attendance row *)
  eventUUID : string;   (* crypto.randomUUID() of the attendance event *)
  random_ms : Z         (* the whole milliseconds Math.random() * 20000
                           adds: parseInt(String(expiresAt)) - now - 10000 *)
}.

(** JavaScript truthiness of a request field: a missing field and the
    empty string are both falsy. *)
Definition truthy (x : string) : bool := negb (String.eqb x "").

(** ** SQL statements *)

Definition has_email (em : string) (ku : string * User) : Prop :=
  email ku.2 = em.

#[global] Instance has_email_dec em ku : Decision (has_email em ku).
Proof. unfold has_email. apply _. Defined.

Definition has_credentials (em pw : string) (ku : string * User) : Prop :=
  email ku.2 = em ∧ password ku.2 = pw.

#[global] Instance has_credentials_dec em pw ku
  : Decision (has_credentials em pw ku).
Proof. unfold has_credentials. apply _. Defined.

(** SELECT 1 FROM users WHERE email=? (.get) *)
Definition select_user_by_email (em : string) (s : State)
    : option (string * User) :=
  head (map_to_list (filter (has_email em) (users s))).

(** SELECT id,name,email,role FROM users WHERE email=? AND password=?
    (.get); UNIQUE(email) leaves at most one row to choose from. *)
Definition select_user_by_credentials (em pw : string) (s : State)
    : option (string * User) :=
  head (map_to_list (filter (has_credentials em pw) (users s))).

(** INSERT INTO users: PRIMARY KEY id, UNIQUE(email). *)
Definition insert_user (id : string) (u : User) (s : State) : option State :=
  match users s !! id, select_user_by_email (email u) s with
  | None, None => Some (set_users (insert id u) s)
  | _, _ => None
  end.

(** INSERT INTO workshops: PRIMARY KEY id; the two seat columns are
    NOT NULL and take the same bound Number. *)
Definition insert_workshop (id : string) (wsDate : option Z) (seats : float)
    (s : State) : option State :=
  match bind_number seats, workshops s !! id with
  | Some v, None => Some (set_workshops (insert id (mkWorkshop wsDate v v)) s)
  | _, _ => None
  end.

Definition reservation_of (userId workshopId : string)
    (kr : string * Reservation) : Prop :=
  r_userId kr.2 = userId ∧ r_workshopId kr.2 = workshopId.

Definition attendance_of (userId workshopId : string)
    (kr : string * Attendance) : Prop :=
  a_userId kr.2 = userId ∧ a_workshopId kr.2 = workshopId.

#[global] Instance reservation_of_dec u w kr : Decision (reservation_of u w kr).
Proof. unfold reservation_of. apply _. Defined.

#[global] Instance attendance_of_dec u w kr : Decision (attendance_of u w kr).
Proof. unfold attendance_of. apply _. Defined.

(** SELECT ... FROM reservations WHERE userId=? AND workshopId=? (.get):
    one matching row, if any; UNIQUE(userId, workshopId) leaves at most
    one to choose from. *)
Definition select_reservation (userId workshopId : string) (s : State)
    : option (string * Reservation) :=
  head (map_to_list (filter (reservation_of userId workshopId)
                            (reservations s))).

(** SELECT 1 FROM attendance WHERE userId=? AND workshopId=? (.get) *)
Definition select_attendance (userId workshopId : string) (s : State)
    : option (string * Attendance) :=
  head (map_to_list (filter (attendance_of userId workshopId)
                            (attendance s))).

(** INSERT INTO reservations: PRIMARY KEY id, UNIQUE(userId, workshopId). *)
Definition insert_reservation (id : string) (r : Reservation) (s : State)
    : option State :=
  match reservations s !! id, select_reservation (r_userId r) (r_workshopId r) s with
  | None, None => Some (set_reservations (insert id r) s)
  | _, _ => None
  end.

(** DELETE FROM reservations WHERE id=? *)
Definition delete_reservation (id : string) (s : State) : option State :=
  Some (set_reservations (delete id) s).

(** UPDATE workshops SET availableSeats=availableSeats+d WHERE id=? *)
Definition add_availableSeats (d : Z) (workshopId : string) (s : State)
    : option State :=
  Some (set_workshops
          (alter (λ w, mkWorkshop (date w) (sql_add (availableSeats w) d)
                                  (totalSeats w))
                 workshopId) s).

(** INSERT INTO attendance: PRIMARY KEY id, UNIQUE(userId, workshopId). *)
Definition insert_attendance (id : string) (a : Attendance) (s : State)
    : option State :=
  match attendance s !! id, select_attendance (a_userId a) (a_workshopId a) s with
  | None, None => Some (set_attendance (insert id a) s)
  | _, _ => None
  end.

(** INSERT INTO qr_tokens (token, workshopId, createdAt, expiresAt);
    [used] takes its DEFAULT FALSE. *)
Definition insert_qr_token (token workshopId : string) (createdAt expiresAt : Z)
    (s : State) : option State :=
  match qr_tokens s !! token with
  | None => Some (set_qr_tokens
                    (insert token (mkQrRow workshopId createdAt expiresAt false)) s)
  | Some _ => None
  end.

(** UPDATE qr_tokens SET used = TRUE WHERE token = ? *)
Definition mark_used (token : string) (s : State) : option State :=
  Some (set_qr_tokens
          (alter (λ q, mkQrRow (q_workshopId q) (q_createdAt q) (q_expiresAt q) true)
                 token) s).

(** [dbh.transaction(() => { ... })()]: the statements run in order; when
    one throws, everything done so far is rolled back and the exception
    propagates.  [None] is the rolled-back outcome: the caller is left
    with the state it had. *)
Fixpoint transaction (body : list (State → option State)) (s : State)
    : option State :=
  match body with
  | [] => Some s
  | stmt :: rest =>
      match stmt s with
      | Some s' => transaction rest s'
      | None => None
      end
  end.

(** [broadcastEvent(event, data)]: one write per connected client, in the
    Set's insertion order; a write that throws is swallowed. *)
Definition broadcastEvent (ev : string) (d : Payload) (s : State) : State :=
  set_wire (λ w, w ++ map (λ c, (c, mkSse ev d)) (sseClients s)) s.

(** ** The server with workshop-scoped QR tokens *)
Module Api.

(** GET /health *)
Definition get_health (s : State) : Response * State := (Ok 200 Health, s).

(** POST /register, for a body whose three fields are strings.  The
    catch block answers "email already registered" whenever the text of
    the error holds UNIQUE, which is the case for both constraints of the
    table: the message of a PRIMARY KEY failure on [users.id] also reads
    "UNIQUE constraint failed".  (Its other answer, 500, is for errors
    without that word; the INSERT of three strings raises none.) *)
Definition post_register (e : Env) (name email password : string)
    (s : State) : Response * State :=
  if negb (truthy name) || negb (truthy email) || negb (truthy password)
  then (Err E_register_required, s)
  else
    let id := pretty (now e) in
    match insert_user id (mkUser name email password "user") s with
    | None => (Err E_email_already_registered, s)
    | Some s' => (Ok 201 (Registered id name email "user"), s')
    end.

(** POST /login *)
Definition post_login (em pw : string) (s : State) : Response * State :=
  if negb (truthy em) || negb (truthy pw) then (Err E_login_required, s)
  else
    match select_user_by_credentials em pw s with
    | None => (Err E_invalid_credentials, s)
    | Some (id, user) =>
        (Ok 200 (LoggedIn id (name user) (email user) (role user)), s)
    end.

(** GET /workshops *)
Definition get_workshops (s : State) : Response * State :=
  (Ok 200 (WorkshopList (workshops s)), s).

(** POST /workshops.  Only [date] and [totalSeats] are kept of the body;
    the other required text fields are taken as present.  [totalSeats]
    is tested with [!totalSeats] and stored as [Number(totalSeats)],
    unvalidated. *)
Definition post_workshops (e : Env) (wsDate : option Z)
    (totalSeats : BodyNumber) (s : State) : Response * State :=
  if negb (b_truthy totalSeats) then (Err E_missing_fields, s)
  else
    let id := pretty (now e) in
    match insert_workshop id wsDate (b_number totalSeats) s with
    | None => (Threw, s)
    | Some s' => (Ok 201 (WorkshopCreated id (workshops s' !! id)), s')
    end.

(** [wsDate < startOfToday] *)
Definition workshop_expired (e : Env) (w : Workshop) : bool :=
  match date w with
  | Some d => bool_decide (d < startOfToday e)
  | None => false
  end.

(** POST /reservations *)
Definition post_reservations (e : Env) (userId workshopId : string)
    (s : State) : Response * State :=
  if negb (truthy userId) || negb (truthy workshopId)
  then (Err E_ids_required, s)
  else
    match users s !! userId, workshops s !! workshopId with
    | Some _, Some workshop =>
        if workshop_expired e workshop then (Err E_workshop_expired, s)
        else if js_le_zero (js_number (availableSeats workshop))
        then (Err E_workshop_full, s)
        else
          match select_reservation userId workshopId s with
          | Some _ => (Err E_already_reserved, s)
          | None =>
              let id := pretty (now e) in
              let r := mkReservation userId workshopId (now e) in
              match transaction [insert_reservation id r;
                                 add_availableSeats (-1) workshopId] s with
              | None => (Threw, s)
              | Some s' =>
                  (Ok 201 (ReservationCreated id r (workshops s' !! workshopId)),
                   s')
              end
          end
    | _, _ => (Err E_user_or_workshop_not_found, s)
    end.

(** GET /reservations?userId= *)
Definition reserved_by (userId : string) (kr : string * Reservation) : Prop :=
  r_userId kr.2 = userId.

#[global] Instance reserved_by_dec u kr : Decision (reserved_by u kr).
Proof. unfold reserved_by. apply _. Defined.

Definition get_reservations (userId : string) (s : State)
    : Response * State :=
  if negb (truthy userId) then (Err E_userId_required, s)
  else (Ok 200 (ReservationList (filter (reserved_by userId) (reservations s))),
        s).

(** DELETE /reservations *)
Definition delete_reservations (userId workshopId : string) (s : State)
    : Response * State :=
  if negb (truthy userId) || negb (truthy workshopId)
  then (Err E_ids_required, s)
  else
    match select_reservation userId workshopId s with
    | None => (Err E_reservation_not_found, s)
    | Some existing =>
        match transaction [delete_reservation existing.1;
                           add_availableSeats 1 workshopId] s with
        | None => (Threw, s)
        | Some s' =>
            (Ok 200 (ReservationCancelled (workshops s' !! workshopId)), s')
        end
    end.

(** GET /admin/overview; the users are listed without their password. *)
Definition get_admin_overview (s : State) : Response * State :=
  (Ok 200 (Overview ((λ u, (name u, email u, role u)) <$> users s)
                    (workshops s) (reservations s) (attendance s)), s).

(** POST /qr/generate: user-scoped token in the in-memory Map, 30 s. *)
Definition post_qr_generate (e : Env) (userId workshopId : string)
    (s : State) : Response * State :=
  if negb (truthy userId) || negb (truthy workshopId)
  then (Err E_ids_required, s)
  else
    match select_reservation userId workshopId s with
    | None => (Err E_no_reservation, s)
    | Some _ =>
        let token := randomBytes e in
        let expiresAt := now e + 30000 in
        (Ok 200 (TokenIssued token expiresAt),
         set_qrTokens (insert token (mkTokenData userId workshopId expiresAt)) s)
    end.

(** POST /qr/validate (the "legacy endpoint" of this file). *)
Definition post_qr_validate (e : Env) (token : string) (s : State)
    : Response * State :=
  if negb (truthy token) then (Err E_token_required, s)
  else
    match qrTokens s !! token with
    | Some tokenData =>
        if bool_decide (t_expiresAt tokenData < now e)
        then (Err E_token_expired, set_qrTokens (delete token) s)
        else
          let userId := t_userId tokenData in
          let workshopId := t_workshopId tokenData in
          match users s !! userId with
          | None => (Err E_user_not_found, s)
          | Some user =>
              match select_attendance userId workshopId s with
              | Some _ =>
                  (Err E_already_checked_in, set_qrTokens (delete token) s)
              | None =>
                  let attendanceId := pretty (now e) in
                  let checkedInAt := now e in
                  match insert_attendance attendanceId
                          (mkAttendance userId workshopId checkedInAt) s with
                  | None => (Threw, s)
                  | Some s1 =>
                      let s2 := set_qrTokens (delete token) s1 in
                      let s3 := broadcastEvent "attendance"
                                  (AttendanceData attendanceId userId (name user)
                                     (email user) workshopId checkedInAt) s2 in
                      (Ok 200 (CheckedIn userId workshopId checkedInAt), s3)
                  end
              end
          end
    | None => (Err E_invalid_token_format, s)
    end.

(** [expiresAt < ?] of the DELETE below: the column is TEXT and the
    parameter is the string [String(now)], so the two are compared as
    text, byte by byte, a proper prefix being the smaller.  The column
    holds [String(expiresAt)], the digits of [q_expiresAt] followed by
    the fraction, if any; against the digits of [String(now)] the
    fraction decides nothing (lemma [text_lt_fraction]). *)
Definition text_lt (x y : string) : bool := String.ltb x y.

(** The decimal point of [String(expiresAt)]. *)
Definition decimal_point : Ascii.ascii := Ascii.ascii_of_nat 46.

Definition expired_as_text (t : Z) (q : QrRow) : bool :=
  text_lt (pretty (q_expiresAt q)) (pretty t).

(** DELETE FROM qr_tokens WHERE expiresAt < ? OR workshopId = ? *)
Definition qr_kept (t : Z) (workshopId : string) (kq : string * QrRow) : Prop :=
  ¬ (expired_as_text t kq.2 = true ∨ q_workshopId kq.2 = workshopId).

#[global] Instance qr_kept_dec t w kq : Decision (qr_kept t w kq).
Proof. unfold qr_kept. apply _. Defined.

Definition attendance_in (workshopId : string) (ka : string * Attendance)
    : Prop := a_workshopId ka.2 = workshopId.

#[global] Instance attendance_in_dec w ka : Decision (attendance_in w ka).
Proof. unfold attendance_in. apply _. Defined.

(** POST /qr/generate-workshop *)
Definition post_qr_generate_workshop (e : Env) (workshopId : string)
    (s : State) : Response * State :=
  if negb (truthy workshopId) then (Err E_workshopId_required, s)
  else
    match workshops s !! workshopId with
    | None => (Err E_workshop_not_found, s)
    | Some _ =>
        let s1 := set_qr_tokens (filter (qr_kept (now e) workshopId)) s in
        let token := randomBytes e in
        let expiresAt := now e + random_ms e + 10000 in
        match insert_qr_token token workshopId (now e) expiresAt s1 with
        | None => (Threw, s1)
        | Some s2 =>
            let attendanceCount :=
              size (filter (attendance_in workshopId) (attendance s2)) in
            (Ok 200 (WorkshopTokenIssued token attendanceCount), s2)
        end
    end.

(** SELECT * FROM qr_tokens WHERE token=? AND workshopId=? *)
Definition select_qr_token (token workshopId : string) (s : State)
    : option QrRow :=
  match qr_tokens s !! token with
  | Some q => if bool_decide (q_workshopId q = workshopId) then Some q else None
  | None => None
  end.

(** POST /qr/validate-workshop *)
Definition post_qr_validate_workshop (e : Env) (token workshopId userId : string)
    (s : State) : Response * State :=
  if negb (truthy token) || negb (truthy workshopId) || negb (truthy userId)
  then (Err E_validate_workshop_required, s)
  else
    match users s !! userId with
    | None => (Err E_user_not_found, s)
    | Some user =>
    match select_reservation userId workshopId s with
    | None => (Err E_no_reservation_for_workshop, s)
    | Some _ =>
    match select_qr_token token workshopId s with
    | None => (Err E_invalid_qr_token, s)
    | Some qrData =>
        if q_used qrData then (Err E_qr_already_used, s)
        else if bool_decide (q_expiresAt qrData < now e)
        then (Err E_qr_expired, set_qr_tokens (delete token) s)
        else
          match select_attendance userId workshopId s with
          | Some _ => (Err E_already_checked_in_workshop, s)
          | None =>
              match transaction
                      [insert_attendance (randomUUID e)
                         (mkAttendance userId workshopId (now e));
                       mark_used token] s with
              | None => (Threw, s)
              | Some s1 =>
                  let s2 := broadcastEvent "attendance"
                              (AttendanceData (eventUUID e) userId (name user)
                                 (email user) workshopId (now e)) s1 in
                  let newToken := randomBytes e in
                  let newExpiresAt := now e + random_ms e + 10000 in
                  let s3 := broadcastEvent "qr_used"
                              (QrUsedData workshopId (name user) newToken
                                 newExpiresAt) s2 in
                  match insert_qr_token newToken workshopId (now e)
                          newExpiresAt s3 with
                  | None => (Threw, s3)
                  | Some s4 =>
                      (Ok 200 (CheckedInWorkshop userId workshopId (now e)
                                 newToken newExpiresAt), s4)
                  end
              end
          end
    end end end.

(** GET /events and the connection's "close" *)
Definition get_events (client : nat) (s : State) : Response * State :=
  (Ok 200 Streaming,
   set_sseClients
     (λ cs, if bool_decide (client ∈ cs) then cs else cs ++ [client]) s).

Definition close_events (client : nat) (s : State) : Response * State :=
  (Ok 200 NoReply,
   set_sseClients (filter (λ c, c ≠ client)) s).

(** The 30 s interval that drops expired entries of [qrTokens]. *)
Definition token_alive (t : Z) (kt : string * TokenData) : Prop :=
  ¬ (t_expiresAt kt.2 < t).

#[global] Instance token_alive_dec t kt : Decision (token_alive t kt).
Proof. unfold token_alive. apply _. Defined.

Definition clean_expired_tokens (e : Env) (s : State) : Response * State :=
  (Ok 200 NoReply, set_qrTokens (filter (token_alive (now e))) s).

(** Every route of the server, the close of an event stream and the
    30 s interval. *)
Inductive Request :=
| GetHealth
| PostRegister (name email password : string)
| PostLogin (email password : string)
| GetWorkshops
| PostWorkshops (wsDate : option Z) (totalSeats : BodyNumber)
| PostReservations (userId workshopId : string)
| GetReservations (userId : string)
| DeleteReservations (userId workshopId : string)
| GetAdminOverview
| PostQrGenerate (userId workshopId : string)
| PostQrValidate (token : string)
| PostQrGenerateWorkshop (workshopId : string)
| PostQrValidateWorkshop (token workshopId userId : string)
| GetEvents (client : nat)
| CloseEvents (client : nat)
| CleanExpiredTokens.

Definition handle (e : Env) (r : Request) (s : State) : Response * State :=
  match r with
  | GetHealth => get_health s
  | PostRegister n em pw => post_register e n em pw s
  | PostLogin em pw => post_login em pw s
  | GetWorkshops => get_workshops s
  | PostWorkshops d t => post_workshops e d t s
  | PostReservations u w => post_reservations e u w s
  | GetReservations u => get_reservations u s
  | DeleteReservations u w => delete_reservations u w s
  | GetAdminOverview => get_admin_overview s
  | PostQrGenerate u w => post_qr_generate e u w s
  | PostQrValidate t => post_qr_validate e t s
  | PostQrGenerateWorkshop w => post_qr_generate_workshop e w s
  | PostQrValidateWorkshop t w u => post_qr_validate_workshop e t w u s
  | GetEvents c => get_events c s
  | CloseEvents c => close_events c s
  | CleanExpiredTokens => clean_expired_tokens e s
  end.

(** The states a sequence of requests goes through, the first included. *)
Fixpoint states (reqs : list (Env * Request)) (s : State) : list State :=
  match reqs with
  | [] => [s]
  | (e, r) :: rest => s :: states rest (handle e r s).2
  end.

Definition run (reqs : list (Env * Request)) (s : State) : State :=
  fold_left (λ st er, (handle er.1 er.2 st).2) reqs s.

End Api.

(** ** The earlier server, [src/server/index.js]

    Its account, workshop and reservation routes are the ones of [Api],
    statement for statement; only the QR routes differ (10 s lifetime,
    one token store, a different message for an unknown token). *)
Module ServerIndex.

(** POST /qr/generate *)
Definition post_qr_generate (e : Env) (userId workshopId : string)
    (s : State) : Response * State :=
  if negb (truthy userId) || negb (truthy workshopId)
  then (Err E_ids_required, s)
  else
    match select_reservation userId workshopId s with
    | None => (Err E_no_reservation, s)
    | Some _ =>
        let token := randomBytes e in
        let expiresAt := now e + 10000 in
        (Ok 200 (TokenIssued token expiresAt),
         set_qrTokens (insert token (mkTokenData userId workshopId expiresAt)) s)
    end.

(** POST /qr/validate *)
Definition post_qr_validate (e : Env) (token : string) (s : State)
    : Response * State :=
  if negb (truthy token) then (Err E_token_required, s)
  else
    match qrTokens s !! token with
    | None => (Err E_invalid_or_expired_token, s)
    | Some tokenData =>
        if bool_decide (t_expiresAt tokenData < now e)
        then (Err E_token_expired, set_qrTokens (delete token) s)
        else
          let userId := t_userId tokenData in
          let workshopId := t_workshopId tokenData in
          match users s !! userId with
          | None => (Err E_user_not_found, s)
          | Some user =>
              match select_attendance userId workshopId s with
              | Some _ =>
                  (Err E_already_checked_in, set_qrTokens (delete token) s)
              | None =>
                  let attendanceId := pretty (now e) in
                  let checkedInAt := now e in
                  match insert_attendance attendanceId
                          (mkAttendance userId workshopId checkedInAt) s with
                  | None => (Threw, s)
                  | Some s1 =>
                      let s2 := set_qrTokens (delete token) s1 in
                      let s3 := broadcastEvent "attendance"
                                  (AttendanceData attendanceId userId (name user)
                                     (email user) workshopId checkedInAt) s2 in
                      (Ok 200 (CheckedIn userId workshopId checkedInAt), s3)
                  end
              end
          end
    end.

End ServerIndex.


(** ** Server start *)

(** The two rows [initDb] seeds. *)
Definition admin_user : User := mkUser "Admin" "admin@admin.com" "admin" "admin".

Definition seed_workshop (seedDate : option Z) : Workshop :=
  mkWorkshop seedDate (Int 8) (Int 15).

(** [initDb], after its CREATE TABLE IF NOT EXISTS statements: the admin
    is inserted unless some user has the admin's email, and one workshop
    is inserted unless the table has a row.  [seedDate] is the instant
    the literal "2025-12-15" denotes; a throwing INSERT ends the start. *)
Definition initDb (seedDate : option Z) (db : State) : option State :=
  let seeded :=
    match select_user_by_email "admin@admin.com" db with
    | Some _ => Some db
    | None => insert_user "admin-1" admin_user db
    end in
  match seeded with
  | None => None
  | Some db1 =>
      match head (map_to_list (workshops db1)) with
      | Some _ => Some db1
      | None =>
          Some (set_workshops (insert "1" (seed_workshop seedDate)) db1)
      end
  end.

(** A start of the server process on the database file [db]: the
    module-level [new Map()] and [new Set()] are empty, then [initDb]. *)
Definition server_start (seedDate : option Z) (db : State) : option State :=
  initDb seedDate (set_sseClients (λ _, []) (set_qrTokens (λ _, ∅) db)).

(** ** CSV export of the admin dashboard *)

Definition dquote : Ascii.ascii := Ascii.ascii_of_nat 34.
Definition comma : Ascii.ascii := Ascii.ascii_of_nat 44.
Definition newline : Ascii.ascii := Ascii.ascii_of_nat 10.

(** The test of [escapeCell]: the string holds a double quote, a comma or
    a newline. *)
Fixpoint has_special (str : string) : bool :=
  match str with
  | EmptyString => false
  | String c rest =>
      Ascii.eqb c dquote || Ascii.eqb c comma || Ascii.eqb c newline
      || has_special rest
  end.

(** The replace of [escapeCell]: every double quote is written twice. *)
Fixpoint double_quotes (str : string) : string :=
  match str with
  | EmptyString => EmptyString
  | String c rest =>
      if Ascii.eqb c dquote
      then String dquote (String dquote (double_quotes rest))
      else String c (double_quotes rest)
  end.

(** [escapeCell(value)]; [None] is null or undefined, [Some str] a value
    whose [String(value)] is [str]. *)
Definition escapeCell (value : option string) : string :=
  match value with
  | None => ""
  | Some str =>
      if has_special str
      then String dquote (double_quotes str +:+ String dquote "")
      else str
  end.

(** One line of the export: [headers.map(h => escapeCell(r[h])).join(",")],
    for the cells of the row in header order. *)
Definition csv_row (cells : list (option string)) : string :=
  String.concat (String.String comma "") (map escapeCell cells).


(** * Predicates of the specification *)

(** ** Seat ledger *)

Definition reserved_in (workshopId : string) (kr : string * Reservation)
    : Prop := r_workshopId kr.2 = workshopId.

#[global] Instance reserved_in_dec w kr : Decision (reserved_in w kr).
Proof. unfold reserved_in. apply _. Defined.

(** The number of active reservations of a workshop. *)
Definition active_reservations (workshopId : string) (s : State) : nat :=
  size (filter (reserved_in workshopId) (reservations s)).

(** The three statements about a row are about the numbers its two
    seat columns hold, read exactly (a REAL as the rational it is; a row
    with an infinite column satisfies none of them). *)
Definition seat_numbers (ws : Workshop) : option (Q * Q) :=
  match sql_value (availableSeats ws), sql_value (totalSeats ws) with
  | Some a, Some t => Some (a, t)
  | _, _ => None
  end.

(** available = total - (count of active reservations) *)
Definition seat_equation (workshopId : string) (s : State) : Prop :=
  ∀ ws, workshops s !! workshopId = Some ws →
    ∃ a t, seat_numbers ws = Some (a, t) ∧
      Qeq a (Qminus t (inject_Z (Z.of_nat (active_reservations workshopId s)))).

(** 0 <= available <= total *)
Definition seat_bounds (workshopId : string) (s : State) : Prop :=
  ∀ ws, workshops s !! workshopId = Some ws →
    ∃ a t, seat_numbers ws = Some (a, t) ∧
      Qle (inject_Z 0) a ∧ Qle a t.


(** The integers a JavaScript Number holds exactly. *)
Definition safe_integer (z : Z) : Prop := - 2 ^ 53 < z < 2 ^ 53.


Definition seat_ledger_ok (workshopId : string) (s : State) : Prop :=
  seat_bounds workshopId s ∧ seat_equation workshopId s.


(** An active reservation exists for the pair. *)
Definition has_reservation (userId workshopId : string) (s : State) : Prop :=
  ∃ id r, reservations s !! id = Some r ∧
          r_userId r = userId ∧ r_workshopId r = workshopId.

(** The table satisfies its UNIQUE(userId, workshopId). *)
Definition unique_reservations (s : State) : Prop :=
  ∀ id1 id2 r1 r2,
    reservations s !! id1 = Some r1 → reservations s !! id2 = Some r2 →
    r_userId r1 = r_userId r2 → r_workshopId r1 = r_workshopId r2 →
    id1 = id2.

(** The cap C3 speaks of: after a Cancel the row is within its total. *)
Definition cancel_capped (userId workshopId : string) (s : State) : Prop :=
  ∀ ws', workshops (Api.delete_reservations userId workshopId s).2
           !! workshopId = Some ws' →
         ∃ a t, seat_numbers ws' = Some (a, t) ∧ Qle a t.


(** Decidable readings of the three predicates at one workshop row, for
    evaluation on concrete states. *)
Definition seat_equationb (workshopId : string) (s : State) : bool :=
  match workshops s !! workshopId with
  | Some ws =>
      match seat_numbers ws with
      | Some (a, t) =>
          Qeq_bool a (Qminus t (inject_Z (Z.of_nat
                                   (active_reservations workshopId s))))
      | None => false
      end
  | None => true
  end.

Definition seat_boundsb (workshopId : string) (s : State) : bool :=
  match workshops s !! workshopId with
  | Some ws =>
      match seat_numbers ws with
      | Some (a, t) => Qle_bool (inject_Z 0) a && Qle_bool a t
      | None => false
      end
  | None => true
  end.



Definition seat_ledger_okb (workshopId : string) (s : State) : bool :=
  seat_boundsb workshopId s && seat_equationb workshopId s.

(** ** Scenario data *)

Definition env_at (t : Z) (token uuid : string) : Env :=
  mkEnv t 0 token uuid "evt" 5000.

Definition alice : User := mkUser "Alice" "alice@example.org" "a-secret" "user".
Definition bob : User := mkUser "Bob" "bob@example.org" "b-secret" "user".

(** The body field [totalSeats] holding the JSON integer [z]. *)
Definition json_integer (z : Z) : BodyNumber := json_number (float_of_Z z).

(** The body field holding the JSON number [n / d]. *)
Definition json_fraction (n d : Z) : BodyNumber :=
  json_number (float_div (float_of_Z n) (float_of_Z d)).

(** Two users, one workshop with one seat, nothing else. *)
Definition one_seat : State :=
  mkState {["alice" := alice; "bob" := bob]}
          {["W" := mkWorkshop None (Int 1) (Int 1)]} ∅ ∅ ∅ ∅ [7%nat] [].

(** Two users and no workshop yet. *)
Definition two_users : State :=
  mkState {["alice" := alice; "bob" := bob]} ∅ ∅ ∅ ∅ ∅ [7%nat] [].



(** What it leaves behind for [totalSeats = 0.3]. *)
Definition fractional_workshop : State :=
  (Api.post_workshops (env_at 1000 "" "") None (json_fraction 3 10) two_users).2.

(** What it leaves behind for [totalSeats = 1e19]. *)
Definition huge_workshop : State :=
  (Api.post_workshops (env_at 1000 "" "") None (json_integer (10 ^ 19))
     two_users).2.

(** A full workshop row ([availableSeats = totalSeats = 1]) next to a
    reservation of Alice's. *)
Definition full_with_reservation : State :=
  mkState {["alice" := alice; "bob" := bob]}
          {["W" := mkWorkshop None (Int 1) (Int 1)]}
          {["r1" := mkReservation "alice" "W" 500]} ∅ ∅ ∅ [7%nat] [].

(** Alice reserves the only seat, Bob is turned away, Alice cancels, Bob
    reserves. *)
Definition ledger_trace : list (Env * Api.Request) :=
  [ (env_at 1000 "" "", Api.PostReservations "alice" "W");
    (env_at 1001 "" "", Api.PostReservations "bob" "W");
    (env_at 1002 "" "", Api.DeleteReservations "alice" "W");
    (env_at 1003 "" "", Api.PostReservations "bob" "W") ].

(** ** Check-in *)

(** An attendance record exists for the pair. *)
Definition has_attendance (userId workshopId : string) (s : State) : Prop :=
  ∃ id a, attendance s !! id = Some a ∧
          a_userId a = userId ∧ a_workshopId a = workshopId.

(** At most one attendance record per (user, workshop). *)
Definition unique_attendance (s : State) : Prop :=
  ∀ id1 id2 a1 a2,
    attendance s !! id1 = Some a1 → attendance s !! id2 = Some a2 →
    a_userId a1 = a_userId a2 → a_workshopId a1 = a_workshopId a2 →
    id1 = id2.

Definition is_failure (r : Response) : Prop :=
  match r with Ok _ _ => False | _ => True end.

(** An error response was sent (not a success, not an exception). *)
Definition is_error (r : Response) : Prop := ∃ err, r = Err err.

Definition is_success (r : Response) : Prop :=
  match r with Ok _ _ => True | _ => False end.

(** The kind of a failed response, when it carries one. *)
Definition failure_kind (r : Response) : option FailureKind :=
  match r with Err e => Some (kind e) | _ => None end.

(** The row of a workshop-scoped token with its [used] flag set. *)
Definition used_row (q : QrRow) : QrRow :=
  mkQrRow (q_workshopId q) (q_createdAt q) (q_expiresAt q) true.

Definition token_marked_used (token : string) (s : State) : Prop :=
  ∃ q, qr_tokens s !! token = Some q ∧ q_used q = true.

(** A workshop-scoped token is live at time [t]: unused and not expired
    in the handler's own sense ([expiresAt < now] is expired). *)
Definition live (t : Z) (q : QrRow) : Prop :=
  q_used q = false ∧ ¬ (q_expiresAt q < t).

(** At most one live token per workshop, at any time. *)
Definition one_live_token_per_workshop (s : State) : Prop :=
  ∀ t token1 token2 q1 q2,
    qr_tokens s !! token1 = Some q1 → qr_tokens s !! token2 = Some q2 →
    q_workshopId q1 = q_workshopId q2 →
    live t q1 → live t q2 → token1 = token2.

(** The same, without the clock: at most one unused token per workshop. *)
Definition one_unused_token_per_workshop (s : State) : Prop :=
  ∀ token1 token2 q1 q2,
    qr_tokens s !! token1 = Some q1 → qr_tokens s !! token2 = Some q2 →
    q_workshopId q1 = q_workshopId q2 →
    q_used q1 = false → q_used q2 = false → token1 = token2.

(** The unused rows of [s'] are unused rows of [s], for the same
    workshop. *)
Definition unused_from (s s' : State) : Prop :=
  ∀ t q', qr_tokens s' !! t = Some q' → q_used q' = false →
    ∃ q, qr_tokens s !! t = Some q ∧ q_used q = false ∧
         q_workshopId q = q_workshopId q'.

(** The messages of one [broadcastEvent] call. *)
Definition broadcast (ev : string) (d : Payload) (clients : list nat)
    : list (nat * SseMessage) :=
  map (λ c, (c, mkSse ev d)) clients.

(** Some subscriber was sent an event of this kind. *)
Definition published (ev : string) (s : State) : Prop :=
  ∃ c d, (c, mkSse ev d) ∈ wire s.

(** The state POST /qr/validate-workshop commits before it rotates the
    token: the attendance row, the [used] flag, the two broadcasts. *)
Definition committed_check_in (e : Env) (token workshopId userId : string)
    (user : User) (s : State) : State :=
  let s1 := set_qr_tokens (alter used_row token)
              (set_attendance
                 (insert (randomUUID e)
                         (mkAttendance userId workshopId (now e))) s) in
  let s2 := broadcastEvent "attendance"
              (AttendanceData (eventUUID e) userId (name user) (email user)
                              workshopId (now e)) s1 in
  broadcastEvent "qr_used"
    (QrUsedData workshopId (name user) (randomBytes e)
                (now e + random_ms e + 10000)) s2.

(** The same state with the rotated token stored. *)
Definition rotated_check_in (e : Env) (token workshopId userId : string)
    (user : User) (s : State) : State :=
  set_qr_tokens
    (insert (randomBytes e)
            (mkQrRow workshopId (now e) (now e + random_ms e + 10000) false))
    (committed_check_in e token workshopId userId user s).

(** Both changes of the check-in transaction are in [s']: the attendance
    row of this request and the [used] flag of the presented token. *)
Definition check_in_applied (e : Env) (token workshopId userId : string)
    (s s' : State) : Prop :=
  attendance s !! randomUUID e = None ∧
  attendance s' =
    <[randomUUID e := mkAttendance userId workshopId (now e)]> (attendance s) ∧
  (∃ q, qr_tokens s !! token = Some q ∧ q_used q = false) ∧
  token_marked_used token s'.

(** Neither change is in [s']: the attendance table is the one of [s] and
    the token's row, if still there, is the row of [s]. *)
Definition check_in_not_applied (token : string) (s s' : State) : Prop :=
  attendance s' = attendance s ∧
  ∀ q, qr_tokens s' !! token = Some q → qr_tokens s !! token = Some q.

(** Alice and Bob both hold a reservation for W; Alice has already
    checked in; the scanning station shows the unused token "T", valid
    until 20000; one subscriber listens. *)
Definition scan_state : State :=
  mkState {["alice" := alice; "bob" := bob]}
          {["W" := mkWorkshop None (Int 0) (Int 2)]}
          {["r1" := mkReservation "alice" "W" 500;
            "r2" := mkReservation "bob" "W" 600]}
          {["a1" := mkAttendance "alice" "W" 900]}
          {["T" := mkQrRow "W" 1000 20000 false]}
          ∅ [7%nat] [].

(** The requests' readings of the clock and of the random sources. *)
Definition scan_env : Env := mkEnv 5000 0 "N" "uuid-1" "uuid-2" 5000.
Definition later_env : Env := mkEnv 6000 0 "M" "uuid-3" "uuid-4" 2500.

(** ** The user-scoped check-in of both server files *)

(** What [Api.post_qr_validate] and [ServerIndex.post_qr_validate] have in
    common, with the answer to an unknown token left open. *)
Definition validate_user_token (unknown : ApiError) (e : Env) (token : string)
    (s : State) : Response * State :=
  if negb (truthy token) then (Err E_token_required, s)
  else
    match qrTokens s !! token with
    | None => (Err unknown, s)
    | Some tokenData =>
        if bool_decide (t_expiresAt tokenData < now e)
        then (Err E_token_expired, set_qrTokens (delete token) s)
        else
          match users s !! t_userId tokenData with
          | None => (Err E_user_not_found, s)
          | Some user =>
              if bool_decide (has_attendance (t_userId tokenData)
                                             (t_workshopId tokenData) s)
              then (Err E_already_checked_in, set_qrTokens (delete token) s)
              else
                match attendance s !! pretty (now e) with
                | Some _ => (Threw, s)
                | None =>
                    (Ok 200 (CheckedIn (t_userId tokenData)
                                       (t_workshopId tokenData) (now e)),
                     broadcastEvent "attendance"
                       (AttendanceData (pretty (now e)) (t_userId tokenData)
                          (name user) (email user) (t_workshopId tokenData)
                          (now e))
                       (set_qrTokens (delete token)
                          (set_attendance
                             (insert (pretty (now e))
                                (mkAttendance (t_userId tokenData)
                                   (t_workshopId tokenData) (now e))) s)))
                end
          end
    end.

(** Scenario B up to the issued token: Alice reserves the seat of W at
    1000 and is issued the user-scoped token "TA" at 2000. *)
Definition scenario_b_issued : State :=
  (Api.post_qr_generate (env_at 2000 "TA" "") "alice" "W"
     (Api.post_reservations (env_at 1000 "" "") "alice" "W" one_seat).2).2.

(** The same, after Alice has cancelled the reservation again at 2500. *)
Definition issued_then_cancelled : State :=
  (Api.delete_reservations "alice" "W" scenario_b_issued).2.

(** Alice's failed second scan, Bob's check-in, a new token for W, and a
    user-scoped attempt with a token nobody issued. *)
Definition check_in_trace : list (Env * Api.Request) :=
  [ (scan_env, Api.PostQrValidateWorkshop "T" "W" "alice");
    (later_env, Api.PostQrValidateWorkshop "T" "W" "bob");
    (mkEnv 7000 0 "P" "" "" 100, Api.PostQrGenerateWorkshop "W");
    (mkEnv 8000 0 "" "" "" 0, Api.PostQrValidate "TA") ].

(** Scenario C: Alice holds a reservation for W; the station asks for a
    token at 2000 and again at 2100. *)
Definition reserved_state : State :=
  (Api.post_reservations (env_at 1000 "" "") "alice" "W" one_seat).2.

Definition first_issue : Env := mkEnv 2000 0 "T1" "" "" 4000.
Definition second_issue : Env := mkEnv 2100 0 "T2" "" "" 9000.
Definition first_scan : Env := mkEnv 3000 0 "T3" "uuid-8" "uuid-7" 100.
Definition second_scan : Env := mkEnv 3100 0 "T4" "uuid-9" "uuid-6" 200.

(** The state after two POST /qr/generate-workshop for the same workshop. *)
Definition issued_twice (e1 e2 : Env) (workshopId : string) (s : State)
    : State :=
  (Api.post_qr_generate_workshop e2 workshopId
     (Api.post_qr_generate_workshop e1 workshopId s).2).2.

(** Two tokens for W in a row, then a scan with each. *)
Definition token_trace : list (Env * Api.Request) :=
  [ (first_issue, Api.PostQrGenerateWorkshop "W");
    (second_issue, Api.PostQrGenerateWorkshop "W");
    (first_scan, Api.PostQrValidateWorkshop "T1" "W" "alice");
    (second_scan, Api.PostQrValidateWorkshop "T2" "W" "alice") ].


(** * Further properties of the server code *)

(** ** Reserve, read off POST /reservations *)

(** The row Reserve writes back for the workshop. *)
Definition seat_taken (ws : Workshop) : Workshop :=
  mkWorkshop (date ws) (sql_add (availableSeats ws) (-1)) (totalSeats ws).

(** The row Cancel writes back for the workshop. *)
Definition seat_released (ws : Workshop) : Workshop :=
  mkWorkshop (date ws) (sql_add (availableSeats ws) 1) (totalSeats ws).

(** Alice's reservation of the last seat, made at 1000. *)
Definition alice_reserved : State :=
  (Api.post_reservations (env_at 1000 "" "") "alice" "W" one_seat).2.

(** ** Invariants of the tables *)

(** Every workshop of [s] is still there in [s'], with the totalSeats and
    the date it had. *)
Definition workshops_kept (s s' : State) : Prop :=
  ∀ w ws, workshops s !! w = Some ws →
    ∃ ws', workshops s' !! w = Some ws' ∧
           totalSeats ws' = totalSeats ws ∧ date ws' = date ws.

(** The writes addressed to one client, oldest first. *)
Definition received (client : nat) (s : State) : list SseMessage :=
  (filter (λ m, m.1 = client) (wire s)).*2.

(** A mixed afternoon: reservations, tokens, subscriptions, check-ins. *)
Definition mixed_trace : list (Env * Api.Request) :=
  [ (env_at 1000 "" "", Api.PostReservations "alice" "W");
    (env_at 1100 "" "", Api.GetEvents 8);
    (env_at 1200 "" "", Api.GetEvents 8);
    (mkEnv 2000 0 "TA" "" "" 0, Api.PostQrGenerate "alice" "W");
    (mkEnv 2100 0 "T1" "" "" 4000, Api.PostQrGenerateWorkshop "W");
    (mkEnv 3000 0 "T2" "u1" "u2" 100, Api.PostQrValidateWorkshop "T1" "W" "alice");
    (env_at 3500 "" "", Api.CloseEvents 7);
    (env_at 4000 "" "", Api.PostQrValidate "TA");
    (env_at 40000 "" "", Api.CleanExpiredTokens);
    (env_at 41000 "" "", Api.DeleteReservations "alice" "W");
    (env_at 42000 "" "", Api.PostWorkshops None (json_integer 5));
    (env_at 43000 "" "", Api.PostRegister "Carol" "carol@example.org" "c");
    (env_at 44000 "" "", Api.PostLogin "carol@example.org" "c");
    (env_at 45000 "" "", Api.GetAdminOverview) ].

(** ** The user-scoped token store *)

(** The state a user-scoped check-in leaves when it succeeds. *)
Definition user_checked_in (e : Env) (token : string) (td : TokenData)
    (user : User) (s : State) : State :=
  broadcastEvent "attendance"
    (AttendanceData (pretty (now e)) (t_userId td) (name user) (email user)
                    (t_workshopId td) (now e))
    (set_qrTokens (delete token)
       (set_attendance
          (insert (pretty (now e))
                  (mkAttendance (t_userId td) (t_workshopId td) (now e))) s)).

(** ** The workshop-scoped token store *)

(** A workshop token that can no longer check anybody in: its row is
    gone or marked used. *)
Definition spent (token : string) (s : State) : Prop :=
  ∀ q, qr_tokens s !! token = Some q → q_used q = true.

(** No request of the sequence draws [token] as its random token. *)
Definition never_drawn (token : string) (reqs : list (Env * Api.Request))
    : Prop :=
  Forall (λ er, randomBytes er.1 ≠ token) reqs.


(** ** The seat ledger under every request *)

(** FOREIGN KEY(workshopId) of the reservations table: every reservation
    is for a workshop that exists. *)
Definition reservations_reference_workshops (s : State) : Prop :=
  ∀ id r, reservations s !! id = Some r →
    is_Some (workshops s !! r_workshopId r).

(** The seats of the workshop that are free or reserved: its
    availableSeats, a safe whole number, plus the number of its
    reservations, is [n]. *)
Definition supply_is (workshopId : string) (n : Z) (s : State) : Prop :=
  ∃ ws a, workshops s !! workshopId = Some ws ∧
          availableSeats ws = Int a ∧ safe_integer a ∧
          a + Z.of_nat (active_reservations workshopId s) = n.

Definition supply_isb (workshopId : string) (n : Z) (s : State) : bool :=
  match workshops s !! workshopId with
  | Some ws =>
      match availableSeats ws with
      | Int a =>
          bool_decide (safe_integer a ∧
                       a + Z.of_nat (active_reservations workshopId s) = n)
      | Real _ => false
      end
  | None => false
  end.

(** ** Accounts *)

(** Some user has the email. *)
Definition email_taken (em : string) (s : State) : Prop :=
  ∃ id u, users s !! id = Some u ∧ email u = em.

(** The table satisfies its UNIQUE(email). *)
Definition unique_emails (s : State) : Prop :=
  ∀ id1 id2 u1 u2,
    users s !! id1 = Some u1 → users s !! id2 = Some u2 →
    email u1 = email u2 → id1 = id2.

(** ** Server start *)

(** Some user has the email of the admin. *)
Definition has_admin (db : State) : Prop :=
  ∃ id u, users db !! id = Some u ∧ email u = "admin@admin.com".

(** A database file that has just been created: every table is empty. *)
Definition fresh_database : State := mkState ∅ ∅ ∅ ∅ ∅ ∅ [] [].

(** * Properties *)

(** ** Reading a table through [head (map_to_list (filter ...))] *)
Section select.
Context {A : Type} (P : string * A → Prop) `{!∀ x, Decision (P x)}.

Lemma select_first_None (m : gmap string A) :
    head (map_to_list (filter P m)) = None ↔
    ∀ k x, m !! k = Some x → ¬ P (k, x).
  Proof.
    split.
    - intros Hh k x Hk HP.
      assert (Hin : (k, x) ∈ map_to_list (filter P m)).
      { apply elem_of_map_to_list, map_lookup_filter_Some. done. }
      destruct (map_to_list (filter P m)); [by apply elem_of_nil in Hin | done].
    - intros Hno.
      destruct (map_to_list (filter P m)) as [|[k x] l] eqn:El; [done|].
      assert (Hin : (k, x) ∈ map_to_list (filter P m)) by (rewrite El; left).
      apply elem_of_map_to_list, map_lookup_filter_Some in Hin as [Hk HP].
      by destruct (Hno k x Hk).
  Qed.

Lemma select_first_Some (m : gmap string A) k x :
    head (map_to_list (filter P m)) = Some (k, x) →
    m !! k = Some x ∧ P (k, x).
  Proof.
    intros Hh.
    assert (Hin : (k, x) ∈ map_to_list (filter P m)).
    { destruct (map_to_list (filter P m)) as [|y l]; simplify_eq/=. left. }
    by apply elem_of_map_to_list, map_lookup_filter_Some in Hin.
  Qed.

Lemma select_first_is_Some (m : gmap string A) k x :
    m !! k = Some x → P (k, x) →
    is_Some (head (map_to_list (filter P m))).
  Proof.
    intros Hk HP.
    destruct (head (map_to_list (filter P m))) eqn:Hh; [by eexists|].
    rewrite select_first_None in Hh. by destruct (Hh k x Hk).
  Qed.

  (** Row counts under INSERT of a fresh key and DELETE of a present one. *)
Lemma size_filter_insert_fresh (m : gmap string A) k x :
    m !! k = None →
    size (filter P (<[k:=x]> m)) =
    if decide (P (k, x)) then S (size (filter P m)) else size (filter P m).
  Proof.
    intros Hk. rewrite map_filter_insert. case_decide.
    - apply map_size_insert_None, map_lookup_filter_None. by left.
    - by rewrite delete_id.
  Qed.

Lemma size_filter_delete_present (m : gmap string A) k x :
    m !! k = Some x →
    size (filter P m) =
    if decide (P (k, x)) then S (size (filter P (delete k m)))
    else size (filter P (delete k m)).
  Proof.
    intros Hk. rewrite map_filter_delete, map_size_delete. case_decide.
    - rewrite (map_lookup_filter_Some_2 P m k x) by done.
      assert (size (filter P m) ≠ 0%nat); [|lia].
      intros Hz%map_size_empty_inv.
      by eapply (map_filter_empty_not_lookup P m k x).
    - replace (filter P m !! k) with (@None A); [done|].
      symmetry. apply map_lookup_filter_None. right.
      intros y Hy. rewrite Hk in Hy. by injection Hy as <-.
  Qed.
End select.

(** ** Numbers *)

Lemma digits2_pos_size p : digits2_pos p = Pos.size p.
Proof. induction p as [p IH|p IH|]; simpl; by rewrite ?IH. Qed.

Lemma digits2_pos_iter p n :
  digits2_pos (Pos.iter xO p n) = (digits2_pos p + n)%positive.
Proof.
  induction n as [|n IH] using Pos.peano_ind.
  - simpl. lia.
  - rewrite Pos.iter_succ. simpl. rewrite IH. lia.
Qed.

Lemma iter_xO_mul p n : Z.pos (Pos.iter xO p n) = Z.pos p * 2 ^ Z.pos n.
Proof.
  induction n as [|n IH] using Pos.peano_ind.
  - simpl. lia.
  - rewrite Pos.iter_succ, Pos2Z.inj_xO, IH, Pos2Z.inj_succ.
    rewrite Z.pow_succ_r by lia. lia.
Qed.

Lemma safe_digits p : Z.pos p < 2 ^ 53 → Z.pos (digits2_pos p) ≤ 53.
Proof.
  intros Hp. rewrite digits2_pos_size.
  pose proof (Pos.size_le p) as Hle.
  destruct (decide (Z.pos (Pos.size p) ≤ 53)) as [|Hn]; [done|exfalso].
  assert (Hpow : 2 ^ 54 ≤ 2 ^ Z.pos (Pos.size p))
    by (apply Z.pow_le_mono_r; lia).
  assert (Z.pos (2 ^ Pos.size p) ≤ Z.pos p~0) by lia.
  rewrite Pos2Z.inj_pow in *. lia.
Qed.

(** Rounding an integer below 2^53 to a double only shifts it to a
    53-bit mantissa. *)
Lemma binary_round_safe sx p :
  Z.pos p < 2 ^ 53 →
  ∃ m e, binary_round prec emax sx p 0 = S754_finite sx m e ∧
         -52 ≤ e ≤ 0 ∧ Z.pos m = Z.pos p * 2 ^ (- e).
Proof.
  intros Hp. pose proof (safe_digits p Hp) as Hd.
  unfold binary_round, shl_align, fexp, emin, prec, emax.
  set (d := Z.pos (digits2_pos p)) in *.
  assert (Hd0 : 0 < d) by (unfold d; lia).
  replace (Z.max (d + 0 - 53) (3 - 1024 - 53)) with (d - 53) by lia.
  assert (Haux : ∀ m e, Z.pos (digits2_pos m) = 53 → -52 ≤ e ≤ 0 →
            binary_round_aux 53 1024 sx (Z.pos m) e loc_Exact
            = S754_finite sx m e).
  { intros m e Hm He. unfold binary_round_aux, shr_fexp, fexp, emin.
    cbn [Zdigits2 shr_record_of_loc]. rewrite Hm.
    replace (Z.max (53 + e - 53) (3 - 1024 - 53) - e) with 0 by lia.
    cbn [shr shr_m loc_of_shr_record round_nearest_even Zdigits2
         shr_record_of_loc].
    rewrite Hm.
    replace (Z.max (53 + e - 53) (3 - 1024 - 53) - e) with 0 by lia.
    cbn [shr shr_m].
    destruct (Z.leb_spec e (1024 - 53)); [done|lia]. }
  destruct (d - 53 - 0) as [|k|k] eqn:Hk; [|lia|].
  - exists p, 0. split; [|split; [lia|simpl; lia]].
    replace (d - 53) with 0 by lia. apply Haux; [fold d; lia|lia].
  - exists (Pos.iter xO p k), (d - 53). split; [|split; [lia|]].
    + apply Haux; [|lia]. rewrite digits2_pos_iter. fold d in Hd |- *.
      rewrite Pos2Z.inj_add. fold d. lia.
    + rewrite iter_xO_mul. f_equal. f_equal. lia.
Qed.

(** A safe integer is read back by JavaScript with its sign, and a
    Number equal to one is stored as that INTEGER. *)
Lemma float_of_Z_safe z :
  safe_integer z →
  js_le_zero (float_of_Z z) = bool_decide (z ≤ 0) ∧
  integer_affinity (float_of_Z z) = Int z ∧
  bind_number (float_of_Z z) = Some (Int z).
Proof.
  intros [Hlo Hhi]. unfold bind_number, js_le_zero, float_of_Z, binary_normalize.
  destruct z as [|p|p].
  - split; [done|]. split; vm_compute; done.
  - destruct (binary_round_safe false p) as (m & e & -> & He & Hm); [lia|].
    split; [by rewrite bool_decide_eq_false_2 by lia|].
    assert (integer_affinity (S754_finite false m e) = Int (Z.pos p)) as ->;
      [|done].
    unfold integer_affinity, float_to_Z.
    assert (Hpow : 0 < 2 ^ (- e)) by (apply Z.pow_pos_nonneg; lia).
    case_bool_decide as He0.
    + replace e with 0 in * by lia. simpl in Hm |- *.
      rewrite bool_decide_eq_true_2 by lia. f_equal. lia.
    + rewrite Hm, Z.mod_mul, bool_decide_eq_true_2 by lia.
      rewrite Z.div_mul by lia. simpl.
      by rewrite bool_decide_eq_true_2 by lia.
  - destruct (binary_round_safe true p) as (m & e & -> & He & Hm); [lia|].
    split; [by rewrite bool_decide_eq_true_2 by lia|].
    assert (integer_affinity (S754_finite true m e) = Int (Z.neg p)) as ->;
      [|done].
    unfold integer_affinity, float_to_Z.
    assert (Hpow : 0 < 2 ^ (- e)) by (apply Z.pow_pos_nonneg; lia).
    case_bool_decide as He0.
    + replace e with 0 in * by lia. simpl in Hm |- *.
      rewrite bool_decide_eq_true_2 by lia. f_equal. lia.
    + rewrite Hm, Z.mod_mul, bool_decide_eq_true_2 by lia.
      rewrite Z.div_mul by lia. simpl.
      by rewrite bool_decide_eq_true_2 by lia.
Qed.


Lemma js_le_zero_safe z :
  safe_integer z → js_le_zero (js_number (Int z)) = bool_decide (z ≤ 0).
Proof. intros Hz. by apply float_of_Z_safe. Qed.

(** SQL arithmetic on an INTEGER that stays within 64 bits is integer
    arithmetic. *)
Lemma sql_add_Int a d :
  - 2 ^ 63 ≤ a + d < 2 ^ 63 → sql_add (Int a) d = Int (a + d).
Proof. intros H. unfold sql_add. by rewrite bool_decide_eq_true_2. Qed.

(** The numbers of a row of INTEGERs. *)
Lemma seat_numbers_Int d a t :
  seat_numbers (mkWorkshop d (Int a) (Int t)) = Some (inject_Z a, inject_Z t).
Proof. done. Qed.

Lemma Qeq_inject_minus a t n :
  Qeq (inject_Z a) (Qminus (inject_Z t) (inject_Z n)) ↔ a = t - n.
Proof.
  unfold Qminus. rewrite <- inject_Z_opp, <- inject_Z_plus.
  rewrite inject_Z_injective. lia.
Qed.

(** ** Text comparison of timestamps *)

(** Against a string of digits, what follows the integer part of a
    number in its decimal notation (nothing, or a point and the fraction)
    does not change the result of the comparison. *)
Lemma text_lt_fraction (x frac n : string) :
  (frac = "" ∨ ∃ rest, frac = String Api.decimal_point rest) →
  Forall (λ c, Ascii.compare Api.decimal_point c = Lt)
         (String.list_ascii_of_string n) →
  Api.text_lt (x +:+ frac) n = Api.text_lt x n.
Proof.
  intros Hfrac. unfold Api.text_lt, String.ltb. revert n.
  induction x as [|c x IH]; intros n Hn.
  - destruct Hfrac as [->|[rest ->]]; [done|].
    destruct n as [|c n]; [done|].
    cbn [String.list_ascii_of_string] in Hn.
    apply Forall_cons in Hn as [Hc _].
    change ("" +:+ String Api.decimal_point rest)
      with (String Api.decimal_point rest).
    cbn [String.compare]. by rewrite Hc.
  - destruct n as [|c' n]; [done|].
    cbn [String.list_ascii_of_string] in Hn.
    apply Forall_cons in Hn as [_ Hn].
    change (String c x +:+ frac) with (String c (x +:+ frac)).
    cbn [String.compare].
    destruct (Ascii.compare c c'); try done. by apply IH.
Qed.

(** ** Seat ledger *)

Lemma transaction_reserve id r w s s' :
  transaction [insert_reservation id r; add_availableSeats (-1) w] s = Some s' →
  reservations s !! id = None ∧
  s' = set_workshops
         (alter (λ x, mkWorkshop (date x) (sql_add (availableSeats x) (-1))
                                 (totalSeats x)) w)
         (set_reservations (insert id r) s).
Proof.
  simpl. unfold insert_reservation.
  destruct (reservations s !! id) eqn:Hid; [done|].
  destruct (select_reservation _ _ s); [done|].
  simpl. by intros [= <-].
Qed.

Lemma transaction_cancel id w s s' :
  transaction [delete_reservation id; add_availableSeats 1 w] s = Some s' →
  s' = set_workshops
         (alter (λ x, mkWorkshop (date x) (sql_add (availableSeats x) 1)
                                 (totalSeats x)) w)
         (set_reservations (delete id) s).
Proof. simpl. by intros [= <-]. Qed.

Lemma active_reservations_insert id r s s' w :
  reservations s !! id = None →
  reservations s' = <[id:=r]> (reservations s) →
  active_reservations w s' =
  if decide (r_workshopId r = w) then S (active_reservations w s)
  else active_reservations w s.
Proof.
  intros Hid Hs'. unfold active_reservations. rewrite Hs'.
  rewrite (size_filter_insert_fresh (reserved_in w)) by done.
  unfold reserved_in. simpl. by repeat case_decide.
Qed.

Lemma active_reservations_delete id r s s' w :
  reservations s !! id = Some r →
  reservations s' = delete id (reservations s) →
  active_reservations w s =
  if decide (r_workshopId r = w) then S (active_reservations w s')
  else active_reservations w s'.
Proof.
  intros Hid Hs'. unfold active_reservations. rewrite Hs'.
  rewrite (size_filter_delete_present (reserved_in w) _ id r) by done.
  unfold reserved_in. simpl. by repeat case_decide.
Qed.





Lemma seat_equationb_spec w s : seat_equationb w s = true ↔ seat_equation w s.
Proof.
  unfold seat_equationb, seat_equation.
  destruct (workshops s !! w) as [ws|]; [|done].
  destruct (seat_numbers ws) as [[a t]|] eqn:Hn.
  - rewrite Qeq_bool_iff. split.
    + intros H ? [= <-]. by exists a, t.
    + intros H. destruct (H ws eq_refl) as (a' & t' & Hn' & Heq).
      rewrite Hn in Hn'. by injection Hn' as <- <-.
  - split; [done|]. intros H. destruct (H ws eq_refl) as (? & ? & Hn' & _).
    by rewrite Hn in Hn'.
Qed.

Lemma seat_boundsb_spec w s : seat_boundsb w s = true ↔ seat_bounds w s.
Proof.
  unfold seat_boundsb, seat_bounds.
  destruct (workshops s !! w) as [ws|]; [|done].
  destruct (seat_numbers ws) as [[a t]|] eqn:Hn.
  - rewrite andb_true_iff, !Qle_bool_iff. split.
    + intros H ? [= <-]. by exists a, t.
    + intros H. destruct (H ws eq_refl) as (a' & t' & Hn' & Heq).
      rewrite Hn in Hn'. by injection Hn' as <- <-.
  - split; [done|]. intros H. destruct (H ws eq_refl) as (? & ? & Hn' & _).
    by rewrite Hn in Hn'.
Qed.


Lemma seat_ledger_okb_spec w s : seat_ledger_okb w s = true ↔ seat_ledger_ok w s.
Proof.
  unfold seat_ledger_okb, seat_ledger_ok.
  by rewrite andb_true_iff, seat_boundsb_spec, seat_equationb_spec.
Qed.


(** Scenario A: one seat; Alice reserves it, Bob is answered "workshop
    full". *)
Example scenario_a :
  availableSeats <$>
    workshops (Api.post_reservations (env_at 1000 "" "") "alice" "W" one_seat).2
      !! "W" = Some (Int 0) ∧
  (Api.post_reservations (env_at 1001 "" "") "bob" "W"
     (Api.post_reservations (env_at 1000 "" "") "alice" "W" one_seat).2).1
  = Err E_workshop_full.
Proof. split; vm_compute; reflexivity. Qed.

(** Scenario D: Alice cancels, the seat is back, and she can reserve
    again. *)
Example scenario_d :
  availableSeats <$> workshops (Api.run (take 3 ledger_trace) one_seat) !! "W"
    = Some (Int 1) ∧
  is_success
    (Api.post_reservations (env_at 1003 "" "") "alice" "W"
       (Api.run (take 3 ledger_trace) one_seat)).1.
Proof. split; [vm_compute; reflexivity|vm_compute; exact I]. Qed.




(** The equation does not survive a Reserve on a row of REALs beyond
    2^63 either: for [totalSeats = 1e19] the Reserve succeeds and
    [availableSeats - 1] is the same double again. *)
Example huge_seats_not_decremented :
  seat_ledger_ok "1000" huge_workshop ∧
  is_success
    (Api.post_reservations (env_at 2000 "" "") "alice" "1000"
       huge_workshop).1 ∧
  workshops (Api.post_reservations (env_at 2000 "" "") "alice" "1000"
               huge_workshop).2 !! "1000"
    = workshops huge_workshop !! "1000" ∧
  active_reservations "1000"
    (Api.post_reservations (env_at 2000 "" "") "alice" "1000"
       huge_workshop).2 = 1%nat ∧
  seat_equationb "1000"
    (Api.post_reservations (env_at 2000 "" "") "alice" "1000"
       huge_workshop).2 = false.
Proof.
  split; [apply seat_ledger_okb_spec; vm_compute; reflexivity|].
  split; [vm_compute; exact I|].
  split; [vm_compute; reflexivity|].
  split; vm_compute; reflexivity.
Qed.

Lemma select_reservation_None u w s :
  select_reservation u w s = None ↔ ¬ has_reservation u w s.
Proof.
  unfold select_reservation, has_reservation.
  rewrite select_first_None. unfold reservation_of. simpl. split.
  - intros H (id & r & Hid & Hu & Hw). by apply (H id r).
  - intros H id r Hid [Hu Hw]. apply H. by exists id, r.
Qed.

Lemma select_reservation_Some u w s id r :
  select_reservation u w s = Some (id, r) →
  reservations s !! id = Some r ∧ r_userId r = u ∧ r_workshopId r = w.
Proof.
  unfold select_reservation. intros H%select_first_Some. exact H.
Qed.

Lemma has_reservation_select u w s :
  has_reservation u w s → is_Some (select_reservation u w s).
Proof.
  intros H. destruct (select_reservation u w s) eqn:Hs; [by eexists|].
  by apply select_reservation_None in Hs.
Qed.

(** C3, as amended: Cancel answers 404 "reservation not found" and
    changes nothing when the pair has no reservation; otherwise it deletes
    one reservation row of the pair and, in the same transaction, writes
    [availableSeats + 1] back as SQLite computes it, without any cap.
    The sum is exactly one more whenever the column holds an INTEGER
    below the largest 64-bit integer, as it does for every whole number
    of seats; the result is then within totalSeats whenever totalSeats
    is an INTEGER too and availableSeats was below it before. *)
Theorem cancel_deletes_and_increments (u w : string) (s : State) :
  truthy u = true → truthy w = true →
  (¬ has_reservation u w s →
     Api.delete_reservations u w s = (Err E_reservation_not_found, s) ∧
     kind E_reservation_not_found = NotFound) ∧
  (has_reservation u w s →
     ∃ id r s',
       Api.delete_reservations u w s
         = (Ok 200 (ReservationCancelled (workshops s' !! w)), s') ∧
       reservations s !! id = Some r ∧ r_userId r = u ∧ r_workshopId r = w ∧
       reservations s' = delete id (reservations s) ∧
       active_reservations w s = S (active_reservations w s') ∧
       (unique_reservations s → ¬ has_reservation u w s') ∧
       ∀ ws, workshops s !! w = Some ws →
         workshops s' !! w
           = Some (mkWorkshop (date ws) (sql_add (availableSeats ws) 1)
                              (totalSeats ws)) ∧
         (∀ a, availableSeats ws = Int a → - 2 ^ 63 ≤ a < 2 ^ 63 - 1 →
            sql_add (availableSeats ws) 1 = Int (a + 1) ∧
            ∀ t, totalSeats ws = Int t → a < t → a + 1 ≤ t)).
Proof.
  intros Hu Hw. unfold Api.delete_reservations. rewrite Hu, Hw.
  cbn [negb orb]. split.
  - intros Hno%select_reservation_None. by rewrite Hno.
  - intros Hhas. destruct (has_reservation_select u w s Hhas) as [[id r] Hsel].
    rewrite Hsel. cbn [fst].
    apply select_reservation_Some in Hsel as (Hid & Hru & Hrw).
    destruct (transaction _ s) as [s'|] eqn:Htx; [|done].
    apply transaction_cancel in Htx. exists id, r, s'.
    split; [reflexivity|]. subst s'.
    repeat split; try done.
    + match goal with |- context [S (active_reservations w ?s')] =>
        pose proof (active_reservations_delete id r s s' w Hid eq_refl) as Hc
      end. by rewrite decide_True in Hc.
    + intros Huniq (id2 & r2 & Hid2 & Hu2 & Hw2). simpl in Hid2.
      apply lookup_delete_Some in Hid2 as [Hne Hid2].
      apply Hne. apply (Huniq id id2 r r2); congruence.
    + simpl. by rewrite lookup_alter_eq, H.
    + rewrite H0. apply sql_add_Int. lia.
    + lia.
Qed.

Lemma cancel_deletes_and_increments_witness :
  truthy "alice" = true ∧ truthy "W" = true ∧
  has_reservation "alice" "W" full_with_reservation ∧
  ∃ id r s',
    Api.delete_reservations "alice" "W" full_with_reservation
      = (Ok 200 (ReservationCancelled (workshops s' !! "W")), s') ∧
    reservations full_with_reservation !! id = Some r ∧
    active_reservations "W" full_with_reservation
      = S (active_reservations "W" s').
Proof.
  assert (Hhas : has_reservation "alice" "W" full_with_reservation).
  { exists "r1", (mkReservation "alice" "W" 500). by vm_compute. }
  repeat split; [exact Hhas|].
  destruct (cancel_deletes_and_increments "alice" "W" full_with_reservation
              eq_refl eq_refl) as [_ H].
  destruct (H Hhas) as (id & r & s' & H1 & H2 & _ & _ & _ & H3 & _).
  exists id, r, s'. by repeat split.
Defined.

(** There is no cap: cancelling Alice's reservation on a row that already
    has [availableSeats = totalSeats = 1] leaves [availableSeats = 2]. *)
Lemma cancel_cap_counterexample :
  has_reservation "alice" "W" full_with_reservation ∧
  availableSeats <$> workshops full_with_reservation !! "W" = Some (Int 1) ∧
  availableSeats <$>
    workshops (Api.delete_reservations "alice" "W" full_with_reservation).2 !! "W"
    = Some (Int 2) ∧
  totalSeats <$>
    workshops (Api.delete_reservations "alice" "W" full_with_reservation).2 !! "W"
    = Some (Int 1) ∧
  ¬ cancel_capped "alice" "W" full_with_reservation.
Proof.
  split.
  { exists "r1", (mkReservation "alice" "W" 500). by vm_compute. }
  split; [vm_compute; reflexivity|].
  split; [vm_compute; reflexivity|].
  split; [vm_compute; reflexivity|].
  intros H.
  destruct (H (mkWorkshop None (Int 2) (Int 1))) as (a & t & Hn & Hle);
    [vm_compute; reflexivity|].
  rewrite seat_numbers_Int in Hn. injection Hn as <- <-.
  rewrite <- Zle_Qle in Hle. lia.
Qed.

(** ** Check-in: reading the attendance table *)

Lemma select_attendance_None u w s :
  select_attendance u w s = None ↔ ¬ has_attendance u w s.
Proof.
  unfold select_attendance, has_attendance.
  rewrite select_first_None. unfold attendance_of. simpl. split.
  - intros H (id & a & Hid & Hu & Hw). by apply (H id a).
  - intros H id a Hid [Hu Hw]. apply H. by exists id, a.
Qed.

Lemma has_attendance_select u w s :
  has_attendance u w s → is_Some (select_attendance u w s).
Proof.
  intros H. destruct (select_attendance u w s) eqn:Hs; [by eexists|].
  by apply select_attendance_None in Hs.
Qed.

Lemma select_attendance_has u w s x :
  select_attendance u w s = Some x → has_attendance u w s.
Proof.
  intros Hs. destruct (decide (has_attendance u w s)) as [|Hn]; [done|].
  apply select_attendance_None in Hn. congruence.
Qed.

Lemma select_reservation_has u w s x :
  select_reservation u w s = Some x → has_reservation u w s.
Proof.
  destruct x as [id r]. intros (? & ? & ?)%select_reservation_Some.
  by exists id, r.
Qed.

Lemma insert_attendance_Some id a s s' :
  insert_attendance id a s = Some s' ↔
  attendance s !! id = None ∧
  ¬ has_attendance (a_userId a) (a_workshopId a) s ∧
  s' = set_attendance (insert id a) s.
Proof.
  unfold insert_attendance.
  destruct (attendance s !! id) eqn:Hid.
  { split; [done|]. by intros [? _]. }
  destruct (select_attendance _ _ s) eqn:Hsel.
  - split; [done|]. intros (_ & Hn & _).
    by apply select_attendance_has in Hsel.
  - apply select_attendance_None in Hsel. split.
    + by intros [= <-].
    + by intros (_ & _ & ->).
Qed.

Lemma select_qr_token_Some token w s q :
  Api.select_qr_token token w s = Some q ↔
  qr_tokens s !! token = Some q ∧ q_workshopId q = w.
Proof.
  unfold Api.select_qr_token. destruct (qr_tokens s !! token) as [q'|].
  - case_bool_decide; split.
    + by intros [= <-].
    + by intros [[= <-] _].
    + done.
    + intros [[= <-] ?]. done.
  - split; [done|]. by intros [? _].
Qed.

Lemma insert_qr_token_Some token w c x s s' :
  insert_qr_token token w c x s = Some s' ↔
  qr_tokens s !! token = None ∧
  s' = set_qr_tokens (insert token (mkQrRow w c x false)) s.
Proof.
  unfold insert_qr_token. destruct (qr_tokens s !! token).
  - split; [done|]. by intros [? _].
  - split; [by intros [= <-]|by intros [_ ->]].
Qed.

Lemma transaction_check_in id a token s s' :
  transaction [insert_attendance id a; mark_used token] s = Some s' ↔
  attendance s !! id = None ∧
  ¬ has_attendance (a_userId a) (a_workshopId a) s ∧
  s' = set_qr_tokens (alter used_row token) (set_attendance (insert id a) s).
Proof.
  simpl. destruct (insert_attendance id a s) as [s1|] eqn:Hins.
  - apply insert_attendance_Some in Hins as (Hid & Hno & ->).
    unfold mark_used. split.
    + by intros [= <-].
    + by intros (_ & _ & ->).
  - split; [done|]. intros (Hid & Hno & _).
    assert (is_Some (insert_attendance id a s)) as [? ?]; [|congruence].
    eexists. by apply insert_attendance_Some.
Qed.

(** ** POST /qr/validate-workshop, branch by branch *)

Section validate_workshop.
Context (e : Env) (token w u : string) (s : State).
Local Abbreviation r := (Api.post_qr_validate_workshop e token w u s).

Lemma validate_workshop_missing_field :
  truthy token && truthy w && truthy u = false →
  r = (Err E_validate_workshop_required, s).
Proof.
  unfold Api.post_qr_validate_workshop.
  destruct (truthy token), (truthy w), (truthy u); simpl; done.
Qed.

Lemma validate_workshop_unknown_user :
  truthy token = true → truthy w = true → truthy u = true →
  users s !! u = None →
  r = (Err E_user_not_found, s).
Proof.
  unfold Api.post_qr_validate_workshop.
  intros -> -> -> ->. done.
Qed.

Section known_user.
Context (user : User).
Hypothesis (Htoken : truthy token = true) (Hw : truthy w = true)
           (Hu : truthy u = true) (Huser : users s !! u = Some user).

Lemma validate_workshop_no_reservation :
  ¬ has_reservation u w s →
  r = (Err E_no_reservation_for_workshop, s).
Proof.
  unfold Api.post_qr_validate_workshop.
  rewrite Htoken, Hw, Hu, Huser. cbn [negb orb].
  intros Hno%select_reservation_None. by rewrite Hno.
Qed.

Section reserved.
Hypothesis (Hres : has_reservation u w s).

Lemma validate_workshop_after_reservation :
  r = match Api.select_qr_token token w s with
      | None => (Err E_invalid_qr_token, s)
      | Some qrData =>
          if q_used qrData then (Err E_qr_already_used, s)
          else if bool_decide (q_expiresAt qrData < now e)
          then (Err E_qr_expired, set_qr_tokens (delete token) s)
          else
            match select_attendance u w s with
            | Some _ => (Err E_already_checked_in_workshop, s)
            | None =>
                match transaction
                        [insert_attendance (randomUUID e)
                           (mkAttendance u w (now e));
                         mark_used token] s with
                | None => (Threw, s)
                | Some _ =>
                    let s3 := committed_check_in e token w u user s in
                    match qr_tokens s3 !! randomBytes e with
                    | Some _ => (Threw, s3)
                    | None =>
                        (Ok 200 (CheckedInWorkshop u w (now e) (randomBytes e)
                                   (now e + random_ms e + 10000)),
                         rotated_check_in e token w u user s)
                    end
                end
            end
      end.
Proof.
  unfold Api.post_qr_validate_workshop.
  rewrite Htoken, Hw, Hu, Huser. cbn [negb orb].
  destruct (has_reservation_select u w s Hres) as [x ->].
  destruct (Api.select_qr_token token w s) as [q|]; [|done].
  destruct (q_used q); [done|].
  case_bool_decide; [done|].
  destruct (select_attendance u w s); [done|].
  destruct (transaction _ s) as [s1|] eqn:Htx; [|done].
  apply transaction_check_in in Htx as (_ & _ & ->).
  fold (committed_check_in e token w u user s).
  unfold insert_qr_token.
  by destruct (qr_tokens (committed_check_in e token w u user s) !! randomBytes e).
Qed.

Lemma validate_workshop_invalid_token :
  (∀ q, qr_tokens s !! token = Some q → q_workshopId q ≠ w) →
  r = (Err E_invalid_qr_token, s).
Proof.
  intros Hno. rewrite validate_workshop_after_reservation.
  destruct (Api.select_qr_token token w s) as [q|] eqn:Hsel; [|done].
  apply select_qr_token_Some in Hsel as [Hq Hqw]. by destruct (Hno q Hq).
Qed.

Section known_token.
Context (q : QrRow).
Hypothesis (Hq : qr_tokens s !! token = Some q) (Hqw : q_workshopId q = w).

Lemma validate_workshop_used :
  q_used q = true → r = (Err E_qr_already_used, s).
Proof.
  intros Hused. rewrite validate_workshop_after_reservation.
  rewrite (proj2 (select_qr_token_Some token w s q)) by done.
  by rewrite Hused.
Qed.

Lemma validate_workshop_expired :
  q_used q = false → q_expiresAt q < now e →
  r = (Err E_qr_expired, set_qr_tokens (delete token) s).
Proof.
  intros Hused Hexp. rewrite validate_workshop_after_reservation.
  rewrite (proj2 (select_qr_token_Some token w s q)) by done.
  rewrite Hused. by rewrite bool_decide_eq_true_2.
Qed.

Lemma validate_workshop_already_checked_in :
  q_used q = false → ¬ q_expiresAt q < now e → has_attendance u w s →
  r = (Err E_already_checked_in_workshop, s).
Proof.
  intros Hused Hexp Hatt. rewrite validate_workshop_after_reservation.
  rewrite (proj2 (select_qr_token_Some token w s q)) by done.
  rewrite Hused. rewrite bool_decide_eq_false_2 by done.
  by destruct (has_attendance_select u w s Hatt) as [x ->].
Qed.

Lemma validate_workshop_fresh :
  q_used q = false → ¬ q_expiresAt q < now e → ¬ has_attendance u w s →
  r = match attendance s !! randomUUID e with
      | Some _ => (Threw, s)
      | None =>
          let s3 := committed_check_in e token w u user s in
          match qr_tokens s3 !! randomBytes e with
          | Some _ => (Threw, s3)
          | None =>
              (Ok 200 (CheckedInWorkshop u w (now e) (randomBytes e)
                         (now e + random_ms e + 10000)),
               rotated_check_in e token w u user s)
          end
      end.
Proof.
  intros Hused Hexp Hatt. rewrite validate_workshop_after_reservation.
  rewrite (proj2 (select_qr_token_Some token w s q)) by done.
  rewrite Hused. rewrite bool_decide_eq_false_2 by done.
  rewrite (proj2 (select_attendance_None u w s)) by done.
  destruct (transaction _ s) as [s1|] eqn:Htx.
  - apply transaction_check_in in Htx as (-> & _ & _). done.
  - destruct (attendance s !! randomUUID e) eqn:Hid; [done|].
    assert (is_Some (transaction
              [insert_attendance (randomUUID e) (mkAttendance u w (now e));
               mark_used token] s)) as [? ?]; [|congruence].
    eexists. apply transaction_check_in. done.
Qed.

End known_token.
End reserved.
End known_user.
End validate_workshop.

Lemma committed_check_in_fields e token w u user s :
  let s3 := committed_check_in e token w u user s in
  users s3 = users s ∧ workshops s3 = workshops s ∧
  reservations s3 = reservations s ∧
  attendance s3 = <[randomUUID e := mkAttendance u w (now e)]> (attendance s) ∧
  qr_tokens s3 = alter used_row token (qr_tokens s) ∧
  qrTokens s3 = qrTokens s ∧ sseClients s3 = sseClients s ∧
  wire s3 = wire s
            ++ broadcast "attendance"
                 (AttendanceData (eventUUID e) u (name user) (email user) w (now e))
                 (sseClients s)
            ++ broadcast "qr_used"
                 (QrUsedData w (name user) (randomBytes e)
                             (now e + random_ms e + 10000))
                 (sseClients s).
Proof.
  unfold committed_check_in, broadcastEvent, broadcast. simpl.
  repeat split. by rewrite <- app_assoc.
Qed.

Lemma token_marked_used_alter token s q :
  qr_tokens s !! token = Some q →
  ∃ q', alter used_row token (qr_tokens s) !! token = Some q' ∧ q_used q' = true.
Proof.
  intros Hq. exists (used_row q). by rewrite lookup_alter_eq, Hq.
Qed.

Lemma check_in_applied_committed e token w u user s q :
  attendance s !! randomUUID e = None →
  qr_tokens s !! token = Some q → q_used q = false →
  check_in_applied e token w u s (committed_check_in e token w u user s).
Proof.
  intros Hid Hq Hused.
  destruct (committed_check_in_fields e token w u user s)
    as (_ & _ & _ & Hatt & Hqr & _).
  destruct (token_marked_used_alter token s q Hq) as (q' & Hq' & Hused').
  split; [done|]. split; [done|]. split; [by exists q|].
  exists q'. by rewrite Hqr.
Qed.

Lemma check_in_applied_rotated e token w u user s q :
  attendance s !! randomUUID e = None →
  qr_tokens s !! token = Some q → q_used q = false →
  qr_tokens (committed_check_in e token w u user s) !! randomBytes e = None →
  check_in_applied e token w u s (rotated_check_in e token w u user s).
Proof.
  intros Hid Hq Hused Hfresh.
  destruct (check_in_applied_committed e token w u user s q Hid Hq Hused)
    as (_ & Hatt & _ & q' & Hq' & Hused').
  unfold rotated_check_in.
  split; [done|]. split; [done|]. split; [by exists q|].
  exists q'. split; [|done]. simpl.
  rewrite lookup_insert_ne; [done|]. intros Heq. rewrite Heq in Hfresh. congruence.
Qed.

(** C10: whatever POST /qr/validate-workshop answers, the state it leaves
    has either both changes of its transaction (the attendance row of the
    request is inserted and the presented token, unused before, is marked
    used) or neither (the attendance table is untouched and the token's
    row is not modified), and the second case is always a failure. *)
Theorem check_in_transaction_atomic (e : Env) (token w u : string) (s : State) :
  check_in_applied e token w u s
    (Api.post_qr_validate_workshop e token w u s).2
  ∨ (is_failure (Api.post_qr_validate_workshop e token w u s).1 ∧
     check_in_not_applied token s
       (Api.post_qr_validate_workshop e token w u s).2).
Proof.
  assert (Hsame : ∀ err,
    Api.post_qr_validate_workshop e token w u s = (Err err, s) ∨
    Api.post_qr_validate_workshop e token w u s = (Threw, s) →
    is_failure (Api.post_qr_validate_workshop e token w u s).1 ∧
    check_in_not_applied token s (Api.post_qr_validate_workshop e token w u s).2).
  { intros err [-> | ->]; by repeat split. }
  destruct (truthy token && truthy w && truthy u) eqn:Hfields.
  2: { right. apply (Hsame E_validate_workshop_required). left.
       by apply validate_workshop_missing_field. }
  apply andb_true_iff in Hfields as [[Ht Hw]%andb_true_iff Hu].
  destruct (users s !! u) as [user|] eqn:Huser.
  2: { right. apply (Hsame E_user_not_found). left.
       by apply validate_workshop_unknown_user. }
  destruct (decide (has_reservation u w s)) as [Hres|Hres].
  2: { right. apply (Hsame E_no_reservation_for_workshop). left.
       by eapply validate_workshop_no_reservation. }
  rewrite (validate_workshop_after_reservation e token w u s user) by done.
  destruct (Api.select_qr_token token w s) as [q|] eqn:Hsel.
  2: { right. by repeat split. }
  apply select_qr_token_Some in Hsel as [Hq Hqw].
  destruct (q_used q) eqn:Hused; [right; by repeat split|].
  case_bool_decide.
  { right. split; [done|]. split; [done|]. simpl. intros q' Hq'.
    by rewrite lookup_delete_eq in Hq'. }
  destruct (select_attendance u w s); [right; by repeat split|].
  destruct (transaction _ s) as [s1|] eqn:Htx; [|right; by repeat split].
  apply transaction_check_in in Htx as (Hid & _ & _). left.
  cbn zeta.
  destruct (qr_tokens (committed_check_in e token w u user s) !! randomBytes e)
    eqn:Hfresh; cbn [snd].
  - by eapply check_in_applied_committed.
  - by eapply check_in_applied_rotated.
Qed.

Lemma validate_workshop_success_inv e token w u s code body s' :
  Api.post_qr_validate_workshop e token w u s = (Ok code body, s') →
  ∃ user q,
    users s !! u = Some user ∧ has_reservation u w s ∧
    qr_tokens s !! token = Some q ∧ q_workshopId q = w ∧
    q_used q = false ∧ ¬ q_expiresAt q < now e ∧
    ¬ has_attendance u w s ∧ attendance s !! randomUUID e = None ∧
    qr_tokens (committed_check_in e token w u user s) !! randomBytes e = None ∧
    code = 200 ∧
    body = CheckedInWorkshop u w (now e) (randomBytes e)
             (now e + random_ms e + 10000) ∧
    s' = rotated_check_in e token w u user s.
Proof.
  destruct (truthy token && truthy w && truthy u) eqn:Hfields.
  2: { by rewrite validate_workshop_missing_field. }
  apply andb_true_iff in Hfields as [[Ht Hw]%andb_true_iff Hu].
  destruct (users s !! u) as [user|] eqn:Huser.
  2: { by rewrite validate_workshop_unknown_user. }
  destruct (decide (has_reservation u w s)) as [Hres|Hres].
  2: { by rewrite (validate_workshop_no_reservation e token w u s user). }
  rewrite (validate_workshop_after_reservation e token w u s user) by done.
  destruct (Api.select_qr_token token w s) as [q|] eqn:Hsel; [|done].
  apply select_qr_token_Some in Hsel as [Hq Hqw].
  destruct (q_used q) eqn:Hused; [done|].
  case_bool_decide as Hexp; [done|].
  destruct (select_attendance u w s) eqn:Hatt; [done|].
  apply select_attendance_None in Hatt.
  destruct (transaction _ s) as [s1|] eqn:Htx; [|done].
  apply transaction_check_in in Htx as (Hid & _ & _). cbn zeta.
  destruct (qr_tokens (committed_check_in e token w u user s) !! randomBytes e)
    eqn:Hfresh; [done|].
  intros [= <- <- <-]. exists user, q. done.
Qed.

(** ** Token checks of the workshop-scoped check-in *)

(** C2, as amended: for a request that passed the field, user and
    reservation checks, POST /qr/validate-workshop answers
    "Invalid QR token for this workshop" for an unknown token or one of
    another workshop; else "QR token already used" when the stored flag
    is set (expired or not); else "QR token expired" when
    [expiresAt < now], deleting the row; else, when the pair already has an
    attendance record, "Already checked in for this workshop", leaving
    the token unused; else it records the attendance and marks the token
    used (and answers 200 when the rotated token is a new key). *)
Theorem consume_checks_in_order (e : Env) (token w u : string) (s : State)
    (user : User) :
  truthy token = true → truthy w = true → truthy u = true →
  users s !! u = Some user →
  has_reservation u w s →
  ((∀ q, qr_tokens s !! token = Some q → q_workshopId q ≠ w) →
     Api.post_qr_validate_workshop e token w u s = (Err E_invalid_qr_token, s) ∧
     kind E_invalid_qr_token = InvalidToken) ∧
  (∀ q, qr_tokens s !! token = Some q → q_workshopId q = w →
     (q_used q = true →
        Api.post_qr_validate_workshop e token w u s = (Err E_qr_already_used, s) ∧
        kind E_qr_already_used = AlreadyUsed) ∧
     (q_used q = false → q_expiresAt q < now e →
        Api.post_qr_validate_workshop e token w u s
          = (Err E_qr_expired, set_qr_tokens (delete token) s) ∧
        kind E_qr_expired = TokenExpired ∧
        qr_tokens (Api.post_qr_validate_workshop e token w u s).2 !! token = None) ∧
     (q_used q = false → ¬ q_expiresAt q < now e → has_attendance u w s →
        Api.post_qr_validate_workshop e token w u s
          = (Err E_already_checked_in_workshop, s)) ∧
     (q_used q = false → ¬ q_expiresAt q < now e → ¬ has_attendance u w s →
      attendance s !! randomUUID e = None →
        token_marked_used token (Api.post_qr_validate_workshop e token w u s).2 ∧
        has_attendance u w (Api.post_qr_validate_workshop e token w u s).2 ∧
        (qr_tokens s !! randomBytes e = None →
           is_success (Api.post_qr_validate_workshop e token w u s).1))).
Proof.
  intros Ht Hw Hu Huser Hres. split.
  { intros Hno. split; [|done]. by eapply validate_workshop_invalid_token. }
  intros q Hq Hqw. split; [|split; [|split]].
  - intros Hused. split; [|done]. by eapply validate_workshop_used.
  - intros Hused Hexp.
    rewrite (validate_workshop_expired e token w u s user Ht Hw Hu Huser Hres q)
      by done.
    repeat split. simpl. apply lookup_delete_eq.
  - intros Hused Hexp Hatt. by eapply validate_workshop_already_checked_in.
  - intros Hused Hexp Hatt Hid.
    rewrite (validate_workshop_fresh e token w u s user Ht Hw Hu Huser Hres q)
      by done.
    rewrite Hid. cbn zeta.
    pose proof (check_in_applied_committed e token w u user s q Hid Hq Hused)
      as Hc.
    destruct (committed_check_in_fields e token w u user s)
      as (_ & _ & _ & Hatt' & Hqr & _).
    destruct (qr_tokens (committed_check_in e token w u user s) !! randomBytes e)
      eqn:Hfresh; cbn [fst snd].
    + destruct Hc as (_ & Ha & _ & Hm). split; [done|]. split.
      * exists (randomUUID e), (mkAttendance u w (now e)).
        rewrite Ha, lookup_insert_eq. done.
      * intros Hnew. exfalso. rewrite Hqr in Hfresh.
        assert (Hne : token ≠ randomBytes e).
        { intros Heq. rewrite <- Heq in Hnew. congruence. }
        rewrite lookup_alter_ne in Hfresh by done. congruence.
    + pose proof (check_in_applied_rotated e token w u user s q Hid Hq Hused Hfresh)
        as (_ & Ha & _ & Hm).
      split; [done|]. split; [|done].
      exists (randomUUID e), (mkAttendance u w (now e)).
      rewrite Ha, lookup_insert_eq. done.
Qed.

Lemma consume_checks_in_order_witness :
  truthy "T" = true ∧ truthy "W" = true ∧ truthy "bob" = true ∧
  users scan_state !! "bob" = Some bob ∧
  has_reservation "bob" "W" scan_state ∧
  token_marked_used "T"
    (Api.post_qr_validate_workshop scan_env "T" "W" "bob" scan_state).2 ∧
  is_success (Api.post_qr_validate_workshop scan_env "T" "W" "bob" scan_state).1.
Proof.
  assert (Hres : has_reservation "bob" "W" scan_state).
  { exists "r2", (mkReservation "bob" "W" 600). by vm_compute. }
  assert (Hatt : ¬ has_attendance "bob" "W" scan_state).
  { apply select_attendance_None. vm_compute. reflexivity. }
  destruct (consume_checks_in_order scan_env "T" "W" "bob" scan_state bob
              eq_refl eq_refl eq_refl eq_refl Hres) as [_ H].
  destruct (H (mkQrRow "W" 1000 20000 false) eq_refl eq_refl)
    as (_ & _ & _ & Hok).
  assert (Hexp : ¬ 20000 < now scan_env) by (vm_compute; discriminate).
  destruct (Hok eq_refl Hexp Hatt eq_refl) as (Hm & _ & Hs).
  exact (conj eq_refl (conj eq_refl (conj eq_refl (conj eq_refl
           (conj Hres (conj Hm (Hs eq_refl))))))).
Defined.

(** A known, unused, unexpired token of the right workshop is not always
    consumed: presented by Alice, who has a reservation and has already
    checked in, it yields "Already checked in for this workshop" and its
    row stays unused. *)
Lemma consume_not_marked_counterexample :
  users scan_state !! "alice" = Some alice ∧
  has_reservation "alice" "W" scan_state ∧
  qr_tokens scan_state !! "T" = Some (mkQrRow "W" 1000 20000 false) ∧
  ¬ (20000 < now scan_env) ∧
  Api.post_qr_validate_workshop scan_env "T" "W" "alice" scan_state
    = (Err E_already_checked_in_workshop, scan_state) ∧
  ¬ is_success
      (Api.post_qr_validate_workshop scan_env "T" "W" "alice" scan_state).1 ∧
  ¬ token_marked_used "T"
      (Api.post_qr_validate_workshop scan_env "T" "W" "alice" scan_state).2.
Proof.
  assert (Hr : Api.post_qr_validate_workshop scan_env "T" "W" "alice" scan_state
               = (Err E_already_checked_in_workshop, scan_state))
    by (vm_compute; reflexivity).
  split; [reflexivity|].
  split; [exists "r1", (mkReservation "alice" "W" 500); by vm_compute|].
  split; [reflexivity|].
  split; [vm_compute; discriminate|].
  split; [exact Hr|]. rewrite Hr. split; [simpl; tauto|].
  intros (q & Hq & Hused). vm_compute in Hq. injection Hq as <-. discriminate.
Qed.

(** ** Rotation after a workshop-scoped check-in *)

(** C9, as amended: every successful POST /qr/validate-workshop stores a
    new unused token for the same workshop (the one it returns, expiring
    10 to 30 s later) and writes to every subscriber an "attendance"
    message followed by a message whose event kind is "qr_used", carrying
    the new token. *)
Theorem check_in_rotates_token (e : Env) (token w u : string) (s s' : State)
    (code : Z) (body : Reply) :
  Api.post_qr_validate_workshop e token w u s = (Ok code body, s') →
  ∃ user,
    users s !! u = Some user ∧
    body = CheckedInWorkshop u w (now e) (randomBytes e)
             (now e + random_ms e + 10000) ∧
    qr_tokens s !! randomBytes e = None ∧
    qr_tokens s' !! randomBytes e
      = Some (mkQrRow w (now e) (now e + random_ms e + 10000) false) ∧
    wire s' = wire s
              ++ broadcast "attendance"
                   (AttendanceData (eventUUID e) u (name user) (email user)
                                   w (now e))
                   (sseClients s)
              ++ broadcast "qr_used"
                   (QrUsedData w (name user) (randomBytes e)
                               (now e + random_ms e + 10000))
                   (sseClients s).
Proof.
  intros (user & q & Huser & _ & Hq & _ & _ & _ & _ & _ & Hfresh & _ & -> & ->)
    %validate_workshop_success_inv.
  destruct (committed_check_in_fields e token w u user s)
    as (_ & _ & _ & _ & Hqr & _ & _ & Hwire).
  exists user. split; [done|]. split; [done|]. split.
  { rewrite Hqr in Hfresh.
    destruct (decide (token = randomBytes e)) as [Heq|Hne].
    - rewrite <- Heq, lookup_alter_eq, Hq in Hfresh. done.
    - by rewrite lookup_alter_ne in Hfresh. }
  split.
  - unfold rotated_check_in. simpl. apply lookup_insert_eq.
  - unfold rotated_check_in. exact Hwire.
Qed.

Lemma check_in_rotates_token_witness :
  ∃ s',
    Api.post_qr_validate_workshop scan_env "T" "W" "bob" scan_state
      = (Ok 200 (CheckedInWorkshop "bob" "W" 5000 "N" 20000), s') ∧
    qr_tokens s' !! "N" = Some (mkQrRow "W" 5000 20000 false) ∧
    wire s' = [ (7%nat, mkSse "attendance"
                          (AttendanceData "uuid-2" "bob" "Bob" "bob@example.org"
                                          "W" 5000));
                (7%nat, mkSse "qr_used" (QrUsedData "W" "Bob" "N" 20000)) ].
Proof.
  exists (Api.post_qr_validate_workshop scan_env "T" "W" "bob" scan_state).2.
  assert (Hr : Api.post_qr_validate_workshop scan_env "T" "W" "bob" scan_state
               = (Ok 200 (CheckedInWorkshop "bob" "W" 5000 "N" 20000),
                  (Api.post_qr_validate_workshop scan_env "T" "W" "bob"
                     scan_state).2))
    by (vm_compute; reflexivity).
  destruct (check_in_rotates_token scan_env "T" "W" "bob" scan_state _ _ _ Hr)
    as (user & Huser & _ & _ & Hnew & Hwire).
  injection Huser as <-.
  exact (conj Hr (conj Hnew Hwire)).
Defined.

(** No event of kind "token_rotated" is ever written: after Bob's
    successful check-in the subscriber has received exactly an
    "attendance" and a "qr_used" message. *)
Lemma token_rotated_counterexample :
  is_success (Api.post_qr_validate_workshop scan_env "T" "W" "bob" scan_state).1 ∧
  sseClients scan_state = [7%nat] ∧
  map (λ m, event m.2)
      (wire (Api.post_qr_validate_workshop scan_env "T" "W" "bob" scan_state).2)
    = ["attendance"; "qr_used"] ∧
  ¬ published "token_rotated"
      (Api.post_qr_validate_workshop scan_env "T" "W" "bob" scan_state).2.
Proof.
  split; [vm_compute; exact I|]. split; [reflexivity|].
  split; [vm_compute; reflexivity|].
  intros (c & d & Hin).
  assert (Hev : "token_rotated" ∈
            map (λ m : nat * SseMessage, event m.2)
                (wire (Api.post_qr_validate_workshop scan_env "T" "W" "bob"
                         scan_state).2)).
  { apply list_elem_of_fmap. exists (c, mkSse "token_rotated" d). done. }
  vm_compute in Hev.
  apply elem_of_cons in Hev as [Hev|Hev]; [discriminate|].
  apply elem_of_cons in Hev as [Hev|Hev]; [discriminate|].
  by apply elem_of_nil in Hev.
Qed.

(** ** The user-scoped check-in *)

Lemma validate_user_token_branches unknown e token s :
  validate_user_token unknown e token s =
  if negb (truthy token) then (Err E_token_required, s)
  else
    match qrTokens s !! token with
    | None => (Err unknown, s)
    | Some tokenData =>
        if bool_decide (t_expiresAt tokenData < now e)
        then (Err E_token_expired, set_qrTokens (delete token) s)
        else
          let userId := t_userId tokenData in
          let workshopId := t_workshopId tokenData in
          match users s !! userId with
          | None => (Err E_user_not_found, s)
          | Some user =>
              match select_attendance userId workshopId s with
              | Some _ =>
                  (Err E_already_checked_in, set_qrTokens (delete token) s)
              | None =>
                  let attendanceId := pretty (now e) in
                  let checkedInAt := now e in
                  match insert_attendance attendanceId
                          (mkAttendance userId workshopId checkedInAt) s with
                  | None => (Threw, s)
                  | Some s1 =>
                      let s2 := set_qrTokens (delete token) s1 in
                      let s3 := broadcastEvent "attendance"
                                  (AttendanceData attendanceId userId (name user)
                                     (email user) workshopId checkedInAt) s2 in
                      (Ok 200 (CheckedIn userId workshopId checkedInAt), s3)
                  end
              end
          end
    end.
Proof.
  unfold validate_user_token.
  destruct (negb (truthy token)); [done|].
  destruct (qrTokens s !! token) as [td|]; [|done].
  case_bool_decide; [done|]. cbn zeta.
  destruct (users s !! t_userId td) as [user|]; [|done].
  destruct (select_attendance (t_userId td) (t_workshopId td) s) eqn:Hsel.
  - apply select_attendance_has in Hsel. by rewrite bool_decide_eq_true_2.
  - apply select_attendance_None in Hsel.
    rewrite bool_decide_eq_false_2 by done.
    destruct (insert_attendance _ _ s) as [s1|] eqn:Hins.
    + apply insert_attendance_Some in Hins as (-> & _ & ->). done.
    + destruct (attendance s !! pretty (now e)) eqn:Hid; [done|].
      assert (is_Some (insert_attendance (pretty (now e))
                (mkAttendance (t_userId td) (t_workshopId td) (now e)) s))
        as [? ?]; [|congruence].
      eexists. by apply insert_attendance_Some.
Qed.

Lemma api_validate_user_token e token s :
  Api.post_qr_validate e token s
  = validate_user_token E_invalid_token_format e token s.
Proof.
  rewrite validate_user_token_branches. unfold Api.post_qr_validate.
  destruct (negb (truthy token)); [done|].
  by destruct (qrTokens s !! token).
Qed.

Lemma server_index_validate_user_token e token s :
  ServerIndex.post_qr_validate e token s
  = validate_user_token E_invalid_or_expired_token e token s.
Proof.
  rewrite validate_user_token_branches. unfold ServerIndex.post_qr_validate.
  destruct (negb (truthy token)); [done|].
  by destruct (qrTokens s !! token).
Qed.

(** A token the Map does not hold is answered with [unknown] and nothing
    changes. *)
Lemma validate_user_token_gone unknown e token s :
  truthy token = true → qrTokens s !! token = None →
  validate_user_token unknown e token s = (Err unknown, s).
Proof.
  intros Ht Hnone. unfold validate_user_token. by rewrite Ht, Hnone.
Qed.

(** After "Already checked in" and after a success alike, the token has
    left the Map. *)
Lemma validate_user_token_consumed unknown e token s :
  unknown ≠ E_already_checked_in →
  (validate_user_token unknown e token s).1 = Err E_already_checked_in ∨
  is_success (validate_user_token unknown e token s).1 →
  truthy token = true ∧
  qrTokens (validate_user_token unknown e token s).2 !! token = None.
Proof.
  intros Hunk. unfold validate_user_token.
  destruct (truthy token); cbn [negb]; [|intros [?|?]; done].
  destruct (qrTokens s !! token) as [td|].
  2: { intros [[= ?]|?]; done. }
  case_bool_decide; [intros [?|?]; done|].
  destruct (users s !! t_userId td); [|intros [?|?]; done].
  case_bool_decide.
  { intros _. split; [done|]. simpl. apply lookup_delete_eq. }
  destruct (attendance s !! pretty (now e)); [intros [?|?]; done|].
  intros _. split; [done|]. simpl. apply lookup_delete_eq.
Qed.

(** C6, as amended: after a successful user-scoped check-in with token T,
    presenting T again fails with the handler's answer to an unknown
    token ("Invalid token format..." in the later server, "Invalid or
    expired token" in [src/server/index.js]), of kind InvalidToken, and
    changes nothing: the token was deleted on success. *)
Theorem replay_fails_invalid_token (e e' : Env) (token : string) (s : State) :
  (is_success (Api.post_qr_validate e token s).1 →
     qrTokens (Api.post_qr_validate e token s).2 !! token = None ∧
     Api.post_qr_validate e' token (Api.post_qr_validate e token s).2
       = (Err E_invalid_token_format, (Api.post_qr_validate e token s).2) ∧
     kind E_invalid_token_format = InvalidToken) ∧
  (is_success (ServerIndex.post_qr_validate e token s).1 →
     qrTokens (ServerIndex.post_qr_validate e token s).2 !! token = None ∧
     ServerIndex.post_qr_validate e' token (ServerIndex.post_qr_validate e token s).2
       = (Err E_invalid_or_expired_token,
          (ServerIndex.post_qr_validate e token s).2) ∧
     kind E_invalid_or_expired_token = InvalidToken).
Proof.
  split; intros Hok.
  - rewrite !api_validate_user_token in *.
    destruct (validate_user_token_consumed E_invalid_token_format e token s)
      as [Ht Hgone]; [done|by right|].
    split; [done|]. split; [|done]. by apply validate_user_token_gone.
  - rewrite !server_index_validate_user_token in *.
    destruct (validate_user_token_consumed E_invalid_or_expired_token e token s)
      as [Ht Hgone]; [done|by right|].
    split; [done|]. split; [|done]. by apply validate_user_token_gone.
Qed.

Lemma replay_fails_invalid_token_witness :
  is_success (Api.post_qr_validate (env_at 3000 "" "") "TA" scenario_b_issued).1 ∧
  Api.post_qr_validate (env_at 4000 "" "") "TA"
    (Api.post_qr_validate (env_at 3000 "" "") "TA" scenario_b_issued).2
  = (Err E_invalid_token_format,
     (Api.post_qr_validate (env_at 3000 "" "") "TA" scenario_b_issued).2).
Proof.
  assert (Hok : is_success
            (Api.post_qr_validate (env_at 3000 "" "") "TA" scenario_b_issued).1)
    by (vm_compute; exact I).
  split; [exact Hok|].
  exact (proj1 (proj2 (proj1 (replay_fails_invalid_token (env_at 3000 "" "")
                         (env_at 4000 "" "") "TA" scenario_b_issued) Hok))).
Defined.

(** Scenario B on both servers: the replay is answered with a failure of
    kind InvalidToken, which is neither AlreadyUsed nor
    AlreadyCheckedIn. *)
Lemma replay_kind_counterexample :
  has_reservation "alice" "W" scenario_b_issued ∧
  is_success (Api.post_qr_validate (env_at 3000 "" "") "TA" scenario_b_issued).1 ∧
  has_attendance "alice" "W"
    (Api.post_qr_validate (env_at 3000 "" "") "TA" scenario_b_issued).2 ∧
  failure_kind
    (Api.post_qr_validate (env_at 4000 "" "") "TA"
       (Api.post_qr_validate (env_at 3000 "" "") "TA" scenario_b_issued).2).1
    = Some InvalidToken ∧
  failure_kind
    (ServerIndex.post_qr_validate (env_at 4000 "" "") "TA"
       (ServerIndex.post_qr_validate (env_at 3000 "" "") "TA"
          scenario_b_issued).2).1
    = Some InvalidToken ∧
  Some InvalidToken ≠ Some AlreadyUsed ∧
  Some InvalidToken ≠ Some AlreadyCheckedIn.
Proof.
  split; [exists "1000", (mkReservation "alice" "W" 1000); by vm_compute|].
  split; [vm_compute; exact I|].
  split; [exists "3000", (mkAttendance "alice" "W" 3000); by vm_compute|].
  split; [vm_compute; reflexivity|].
  split; [vm_compute; reflexivity|].
  split; discriminate.
Qed.

(** ** The token after "Already checked in" *)

Lemma validate_workshop_already_inv e token w u s s' :
  Api.post_qr_validate_workshop e token w u s
    = (Err E_already_checked_in_workshop, s') →
  s' = s ∧ has_attendance u w s ∧ has_reservation u w s ∧
  ∃ q, qr_tokens s !! token = Some q ∧ q_workshopId q = w ∧ live (now e) q.
Proof.
  destruct (truthy token && truthy w && truthy u) eqn:Hfields.
  2: { by rewrite validate_workshop_missing_field. }
  apply andb_true_iff in Hfields as [[Ht Hw]%andb_true_iff Hu].
  destruct (users s !! u) as [user|] eqn:Huser.
  2: { by rewrite validate_workshop_unknown_user. }
  destruct (decide (has_reservation u w s)) as [Hres|Hres].
  2: { by rewrite (validate_workshop_no_reservation e token w u s user). }
  rewrite (validate_workshop_after_reservation e token w u s user) by done.
  destruct (Api.select_qr_token token w s) as [q|] eqn:Hsel; [|done].
  apply select_qr_token_Some in Hsel as [Hq Hqw].
  destruct (q_used q) eqn:Hused; [done|].
  case_bool_decide as Hexp; [done|].
  destruct (select_attendance u w s) eqn:Hatt.
  - apply select_attendance_has in Hatt. intros [= <-].
    split; [done|]. split; [done|]. split; [done|]. by exists q.
  - destruct (transaction _ s); [|done]. cbn zeta.
    by destruct (qr_tokens _ !! randomBytes e).
Qed.

(** C5, as amended: a user-scoped check-in that fails with "Already
    checked in" has deleted the presented token, so that presenting it
    again is answered as an unknown token (on both servers); a
    workshop-scoped check-in that fails with "Already checked in for this
    workshop" changes nothing: the presented token was, and remains, an
    unused and unexpired token of the workshop. *)
Theorem already_checked_in_token_fate (e e' : Env) (token w u : string)
    (s : State) :
  ((Api.post_qr_validate e token s).1 = Err E_already_checked_in →
     qrTokens (Api.post_qr_validate e token s).2 !! token = None ∧
     Api.post_qr_validate e' token (Api.post_qr_validate e token s).2
       = (Err E_invalid_token_format, (Api.post_qr_validate e token s).2)) ∧
  ((ServerIndex.post_qr_validate e token s).1 = Err E_already_checked_in →
     qrTokens (ServerIndex.post_qr_validate e token s).2 !! token = None ∧
     ServerIndex.post_qr_validate e' token
       (ServerIndex.post_qr_validate e token s).2
       = (Err E_invalid_or_expired_token,
          (ServerIndex.post_qr_validate e token s).2)) ∧
  ((Api.post_qr_validate_workshop e token w u s).1
     = Err E_already_checked_in_workshop →
     (Api.post_qr_validate_workshop e token w u s).2 = s ∧
     ∃ q, qr_tokens s !! token = Some q ∧ q_workshopId q = w ∧
          live (now e) q).
Proof.
  split; [|split]; intros Herr.
  - rewrite !api_validate_user_token in *.
    destruct (validate_user_token_consumed E_invalid_token_format e token s)
      as [Ht Hgone]; [done|by left|].
    split; [done|]. by apply validate_user_token_gone.
  - rewrite !server_index_validate_user_token in *.
    destruct (validate_user_token_consumed E_invalid_or_expired_token e token s)
      as [Ht Hgone]; [done|by left|].
    split; [done|]. by apply validate_user_token_gone.
  - destruct (Api.post_qr_validate_workshop e token w u s) as [resp s'] eqn:Hr.
    simpl in Herr. subst resp.
    apply validate_workshop_already_inv in Hr as (-> & _ & _ & Hq). done.
Qed.

Lemma already_checked_in_token_fate_witness :
  (Api.post_qr_validate_workshop scan_env "T" "W" "alice" scan_state).1
    = Err E_already_checked_in_workshop ∧
  (Api.post_qr_validate_workshop scan_env "T" "W" "alice" scan_state).2
    = scan_state ∧
  ∃ q, qr_tokens scan_state !! "T" = Some q ∧ q_workshopId q = "W" ∧
       live (now scan_env) q.
Proof.
  assert (Herr : (Api.post_qr_validate_workshop scan_env "T" "W" "alice"
                    scan_state).1 = Err E_already_checked_in_workshop)
    by (vm_compute; reflexivity).
  split; [exact Herr|].
  exact (proj2 (proj2 (already_checked_in_token_fate scan_env scan_env
                         "T" "W" "alice" scan_state)) Herr).
Defined.

(** In the workshop-scoped flow the token survives the failure: Alice's
    attempt is answered "Already checked in for this workshop", and the
    very same token then checks Bob in. *)
Lemma token_not_burned_counterexample :
  (Api.post_qr_validate_workshop scan_env "T" "W" "alice" scan_state).1
    = Err E_already_checked_in_workshop ∧
  failure_kind
    (Api.post_qr_validate_workshop scan_env "T" "W" "alice" scan_state).1
    = Some AlreadyCheckedIn ∧
  is_success
    (Api.post_qr_validate_workshop later_env "T" "W" "bob"
       (Api.post_qr_validate_workshop scan_env "T" "W" "alice" scan_state).2).1.
Proof.
  split; [vm_compute; reflexivity|].
  split; [vm_compute; reflexivity|].
  vm_compute. exact I.
Qed.

(** ** Where the reservation is checked *)

Lemma validate_user_token_ignores_reservations unknown e token s f :
  validate_user_token unknown e token (set_reservations f s)
  = ((validate_user_token unknown e token s).1,
     set_reservations f (validate_user_token unknown e token s).2).
Proof.
  assert (Hb : ∀ u w, bool_decide (has_attendance u w (set_reservations f s))
                       = bool_decide (has_attendance u w s)).
  { intros u w. by apply bool_decide_ext. }
  unfold validate_user_token.
  destruct (negb (truthy token)); [done|].
  change (qrTokens (set_reservations f s)) with (qrTokens s).
  destruct (qrTokens s !! token) as [td|]; [|done].
  case_bool_decide; [done|].
  change (users (set_reservations f s)) with (users s).
  destruct (users s !! t_userId td); [|done].
  rewrite Hb. case_bool_decide; [done|].
  change (attendance (set_reservations f s)) with (attendance s).
  by destruct (attendance s !! pretty (now e)).
Qed.

(** C8, as amended: the workshop-scoped check-in of a known user looks up
    the reservation before it looks at the token, answers "No reservation
    found for this workshop" without any change when there is none, and
    so never succeeds for a pair without a reservation.  The user-scoped
    check-in makes no reservation check of its own: its outcome does not
    depend on the reservations table; the reservation is checked when the
    token is issued (POST /qr/generate answers "No reservation found"
    when the pair has none), on both servers. *)
Theorem reservation_check_placement (e : Env) (token w u : string) (s : State) :
  (truthy token = true → truthy w = true → truthy u = true →
   is_Some (users s !! u) → ¬ has_reservation u w s →
     Api.post_qr_validate_workshop e token w u s
       = (Err E_no_reservation_for_workshop, s) ∧
     kind E_no_reservation_for_workshop = NoReservation) ∧
  (is_success (Api.post_qr_validate_workshop e token w u s).1 →
     has_reservation u w s) ∧
  (truthy u = true → truthy w = true → ¬ has_reservation u w s →
     Api.post_qr_generate e u w s = (Err E_no_reservation, s) ∧
     ServerIndex.post_qr_generate e u w s = (Err E_no_reservation, s) ∧
     kind E_no_reservation = NoReservation) ∧
  (∀ f, Api.post_qr_validate e token (set_reservations f s)
        = ((Api.post_qr_validate e token s).1,
           set_reservations f (Api.post_qr_validate e token s).2)) ∧
  (∀ f, ServerIndex.post_qr_validate e token (set_reservations f s)
        = ((ServerIndex.post_qr_validate e token s).1,
           set_reservations f (ServerIndex.post_qr_validate e token s).2)).
Proof.
  split; [|split; [|split; [|split]]].
  - intros Ht Hw Hu [user Huser] Hres. split; [|done].
    by eapply validate_workshop_no_reservation.
  - destruct (Api.post_qr_validate_workshop e token w u s) as [[code body| |] s']
      eqn:Hr; try done.
    intros _.
    apply validate_workshop_success_inv in Hr as (? & ? & _ & Hres & _). done.
  - intros Hu Hw Hres%select_reservation_None.
    unfold Api.post_qr_generate, ServerIndex.post_qr_generate.
    by rewrite Hu, Hw, Hres.
  - intros f. rewrite !api_validate_user_token.
    apply validate_user_token_ignores_reservations.
  - intros f. rewrite !server_index_validate_user_token.
    apply validate_user_token_ignores_reservations.
Qed.

Lemma reservation_check_placement_witness :
  truthy "T" = true ∧ truthy "X" = true ∧ truthy "alice" = true ∧
  ¬ has_reservation "alice" "X" scan_state ∧
  Api.post_qr_validate_workshop scan_env "T" "X" "alice" scan_state
    = (Err E_no_reservation_for_workshop, scan_state).
Proof.
  assert (Hres : ¬ has_reservation "alice" "X" scan_state).
  { apply select_reservation_None. vm_compute. reflexivity. }
  assert (Huser : is_Some (users scan_state !! "alice")) by (by eexists).
  exact (conj eq_refl (conj eq_refl (conj eq_refl (conj Hres
    (proj1 (proj1 (reservation_check_placement scan_env "T" "X" "alice"
                     scan_state) eq_refl eq_refl eq_refl Huser Hres)))))).
Defined.

(** The user-scoped check-in succeeds without a reservation: Alice
    reserves, is issued "TA", cancels, and is then checked in by "TA"
    although no reservation of hers exists at check-in time. *)
Lemma check_in_without_reservation_counterexample :
  ¬ has_reservation "alice" "W" issued_then_cancelled ∧
  is_success
    (Api.post_qr_validate (env_at 3000 "" "") "TA" issued_then_cancelled).1 ∧
  is_success
    (ServerIndex.post_qr_validate (env_at 3000 "" "") "TA"
       issued_then_cancelled).1 ∧
  has_attendance "alice" "W"
    (Api.post_qr_validate (env_at 3000 "" "") "TA" issued_then_cancelled).2.
Proof.
  split; [apply select_reservation_None; vm_compute; reflexivity|].
  split; [vm_compute; exact I|].
  split; [vm_compute; exact I|].
  exists "3000", (mkAttendance "alice" "W" 3000). by vm_compute.
Qed.

(** ** What each request does to the attendance and qr_tokens tables *)

Lemma validate_workshop_state e token w u s :
  (Api.post_qr_validate_workshop e token w u s).2 = s ∨
  (Api.post_qr_validate_workshop e token w u s).2
    = set_qr_tokens (delete token) s ∨
  ∃ user q,
    qr_tokens s !! token = Some q ∧ q_workshopId q = w ∧ q_used q = false ∧
    ¬ has_attendance u w s ∧ attendance s !! randomUUID e = None ∧
    ((Api.post_qr_validate_workshop e token w u s).2
       = committed_check_in e token w u user s ∨
     (qr_tokens (committed_check_in e token w u user s) !! randomBytes e = None ∧
      (Api.post_qr_validate_workshop e token w u s).2
        = rotated_check_in e token w u user s)).
Proof.
  destruct (truthy token && truthy w && truthy u) eqn:Hfields.
  2: { left. by rewrite validate_workshop_missing_field. }
  apply andb_true_iff in Hfields as [[Ht Hw]%andb_true_iff Hu].
  destruct (users s !! u) as [user|] eqn:Huser.
  2: { left. by rewrite validate_workshop_unknown_user. }
  destruct (decide (has_reservation u w s)) as [Hres|Hres].
  2: { left. by rewrite (validate_workshop_no_reservation e token w u s user). }
  rewrite (validate_workshop_after_reservation e token w u s user) by done.
  destruct (Api.select_qr_token token w s) as [q|] eqn:Hsel; [|by left].
  apply select_qr_token_Some in Hsel as [Hq Hqw].
  destruct (q_used q) eqn:Hused; [by left|].
  case_bool_decide as Hexp; [right; by left|].
  destruct (select_attendance u w s) eqn:Hatt; [by left|].
  apply select_attendance_None in Hatt.
  destruct (transaction _ s) as [s1|] eqn:Htx; [|by left].
  apply transaction_check_in in Htx as (Hid & _ & _). cbn zeta.
  right. right. exists user, q.
  do 5 (split; [done|]).
  destruct (qr_tokens (committed_check_in e token w u user s) !! randomBytes e)
    eqn:Hfresh; [by left|by right].
Qed.

Lemma generate_workshop_state e w s :
  (Api.post_qr_generate_workshop e w s).2 = s ∨
  (Api.post_qr_generate_workshop e w s).2
    = set_qr_tokens (filter (Api.qr_kept (now e) w)) s ∨
  (filter (Api.qr_kept (now e) w) (qr_tokens s) !! randomBytes e = None ∧
   (Api.post_qr_generate_workshop e w s).2
     = set_qr_tokens
         (insert (randomBytes e)
            (mkQrRow w (now e) (now e + random_ms e + 10000) false))
         (set_qr_tokens (filter (Api.qr_kept (now e) w)) s)).
Proof.
  unfold Api.post_qr_generate_workshop.
  destruct (negb (truthy w)); [by left|].
  destruct (workshops s !! w); [|by left].
  cbn zeta.
  destruct (insert_qr_token _ _ _ _ _) as [s2|] eqn:Hins; [|right; by left].
  apply insert_qr_token_Some in Hins as [Hfresh ->]. right. right. done.
Qed.

Lemma reserve_cancel_frame e u w s :
  attendance (Api.post_reservations e u w s).2 = attendance s ∧
  qr_tokens (Api.post_reservations e u w s).2 = qr_tokens s ∧
  attendance (Api.delete_reservations u w s).2 = attendance s ∧
  qr_tokens (Api.delete_reservations u w s).2 = qr_tokens s.
Proof.
  unfold Api.post_reservations, Api.delete_reservations.
  destruct (negb (truthy u) || negb (truthy w)); [done|].
  split; [|split].
  - destruct (users s !! u), (workshops s !! w) as [ws|]; try done.
    destruct (Api.workshop_expired e ws); [done|].
    destruct (js_le_zero _); [done|].
    destruct (select_reservation u w s); [done|].
    destruct (transaction _ s) as [s'|] eqn:Htx; [|done].
    by apply transaction_reserve in Htx as [_ ->].
  - destruct (users s !! u), (workshops s !! w) as [ws|]; try done.
    destruct (Api.workshop_expired e ws); [done|].
    destruct (js_le_zero _); [done|].
    destruct (select_reservation u w s); [done|].
    destruct (transaction _ s) as [s'|] eqn:Htx; [|done].
    by apply transaction_reserve in Htx as [_ ->].
  - destruct (select_reservation u w s) as [x|]; [|done].
    destruct (transaction _ s) as [s'|] eqn:Htx; [|done].
    by apply transaction_cancel in Htx as ->.
Qed.

(** The user-scoped check-in leaves the attendance table as it is or
    inserts one row, under a new id, for a pair that had none. *)
Lemma validate_user_token_attendance unknown e token s :
  attendance (validate_user_token unknown e token s).2 = attendance s ∨
  ∃ id a, attendance s !! id = None ∧
          ¬ has_attendance (a_userId a) (a_workshopId a) s ∧
          attendance (validate_user_token unknown e token s).2
            = <[id:=a]> (attendance s).
Proof.
  unfold validate_user_token.
  destruct (negb (truthy token)); [by left|].
  destruct (qrTokens s !! token) as [td|]; [|by left].
  case_bool_decide; [by left|].
  destruct (users s !! t_userId td); [|by left].
  case_bool_decide as Hatt; [by left|].
  destruct (attendance s !! pretty (now e)) eqn:Hid; [by left|].
  right. exists (pretty (now e)),
           (mkAttendance (t_userId td) (t_workshopId td) (now e)).
  split; [exact Hid|]. split; [exact Hatt|]. done.
Qed.

(** The routes that only read answer without changing the state. *)
Lemma read_routes_state e r s :
  match r with
  | Api.GetHealth | Api.PostLogin _ _ | Api.GetWorkshops
  | Api.GetReservations _ | Api.GetAdminOverview => (Api.handle e r s).2 = s
  | _ => True
  end.
Proof.
  destruct r; try done; simpl.
  - unfold Api.post_login. by repeat case_match.
  - unfold Api.get_reservations. by case_match.
Qed.

Lemma insert_user_Some id u s s' :
  insert_user id u s = Some s' →
  users s !! id = None ∧ select_user_by_email (email u) s = None ∧
  s' = set_users (insert id u) s.
Proof.
  unfold insert_user. destruct (users s !! id); [done|].
  destruct (select_user_by_email _ s); [done|]. by intros [= <-].
Qed.

(** POST /register changes nothing or inserts one user under a new id. *)
Lemma post_register_state e n em pw s :
  (Api.post_register e n em pw s).2 = s ∨
  users s !! pretty (now e) = None ∧
  (Api.post_register e n em pw s).2
  = set_users (insert (pretty (now e)) (mkUser n em pw "user")) s.
Proof.
  unfold Api.post_register.
  destruct (negb (truthy n) || negb (truthy em) || negb (truthy pw));
    [by left|]. cbv zeta.
  destruct (insert_user _ _ s) as [s'|] eqn:Hins; [|by left].
  apply insert_user_Some in Hins as (? & _ & ->). by right.
Qed.

Lemma insert_workshop_Some id d f s s' :
  insert_workshop id d f s = Some s' →
  ∃ v, bind_number f = Some v ∧ workshops s !! id = None ∧
       s' = set_workshops (insert id (mkWorkshop d v v)) s.
Proof.
  unfold insert_workshop. destruct (bind_number f) as [v|]; [|done].
  destruct (workshops s !! id) eqn:Hid; [done|].
  intros [= <-]. by exists v.
Qed.

(** POST /workshops changes nothing or inserts one workshop under a new
    id, with the same number in both seat columns. *)
Lemma post_workshops_state e d t s :
  (Api.post_workshops e d t s).2 = s ∨
  ∃ v, bind_number (b_number t) = Some v ∧
       workshops s !! pretty (now e) = None ∧
       (Api.post_workshops e d t s).2
       = set_workshops (insert (pretty (now e)) (mkWorkshop d v v)) s.
Proof.
  unfold Api.post_workshops. destruct (negb (b_truthy t)); [by left|].
  cbv zeta. destruct (insert_workshop _ _ _ s) as [s'|] eqn:Hins; [|by left].
  apply insert_workshop_Some in Hins as (v & ? & ? & ->). right. by exists v.
Qed.

(** What the routes that touch neither the attendance table nor the
    workshop tokens leave of the two. *)
Lemma account_routes_frame e r s :
  match r with
  | Api.GetHealth | Api.PostRegister _ _ _ | Api.PostLogin _ _
  | Api.GetWorkshops | Api.PostWorkshops _ _ | Api.GetReservations _
  | Api.GetAdminOverview =>
      attendance (Api.handle e r s).2 = attendance s ∧
      qr_tokens (Api.handle e r s).2 = qr_tokens s ∧
      qrTokens (Api.handle e r s).2 = qrTokens s ∧
      reservations (Api.handle e r s).2 = reservations s
  | _ => True
  end.
Proof.
  pose proof (read_routes_state e r s) as Hread.
  destruct r as [ |n em pw|em pw| |d t|u w|u|u w| |u w|token|w|token w u|c|c| ];
    try done; try (by rewrite Hread); simpl.
  - by destruct (post_register_state e n em pw s) as [->|[_ ->]].
  - by destruct (post_workshops_state e d t s) as [->|(v & _ & _ & ->)].
Qed.

(** Every request leaves the attendance table as it is or inserts one
    row, under a new id, for a pair that had none. *)
Lemma handle_attendance e r s :
  attendance (Api.handle e r s).2 = attendance s ∨
  ∃ id a, attendance s !! id = None ∧
          ¬ has_attendance (a_userId a) (a_workshopId a) s ∧
          attendance (Api.handle e r s).2 = <[id:=a]> (attendance s).
Proof.
  pose proof (account_routes_frame e r s) as Hframe.
  destruct r as [ |n em pw|em pw| |d t|u w|u|u w| |u w|token|w|token w u|c|c| ];
    try (left; apply Hframe); simpl.
  - left. apply reserve_cancel_frame.
  - left. apply (reserve_cancel_frame e).
  - left. unfold Api.post_qr_generate.
    destruct (negb (truthy u) || negb (truthy w)); [done|].
    by destruct (select_reservation u w s).
  - rewrite api_validate_user_token. apply validate_user_token_attendance.
  - left. destruct (generate_workshop_state e w s) as [-> | [-> | [_ ->]]]; done.
  - destruct (validate_workshop_state e token w u s)
      as [-> | [-> | (user & q & _ & _ & _ & Hatt & Hid & [-> | [_ ->]])]];
      [by left|by left| |];
      right; exists (randomUUID e), (mkAttendance u w (now e)); done.
  - by left.
  - by left.
  - by left.
Qed.

Lemma unique_attendance_insert id a s s' :
  unique_attendance s →
  attendance s !! id = None →
  ¬ has_attendance (a_userId a) (a_workshopId a) s →
  attendance s' = <[id:=a]> (attendance s) →
  unique_attendance s'.
Proof.
  intros Hun Hid Hno Hs' id1 id2 a1 a2 H1 H2 Hu Hw.
  rewrite Hs' in H1, H2.
  apply lookup_insert_Some in H1 as [[<- <-]|[Hne1 H1]];
    apply lookup_insert_Some in H2 as [[<- <-]|[Hne2 H2]].
  - done.
  - destruct Hno. exists id2, a2. by rewrite Hu, Hw.
  - destruct Hno. exists id1, a1. by rewrite <- Hu, <- Hw.
  - by eapply Hun.
Qed.

Lemma handle_unique_attendance e r s :
  unique_attendance s → unique_attendance (Api.handle e r s).2.
Proof.
  intros Hun. destruct (handle_attendance e r s) as [Heq|(id & a & ? & ? & ?)].
  - unfold unique_attendance. rewrite Heq. exact Hun.
  - by eapply unique_attendance_insert.
Qed.

Lemma states_invariant (P : State → Prop) :
  (∀ e r s, P s → P (Api.handle e r s).2) →
  ∀ reqs s, P s → Forall P (Api.states reqs s).
Proof.
  intros Hstep reqs. induction reqs as [|[e r] reqs IH]; intros s Hs; simpl.
  - by constructor.
  - constructor; [done|]. apply IH. by apply Hstep.
Qed.

(** ** At most one attendance record per pair *)

Lemma validate_workshop_has_attendance e token w u s :
  has_attendance u w s →
  is_error (Api.post_qr_validate_workshop e token w u s).1 ∧
  attendance (Api.post_qr_validate_workshop e token w u s).2 = attendance s.
Proof.
  intros Hatt. split.
  - destruct (truthy token && truthy w && truthy u) eqn:Hfields.
    2: { rewrite validate_workshop_missing_field by done. by eexists. }
    apply andb_true_iff in Hfields as [[Ht Hw]%andb_true_iff Hu].
    destruct (users s !! u) as [user|] eqn:Huser.
    2: { rewrite validate_workshop_unknown_user by done. by eexists. }
    destruct (decide (has_reservation u w s)) as [Hres|Hres].
    2: { rewrite (validate_workshop_no_reservation e token w u s user) by done.
         by eexists. }
    rewrite (validate_workshop_after_reservation e token w u s user) by done.
    destruct (Api.select_qr_token token w s) as [q|]; [|by eexists].
    destruct (q_used q); [by eexists|].
    case_bool_decide; [by eexists|].
    destruct (has_attendance_select u w s Hatt) as [x ->]. by eexists.
  - destruct (validate_workshop_state e token w u s)
      as [-> | [-> | (user & q & _ & _ & _ & Hno & _)]]; done.
Qed.

Lemma validate_user_token_has_attendance unknown e token td s :
  qrTokens s !! token = Some td →
  has_attendance (t_userId td) (t_workshopId td) s →
  is_error (validate_user_token unknown e token s).1 ∧
  attendance (validate_user_token unknown e token s).2 = attendance s ∧
  (truthy token = true → ¬ t_expiresAt td < now e →
   is_Some (users s !! t_userId td) →
   validate_user_token unknown e token s
     = (Err E_already_checked_in, set_qrTokens (delete token) s)).
Proof.
  intros Htd Hatt. unfold validate_user_token. rewrite Htd.
  destruct (truthy token); cbn [negb].
  2: { split; [by eexists|]. by split. }
  case_bool_decide.
  { split; [by eexists|]. by split. }
  destruct (users s !! t_userId td) eqn:Huser.
  - rewrite bool_decide_eq_true_2 by done. split; [by eexists|]. by split.
  - split; [by eexists|]. split; [done|]. by intros _ _ [? ?].
Qed.

Lemma validate_user_token_unique unknown e token s :
  unique_attendance s →
  unique_attendance (validate_user_token unknown e token s).2.
Proof.
  intros Hun.
  destruct (validate_user_token_attendance unknown e token s)
    as [Heq|(id & a & ? & ? & ?)].
  - unfold unique_attendance. rewrite Heq. exact Hun.
  - by eapply unique_attendance_insert.
Qed.

(** C4, as amended: along every sequence of requests the attendance
    table keeps at most one record per (user, workshop), and so it does
    across a check-in of [src/server/index.js]; a check-in attempt for a
    pair that already has a record is answered with an error and leaves
    the table as it is, in the workshop-scoped flow and in the
    user-scoped flow of both servers.  The error is "Already checked in"
    (AlreadyCheckedIn) when the attempt gets past the checks that the
    handler makes before the attendance check (fields, user,
    reservation, token); otherwise it is the error of the first of those
    checks that fails. *)
Theorem attendance_at_most_once (e : Env) (token w u : string) (s : State)
    (reqs : list (Env * Api.Request)) :
  (unique_attendance s →
     Forall unique_attendance (Api.states reqs s) ∧
     unique_attendance (ServerIndex.post_qr_validate e token s).2) ∧
  (has_attendance u w s →
     is_error (Api.post_qr_validate_workshop e token w u s).1 ∧
     attendance (Api.post_qr_validate_workshop e token w u s).2 = attendance s ∧
     (∀ q, truthy token = true → truthy w = true → truthy u = true →
           is_Some (users s !! u) → has_reservation u w s →
           qr_tokens s !! token = Some q → q_workshopId q = w →
           q_used q = false → ¬ q_expiresAt q < now e →
           Api.post_qr_validate_workshop e token w u s
             = (Err E_already_checked_in_workshop, s) ∧
           kind E_already_checked_in_workshop = AlreadyCheckedIn)) ∧
  (∀ td, qrTokens s !! token = Some td →
         has_attendance (t_userId td) (t_workshopId td) s →
     (is_error (Api.post_qr_validate e token s).1 ∧
      attendance (Api.post_qr_validate e token s).2 = attendance s ∧
      is_error (ServerIndex.post_qr_validate e token s).1 ∧
      attendance (ServerIndex.post_qr_validate e token s).2 = attendance s) ∧
     (truthy token = true → ¬ t_expiresAt td < now e →
      is_Some (users s !! t_userId td) →
        Api.post_qr_validate e token s
          = (Err E_already_checked_in, set_qrTokens (delete token) s) ∧
        ServerIndex.post_qr_validate e token s
          = (Err E_already_checked_in, set_qrTokens (delete token) s) ∧
        kind E_already_checked_in = AlreadyCheckedIn)).
Proof.
  split; [|split].
  - intros Hun. split.
    + apply states_invariant; [|done]. intros. by apply handle_unique_attendance.
    + rewrite server_index_validate_user_token.
      by apply validate_user_token_unique.
  - intros Hatt.
    destruct (validate_workshop_has_attendance e token w u s Hatt) as [Hf Ha].
    split; [done|]. split; [done|].
    intros q Ht Hw Hu [user Huser] Hres Hq Hqw Hused Hexp. split; [|done].
    by eapply validate_workshop_already_checked_in.
  - intros td Htd Hatt.
    rewrite api_validate_user_token, server_index_validate_user_token.
    destruct (validate_user_token_has_attendance E_invalid_token_format
                e token td s Htd Hatt) as (? & ? & H1).
    destruct (validate_user_token_has_attendance E_invalid_or_expired_token
                e token td s Htd Hatt) as (? & ? & H2).
    split; [done|]. intros Ht Hexp Huser.
    by rewrite H1, H2.
Qed.

Lemma attendance_at_most_once_witness :
  unique_attendance scan_state ∧
  has_attendance "alice" "W" scan_state ∧
  Forall unique_attendance (Api.states check_in_trace scan_state) ∧
  is_error
    (Api.post_qr_validate_workshop scan_env "T" "W" "alice" scan_state).1 ∧
  attendance (Api.post_qr_validate_workshop scan_env "T" "W" "alice"
                scan_state).2 = attendance scan_state.
Proof.
  assert (Hun : unique_attendance scan_state).
  { intros id1 id2 a1 a2 H1 H2 _ _. simpl in H1, H2.
    apply lookup_singleton_Some in H1 as [<- _].
    by apply lookup_singleton_Some in H2 as [<- _]. }
  assert (Hatt : has_attendance "alice" "W" scan_state).
  { exists "a1", (mkAttendance "alice" "W" 900). by vm_compute. }
  destruct (attendance_at_most_once scan_env "T" "W" "alice" scan_state
              check_in_trace) as (Htrace & Hws & _).
  destruct (Hws Hatt) as (Hfail & Hsame & _).
  exact (conj Hun (conj Hatt (conj (proj1 (Htrace Hun)) (conj Hfail Hsame)))).
Defined.

(** The second attempt does not always fail as AlreadyCheckedIn: after
    Bob has checked in with the token "T", Bob presenting "T" again is
    answered "QR token already used" (AlreadyUsed), the token check
    coming before the attendance check. *)
Lemma second_attempt_kind_counterexample :
  has_attendance "bob" "W" (Api.run (take 2 check_in_trace) scan_state) ∧
  Api.post_qr_validate_workshop (mkEnv 6500 0 "Z" "uuid-5" "uuid-6" 0)
    "T" "W" "bob" (Api.run (take 2 check_in_trace) scan_state)
  = (Err E_qr_already_used, Api.run (take 2 check_in_trace) scan_state) ∧
  kind E_qr_already_used = AlreadyUsed ∧
  failure_kind
    (Api.post_qr_validate_workshop (mkEnv 6500 0 "Z" "uuid-5" "uuid-6" 0)
       "T" "W" "bob" (Api.run (take 2 check_in_trace) scan_state)).1
  ≠ Some AlreadyCheckedIn.
Proof.
  split.
  { exists "uuid-3", (mkAttendance "bob" "W" 6000). by vm_compute. }
  split; [vm_compute; reflexivity|].
  split; [reflexivity|]. vm_compute. discriminate.
Qed.

(** ** At most one live workshop token *)

Lemma one_live_iff_one_unused s :
  one_live_token_per_workshop s ↔ one_unused_token_per_workshop s.
Proof.
  split.
  - intros H t1 t2 q1 q2 H1 H2 Hw Hu1 Hu2.
    apply (H (Z.min (q_expiresAt q1) (q_expiresAt q2)) t1 t2 q1 q2);
      try done; split; try done; lia.
  - intros H t t1 t2 q1 q2 H1 H2 Hw [Hu1 _] [Hu2 _]. by eapply H.
Qed.

Lemma one_unused_from s s' :
  one_unused_token_per_workshop s → unused_from s s' →
  one_unused_token_per_workshop s'.
Proof.
  intros Hone Hsub t1 t2 q1 q2 H1 H2 Hw Hu1 Hu2.
  destruct (Hsub t1 q1 H1 Hu1) as (p1 & Hp1 & Hpu1 & Hpw1).
  destruct (Hsub t2 q2 H2 Hu2) as (p2 & Hp2 & Hpu2 & Hpw2).
  apply (Hone t1 t2 p1 p2); try done. congruence.
Qed.

Lemma unused_from_same s s' :
  qr_tokens s' = qr_tokens s → unused_from s s'.
Proof. intros Heq t q' Hq' Hu. rewrite Heq in Hq'. by exists q'. Qed.

Lemma unused_from_delete token s :
  unused_from s (set_qr_tokens (delete token) s).
Proof.
  intros t q' Hq' Hu. simpl in Hq'.
  apply lookup_delete_Some in Hq' as [_ Hq']. by exists q'.
Qed.

Lemma unused_from_filter P `{!∀ x, Decision (P x)} s :
  unused_from s (set_qr_tokens (filter P) s).
Proof.
  intros t q' Hq' Hu. simpl in Hq'.
  apply map_lookup_filter_Some in Hq' as [Hq' _]. by exists q'.
Qed.

Lemma unused_from_committed e token w u user s :
  unused_from s (committed_check_in e token w u user s).
Proof.
  intros t q' Hq' Hu.
  destruct (committed_check_in_fields e token w u user s)
    as (_ & _ & _ & _ & Hqr & _).
  rewrite Hqr in Hq'. apply lookup_alter_Some in Hq' as [(-> & q & Hq & ->)|[_ Hq']].
  - done.
  - by exists q'.
Qed.

(** A new unused row for [w] keeps the invariant when no other unused
    row of [w] is there. *)
Lemma one_unused_insert token w c x s s' :
  one_unused_token_per_workshop s →
  (∀ t q, qr_tokens s !! t = Some q → q_workshopId q = w → q_used q = true) →
  qr_tokens s' = <[token := mkQrRow w c x false]> (qr_tokens s) →
  one_unused_token_per_workshop s'.
Proof.
  intros Hone Hnone Hs' t1 t2 q1 q2 H1 H2 Hw Hu1 Hu2.
  rewrite Hs' in H1, H2.
  apply lookup_insert_Some in H1 as [[<- <-]|[Hne1 H1]];
    apply lookup_insert_Some in H2 as [[<- <-]|[Hne2 H2]].
  - done.
  - simpl in Hw. rewrite (Hnone t2 q2 H2) in Hu2; [done|by symmetry].
  - simpl in Hw. rewrite (Hnone t1 q1 H1) in Hu1; done.
  - by eapply Hone.
Qed.

Lemma handle_one_unused e r s :
  one_unused_token_per_workshop s →
  one_unused_token_per_workshop (Api.handle e r s).2.
Proof.
  intros Hone.
  pose proof (account_routes_frame e r s) as Hframe.
  destruct r as [ |n em pw|em pw| |d t|u w|u|u w| |u w|token|w|token w u|c|c| ];
    try (eapply one_unused_from; [done|]; apply unused_from_same;
         apply Hframe); simpl.
  - eapply one_unused_from; [done|]. apply unused_from_same.
    apply reserve_cancel_frame.
  - eapply one_unused_from; [done|]. apply unused_from_same.
    apply (reserve_cancel_frame e).
  - eapply one_unused_from; [done|]. apply unused_from_same.
    unfold Api.post_qr_generate.
    destruct (negb (truthy u) || negb (truthy w)); [done|].
    by destruct (select_reservation u w s).
  - eapply one_unused_from; [done|]. apply unused_from_same.
    rewrite api_validate_user_token. unfold validate_user_token.
    destruct (negb (truthy token)); [done|].
    destruct (qrTokens s !! token) as [td|]; [|done].
    case_bool_decide; [done|].
    destruct (users s !! t_userId td); [|done].
    case_bool_decide; [done|].
    by destruct (attendance s !! pretty (now e)).
  - destruct (generate_workshop_state e w s) as [-> | [-> | [_ ->]]].
    + done.
    + eapply one_unused_from; [done|].
      apply (unused_from_filter (Api.qr_kept (now e) w)).
    + eapply (one_unused_insert (randomBytes e) w);
        [eapply one_unused_from; [exact Hone|];
         apply (unused_from_filter (Api.qr_kept (now e) w))
        | | reflexivity].
      intros t q Hq Hqw. simpl in Hq.
      apply map_lookup_filter_Some in Hq as [_ Hkept].
      destruct Hkept. by right.
  - destruct (validate_workshop_state e token w u s)
      as [-> | [-> | (user & q & Hq & Hqw & Hused & _ & _ & [-> | [_ ->]])]].
    + done.
    + eapply one_unused_from; [done|]. apply unused_from_delete.
    + eapply one_unused_from; [done|]. apply unused_from_committed.
    + eapply (one_unused_insert (randomBytes e) w);
        [eapply one_unused_from; [exact Hone|];
         apply (unused_from_committed e token w u user)
        | | reflexivity].
      intros t q' Hq' Hqw'.
      destruct (committed_check_in_fields e token w u user s)
        as (_ & _ & _ & _ & Hqr & _).
      rewrite Hqr in Hq'.
      apply lookup_alter_Some in Hq' as [(-> & p & Hp & ->)|[Hne Hq']]; [done|].
      destruct (q_used q') eqn:Hu'; [done|].
      destruct Hne. apply (Hone token t q q'); congruence.
  - by eapply one_unused_from; [|apply unused_from_same].
  - by eapply one_unused_from; [|apply unused_from_same].
  - by eapply one_unused_from; [|apply unused_from_same].
Qed.

(** ** Issuing a workshop token *)

Section generate_workshop.
Context (e : Env) (w : string) (s : State).
Hypothesis (Hw : truthy w = true) (Hws : is_Some (workshops s !! w)).

Lemma generate_workshop_frame :
  users (Api.post_qr_generate_workshop e w s).2 = users s ∧
  workshops (Api.post_qr_generate_workshop e w s).2 = workshops s ∧
  reservations (Api.post_qr_generate_workshop e w s).2 = reservations s ∧
  attendance (Api.post_qr_generate_workshop e w s).2 = attendance s.
Proof.
  destruct (generate_workshop_state e w s) as [-> | [-> | [_ ->]]]; done.
Qed.

Lemma generate_workshop_lookup t q :
  qr_tokens (Api.post_qr_generate_workshop e w s).2 !! t = Some q →
  (t = randomBytes e ∧
   q = mkQrRow w (now e) (now e + random_ms e + 10000) false) ∨
  (qr_tokens s !! t = Some q ∧ q_workshopId q ≠ w).
Proof.
  unfold Api.post_qr_generate_workshop. rewrite Hw. cbn [negb].
  destruct Hws as [ws ->]. cbn zeta.
  destruct (insert_qr_token _ _ _ _ _) as [s2|] eqn:Hins.
  - apply insert_qr_token_Some in Hins as [Hfresh ->]. simpl.
    intros [[<- <-]|[Hne Hq]]%lookup_insert_Some; [by left|].
    apply map_lookup_filter_Some in Hq as [Hq Hkept]. right.
    split; [done|]. intros Hqw. apply Hkept. by right.
  - simpl. intros Hq. right.
    apply map_lookup_filter_Some in Hq as [Hq Hkept].
    split; [done|]. intros Hqw. apply Hkept. by right.
Qed.

Lemma generate_workshop_success :
  qr_tokens s !! randomBytes e = None →
  is_success (Api.post_qr_generate_workshop e w s).1 ∧
  qr_tokens (Api.post_qr_generate_workshop e w s).2 !! randomBytes e
    = Some (mkQrRow w (now e) (now e + random_ms e + 10000) false).
Proof.
  intros Hfresh. unfold Api.post_qr_generate_workshop. rewrite Hw. cbn [negb].
  destruct Hws as [ws ->]. cbn zeta.
  destruct (insert_qr_token _ _ _ _ _) as [s2|] eqn:Hins.
  - apply insert_qr_token_Some in Hins as [_ ->]. simpl.
    split; [done|]. apply lookup_insert_eq.
  - unfold insert_qr_token in Hins. simpl in Hins.
    rewrite (map_lookup_filter_None_2 _ _ _ (or_introl Hfresh)) in Hins. done.
Qed.

(** Any token other than the one just issued is not a token of [w]. *)
Lemma generate_workshop_invalidates t :
  t ≠ randomBytes e →
  Api.select_qr_token t w (Api.post_qr_generate_workshop e w s).2 = None.
Proof.
  intros Hne.
  destruct (Api.select_qr_token t w _) as [q|] eqn:Hsel; [|done].
  apply select_qr_token_Some in Hsel as [Hq Hqw].
  apply generate_workshop_lookup in Hq as [[? _]|[_ ?]]; done.
Qed.
End generate_workshop.

Lemma has_reservation_frame u w s s' :
  reservations s' = reservations s → has_reservation u w s →
  has_reservation u w s'.
Proof. unfold has_reservation. by intros ->. Qed.

Lemma has_attendance_frame u w s s' :
  attendance s' = attendance s → has_attendance u w s' →
  has_attendance u w s.
Proof. unfold has_attendance. by intros ->. Qed.

Section scenario_c.
Context (e1 e2 : Env) (w u : string) (s : State) (user : User).
Hypothesis (Hw : truthy w = true) (Hu : truthy u = true)
           (Hws : is_Some (workshops s !! w))
           (Huser : users s !! u = Some user)
           (Hres : has_reservation u w s)
           (Hne : randomBytes e1 ≠ randomBytes e2).
Local Abbreviation s1 := (Api.post_qr_generate_workshop e1 w s).2.
Local Abbreviation s2 := (issued_twice e1 e2 w s).

Lemma issued_twice_frame :
  is_Some (workshops s1 !! w) ∧
  users s2 = users s ∧ reservations s2 = reservations s ∧
  attendance s2 = attendance s.
Proof.
  destruct (generate_workshop_frame e1 w s) as (Hu1 & Hw1 & Hr1 & Ha1).
  unfold issued_twice.
  destruct (generate_workshop_frame e2 w s1) as (Hu2 & Hw2 & Hr2 & Ha2).
  split; [by rewrite Hw1|]. split; [congruence|]. split; congruence.
Qed.

Lemma issued_twice_lookup t q :
  qr_tokens s2 !! t = Some q →
  (t = randomBytes e2 ∧
   q = mkQrRow w (now e2) (now e2 + random_ms e2 + 10000) false) ∨
  (qr_tokens s !! t = Some q ∧ q_workshopId q ≠ w).
Proof.
  destruct issued_twice_frame as (Hws1 & _).
  unfold issued_twice.
  intros [?|[Hq Hqw]]%generate_workshop_lookup; [by left| |done|done].
  right. apply generate_workshop_lookup in Hq as [[_ ->]|?]; done.
Qed.

Lemma first_token_invalid e3 :
  truthy (randomBytes e1) = true →
  Api.post_qr_validate_workshop e3 (randomBytes e1) w u s2
    = (Err E_invalid_qr_token, s2).
Proof.
  intros Ht. destruct issued_twice_frame as (_ & Hus & Hrs & _).
  eapply validate_workshop_invalid_token; try done.
  - by rewrite Hus.
  - by eapply has_reservation_frame.
  - intros q [[? _]|[_ ?]]%issued_twice_lookup; done.
Qed.

Lemma second_token_consumed e4 :
  truthy (randomBytes e2) = true →
  ¬ has_attendance u w s →
  qr_tokens s !! randomBytes e2 = None →
  ¬ (now e2 + random_ms e2 + 10000 < now e4) →
  attendance s !! randomUUID e4 = None →
  qr_tokens s !! randomBytes e4 = None →
  randomBytes e4 ≠ randomBytes e2 →
  is_success (Api.post_qr_validate_workshop e4 (randomBytes e2) w u s2).1 ∧
  token_marked_used (randomBytes e2)
    (Api.post_qr_validate_workshop e4 (randomBytes e2) w u s2).2.
Proof.
  intros Ht Hatt Hfresh2 Hexp Hid Hfresh4 Hne4.
  destruct issued_twice_frame as (Hws1 & Hus & Hrs & Has).
  assert (Hfresh1 : qr_tokens s1 !! randomBytes e2 = None).
  { destruct (qr_tokens s1 !! randomBytes e2) as [q|] eqn:Hq; [|done].
    apply generate_workshop_lookup in Hq as [[? _]|[? _]]; congruence. }
  destruct (generate_workshop_success e2 w s1 Hw Hws1 Hfresh1) as [_ Hrow].
  fold (issued_twice e1 e2 w s) in Hrow.
  assert (Hatt2 : ¬ has_attendance u w s2).
  { intros H. apply Hatt. by eapply has_attendance_frame. }
  assert (Hres2 : has_reservation u w s2) by (by eapply has_reservation_frame).
  assert (Hus2 : users s2 !! u = Some user) by (by rewrite Hus).
  assert (Hid2 : attendance s2 !! randomUUID e4 = None) by (by rewrite Has).
  rewrite (validate_workshop_fresh e4 (randomBytes e2) w u s2 user
             Ht Hw Hu Hus2 Hres2 _ Hrow eq_refl eq_refl Hexp Hatt2).
  rewrite Hid2. cbn zeta.
  assert (Hnew : qr_tokens (committed_check_in e4 (randomBytes e2) w u user s2)
                   !! randomBytes e4 = None).
  { destruct (committed_check_in_fields e4 (randomBytes e2) w u user s2)
      as (_ & _ & _ & _ & -> & _).
    rewrite lookup_alter_ne by done.
    destruct (qr_tokens s2 !! randomBytes e4) as [q|] eqn:Hq; [|done].
    apply issued_twice_lookup in Hq as [[? _]|[? _]]; congruence. }
  rewrite Hnew. cbn [fst snd]. split; [done|].
  by eapply (check_in_applied_rotated e4 (randomBytes e2) w u user s2).
Qed.
End scenario_c.

(** C7: after POST /qr/generate-workshop for W no token but the new one
    is a token of W any more; along every sequence of requests, at most
    one live (unused, unexpired) token per workshop exists at any time,
    provided that holds of the first state; and when a token is issued
    for W twice in a row, a check-in with the first token is answered
    "Invalid QR token for this workshop" and a check-in with the second
    succeeds and consumes it. *)
Theorem workshop_issuance_one_live_token (e1 e2 e3 e4 : Env) (w u : string)
    (s : State) (reqs : list (Env * Api.Request)) :
  (truthy w = true → is_Some (workshops s !! w) →
     ∀ t, t ≠ randomBytes e1 →
       Api.select_qr_token t w (Api.post_qr_generate_workshop e1 w s).2 = None) ∧
  (one_live_token_per_workshop s →
     Forall one_live_token_per_workshop (Api.states reqs s)) ∧
  (truthy w = true → truthy u = true →
   truthy (randomBytes e1) = true → truthy (randomBytes e2) = true →
   is_Some (workshops s !! w) → is_Some (users s !! u) →
   has_reservation u w s →
   randomBytes e1 ≠ randomBytes e2 →
     Api.post_qr_validate_workshop e3 (randomBytes e1) w u
       (issued_twice e1 e2 w s)
       = (Err E_invalid_qr_token, issued_twice e1 e2 w s) ∧
     kind E_invalid_qr_token = InvalidToken ∧
     (¬ has_attendance u w s →
      qr_tokens s !! randomBytes e2 = None →
      ¬ (now e2 + random_ms e2 + 10000 < now e4) →
      attendance s !! randomUUID e4 = None →
      qr_tokens s !! randomBytes e4 = None →
      randomBytes e4 ≠ randomBytes e2 →
        is_success
          (Api.post_qr_validate_workshop e4 (randomBytes e2) w u
             (issued_twice e1 e2 w s)).1 ∧
        token_marked_used (randomBytes e2)
          (Api.post_qr_validate_workshop e4 (randomBytes e2) w u
             (issued_twice e1 e2 w s)).2)).
Proof.
  split; [|split].
  - intros Hw Hws t Hne. by apply generate_workshop_invalidates.
  - intros Hone.
    apply (Forall_impl one_unused_token_per_workshop).
    + apply states_invariant; [|by apply one_live_iff_one_unused].
      intros. by apply handle_one_unused.
    + intros s'. apply one_live_iff_one_unused.
  - intros Hw Hu Ht1 Ht2 Hws [user Huser] Hres Hne.
    split; [by eapply first_token_invalid|]. split; [done|].
    intros. by eapply second_token_consumed.
Qed.

Lemma workshop_issuance_one_live_token_witness :
  one_live_token_per_workshop reserved_state ∧
  Forall one_live_token_per_workshop (Api.states token_trace reserved_state) ∧
  Api.post_qr_validate_workshop first_scan "T1" "W" "alice"
    (issued_twice first_issue second_issue "W" reserved_state)
    = (Err E_invalid_qr_token,
       issued_twice first_issue second_issue "W" reserved_state) ∧
  is_success
    (Api.post_qr_validate_workshop second_scan "T2" "W" "alice"
       (issued_twice first_issue second_issue "W" reserved_state)).1.
Proof.
  assert (Hone : one_live_token_per_workshop reserved_state).
  { intros t t1 t2 q1 q2 H1. vm_compute in H1. discriminate. }
  assert (Hres : has_reservation "alice" "W" reserved_state).
  { exists "1000", (mkReservation "alice" "W" 1000). by vm_compute. }
  assert (Hatt : ¬ has_attendance "alice" "W" reserved_state).
  { apply select_attendance_None. vm_compute. reflexivity. }
  assert (Hws : is_Some (workshops reserved_state !! "W")).
  { eexists. vm_compute. reflexivity. }
  assert (Hus : is_Some (users reserved_state !! "alice")).
  { eexists. vm_compute. reflexivity. }
  assert (Hne : randomBytes first_issue ≠ randomBytes second_issue)
    by discriminate.
  assert (Hexp : ¬ (now second_issue + random_ms second_issue + 10000
                    < now second_scan)) by (vm_compute; discriminate).
  assert (Hne4 : randomBytes second_scan ≠ randomBytes second_issue)
    by discriminate.
  destruct (workshop_issuance_one_live_token first_issue second_issue
              first_scan second_scan "W" "alice" reserved_state token_trace)
    as (_ & Hinv & Hsc).
  destruct (Hsc eq_refl eq_refl eq_refl eq_refl Hws Hus Hres Hne)
    as (Hfirst & _ & Hsecond).
  destruct (Hsecond Hatt eq_refl Hexp eq_refl eq_refl Hne4) as [Hok _].
  exact (conj Hone (conj (Hinv Hone) (conj Hfirst Hok))).
Defined.

(** ** Reserve and Cancel *)

Lemma reserve_outcome e u w s :
  truthy u = true → truthy w = true →
  Api.post_reservations e u w s =
  match users s !! u, workshops s !! w with
  | Some _, Some ws =>
      if Api.workshop_expired e ws then (Err E_workshop_expired, s)
      else if js_le_zero (js_number (availableSeats ws))
      then (Err E_workshop_full, s)
      else if bool_decide (has_reservation u w s) then (Err E_already_reserved, s)
      else
        match reservations s !! pretty (now e) with
        | Some _ => (Threw, s)
        | None =>
            (Ok 201 (ReservationCreated (pretty (now e))
                       (mkReservation u w (now e)) (Some (seat_taken ws))),
             set_workshops (alter seat_taken w)
               (set_reservations
                  (insert (pretty (now e)) (mkReservation u w (now e))) s))
        end
  | _, _ => (Err E_user_or_workshop_not_found, s)
  end.
Proof.
  intros Hu Hw. unfold Api.post_reservations. rewrite Hu, Hw. cbn [negb orb].
  destruct (users s !! u); [|done].
  destruct (workshops s !! w) as [ws|] eqn:Hws; [|done].
  destruct (Api.workshop_expired e ws); [done|].
  destruct (js_le_zero _); [done|].
  destruct (select_reservation u w s) as [x|] eqn:Hsel.
  { apply select_reservation_has in Hsel. by rewrite bool_decide_eq_true_2. }
  apply select_reservation_None in Hsel as Hno.
  rewrite bool_decide_eq_false_2 by done.
  destruct (transaction _ s) as [s'|] eqn:Htx.
  - apply transaction_reserve in Htx as [Hid ->]. rewrite Hid.
    cbn [workshops set_workshops set_reservations].
    by rewrite lookup_alter_eq, Hws.
  - simpl in Htx. unfold insert_reservation in Htx. cbn [r_userId r_workshopId] in Htx.
    rewrite Hsel in Htx.
    by destruct (reservations s !! pretty (now e)).
Qed.

(** X1: the refusals of POST /reservations, in the order the handler
    makes them, each leaving the state as it is: an unknown user or
    workshop (404); a workshop dated before today; no seat left
    ([availableSeats <= 0] on the Number read from the row), checked
    before the duplicate check, so that a user who already holds a
    reservation of a full workshop is told "workshop full"; a reservation
    of the pair already there; and, with all of that passed, an exception
    when the id [String(Date.now())] is already a reservation id. *)
Theorem reserve_refusals_in_order (e : Env) (u w : string) (s : State) :
  truthy u = true → truthy w = true →
  (users s !! u = None ∨ workshops s !! w = None →
     Api.post_reservations e u w s = (Err E_user_or_workshop_not_found, s)) ∧
  (∀ ws, is_Some (users s !! u) → workshops s !! w = Some ws →
     (Api.workshop_expired e ws = true →
        Api.post_reservations e u w s = (Err E_workshop_expired, s)) ∧
     (Api.workshop_expired e ws = false →
      js_le_zero (js_number (availableSeats ws)) = true →
        Api.post_reservations e u w s = (Err E_workshop_full, s)) ∧
     (Api.workshop_expired e ws = false →
      js_le_zero (js_number (availableSeats ws)) = false →
      has_reservation u w s →
        Api.post_reservations e u w s = (Err E_already_reserved, s)) ∧
     (Api.workshop_expired e ws = false →
      js_le_zero (js_number (availableSeats ws)) = false →
      ¬ has_reservation u w s → is_Some (reservations s !! pretty (now e)) →
        Api.post_reservations e u w s = (Threw, s)) ∧
     (∀ a, availableSeats ws = Int a → safe_integer a →
        js_le_zero (js_number (availableSeats ws)) = bool_decide (a ≤ 0))).
Proof.
  intros Hu Hw. rewrite reserve_outcome by done. split.
  - intros [-> | Hws]; [done|]. rewrite Hws. by destruct (users s !! u).
  - intros ws [x ->] ->. split; [by intros ->|].
    split; [by intros -> ->|].
    split; [|split].
    + intros -> -> ?. by rewrite bool_decide_eq_true_2.
    + intros -> -> ? [r ->]. by rewrite bool_decide_eq_false_2.
    + intros a -> Ha. by apply js_le_zero_safe.
Qed.

Lemma reserve_refusals_in_order_witness :
  truthy "alice" = true ∧ truthy "W" = true ∧
  has_reservation "alice" "W" alice_reserved ∧
  Api.post_reservations (env_at 1500 "" "") "alice" "W" alice_reserved
    = (Err E_workshop_full, alice_reserved).
Proof.
  assert (Hres : has_reservation "alice" "W" alice_reserved).
  { exists "1000", (mkReservation "alice" "W" 1000). by vm_compute. }
  assert (Hus : is_Some (users alice_reserved !! "alice")) by (by eexists).
  destruct (reserve_refusals_in_order (env_at 1500 "" "") "alice" "W"
              alice_reserved eq_refl eq_refl) as [_ H].
  destruct (H (mkWorkshop None (Int 0) (Int 1)) Hus eq_refl)
    as (_ & Hfull & _).
  exact (conj eq_refl (conj eq_refl (conj Hres (Hfull eq_refl eq_refl)))).
Defined.

(** X2: what a successful POST /reservations has done: the workshop
    existed, the Number read from its availableSeats was not [<= 0], and
    the pair had no reservation; exactly one reservation row was added,
    under the id [String(Date.now())]; the workshop's availableSeats was
    replaced by [availableSeats - 1] as SQLite computes it, its
    totalSeats and date untouched; the response is 201 with the updated
    row; nothing else changed.  When the column held a whole number
    (an INTEGER that is a safe integer), that number was positive and the
    new one is exactly one less. *)
Theorem reserve_success_effect (e : Env) (u w : string) (s s' : State)
    (code : Z) (body : Reply) :
  Api.post_reservations e u w s = (Ok code body, s') →
  ∃ ws,
    is_Some (users s !! u) ∧ workshops s !! w = Some ws ∧
    js_le_zero (js_number (availableSeats ws)) = false ∧
    ¬ has_reservation u w s ∧
    reservations s !! pretty (now e) = None ∧
    code = 201 ∧
    body = ReservationCreated (pretty (now e)) (mkReservation u w (now e))
             (Some (mkWorkshop (date ws) (sql_add (availableSeats ws) (-1))
                               (totalSeats ws))) ∧
    reservations s'
      = <[pretty (now e) := mkReservation u w (now e)]> (reservations s) ∧
    workshops s'
      = <[w := mkWorkshop (date ws) (sql_add (availableSeats ws) (-1))
                          (totalSeats ws)]>
          (workshops s) ∧
    (∀ a, availableSeats ws = Int a → safe_integer a →
       0 < a ∧ sql_add (availableSeats ws) (-1) = Int (a - 1)) ∧
    has_reservation u w s' ∧
    active_reservations w s' = S (active_reservations w s) ∧
    users s' = users s ∧ attendance s' = attendance s ∧
    qr_tokens s' = qr_tokens s ∧ qrTokens s' = qrTokens s ∧
    sseClients s' = sseClients s ∧ wire s' = wire s.
Proof.
  destruct (truthy u) eqn:Hu; [|by unfold Api.post_reservations; rewrite Hu].
  destruct (truthy w) eqn:Hw.
  2: { unfold Api.post_reservations. rewrite Hu, Hw. done. }
  rewrite reserve_outcome by done.
  destruct (users s !! u) as [x|]; [|done].
  destruct (workshops s !! w) as [ws|] eqn:Hws; [|done].
  destruct (Api.workshop_expired e ws); [done|].
  destruct (js_le_zero _) eqn:Hfull; [done|].
  case_bool_decide as Hres; [done|].
  destruct (reservations s !! pretty (now e)) eqn:Hid; [done|].
  intros [= <- <- <-]. exists ws.
  split; [by eexists|]. split; [done|]. split; [done|].
  split; [done|]. split; [done|]. split; [done|].
  split; [done|]. split; [done|].
  split.
  { cbn [workshops set_workshops set_reservations].
    apply map_eq. intros i. destruct (decide (i = w)) as [->|Hne].
    - by rewrite lookup_alter_eq, lookup_insert_eq, Hws.
    - by rewrite lookup_alter_ne, lookup_insert_ne. }
  split.
  { intros a Ha Hsafe. rewrite Ha in Hfull |- *.
    rewrite js_le_zero_safe in Hfull by done.
    apply bool_decide_eq_false in Hfull. unfold safe_integer in Hsafe.
    split; [lia|]. by rewrite sql_add_Int by lia. }
  split.
  { exists (pretty (now e)), (mkReservation u w (now e)).
    cbn [reservations set_workshops set_reservations].
    by rewrite lookup_insert_eq. }
  split.
  { match goal with |- active_reservations w ?s1 = _ =>
      rewrite (active_reservations_insert (pretty (now e))
                 (mkReservation u w (now e)) s s1 w Hid eq_refl)
    end. by rewrite decide_True. }
  done.
Qed.

Lemma reserve_success_effect_witness :
  ∃ s',
    Api.post_reservations (env_at 1000 "" "") "alice" "W" one_seat
      = (Ok 201 (ReservationCreated "1000" (mkReservation "alice" "W" 1000)
                   (Some (mkWorkshop None (Int 0) (Int 1)))), s') ∧
    workshops s'
      = <["W" := mkWorkshop None (sql_add (Int 1) (-1)) (Int 1)]>
          (workshops one_seat) ∧
    sql_add (Int 1) (-1) = Int (1 - 1) ∧
    has_reservation "alice" "W" s'.
Proof.
  exists alice_reserved.
  assert (Hr : Api.post_reservations (env_at 1000 "" "") "alice" "W" one_seat
               = (Ok 201 (ReservationCreated "1000"
                            (mkReservation "alice" "W" 1000)
                            (Some (mkWorkshop None (Int 0) (Int 1)))),
                  alice_reserved))
    by (vm_compute; reflexivity).
  destruct (reserve_success_effect _ _ _ _ _ _ _ Hr)
    as (ws & _ & Hws & _ & _ & _ & _ & _ & _ & Hw' & Hone & Hres & _).
  injection Hws as <-.
  assert (Hsafe : safe_integer 1) by (unfold safe_integer; lia).
  exact (conj Hr (conj Hw' (conj (proj2 (Hone 1 eq_refl Hsafe)) Hres))).
Defined.

Lemma cancel_outcome u w s :
  truthy u = true → truthy w = true →
  Api.delete_reservations u w s =
  match select_reservation u w s with
  | None => (Err E_reservation_not_found, s)
  | Some existing =>
      (Ok 200 (ReservationCancelled
                 (seat_released <$> workshops s !! w)),
       set_workshops (alter seat_released w)
         (set_reservations (delete existing.1) s))
  end.
Proof.
  intros Hu Hw. unfold Api.delete_reservations. rewrite Hu, Hw. cbn [negb orb].
  destruct (select_reservation u w s) as [x|]; [|done].
  destruct (transaction _ s) as [s'|] eqn:Htx; [|done].
  apply transaction_cancel in Htx as ->.
  cbn [workshops set_workshops set_reservations].
  by rewrite lookup_alter_eq.
Qed.

(** On an INTEGER with room on both sides, taking a seat and releasing
    one undo each other. *)
Lemma seat_released_taken ws a :
  availableSeats ws = Int a → - 2 ^ 63 < a < 2 ^ 63 →
  seat_released (seat_taken ws) = ws.
Proof.
  destruct ws as [d av t]. cbn [availableSeats]. intros -> Ha.
  unfold seat_released, seat_taken. cbn [date availableSeats totalSeats].
  rewrite sql_add_Int by lia. rewrite sql_add_Int by lia.
  do 2 f_equal. lia.
Qed.

Lemma seat_taken_released ws a :
  availableSeats ws = Int a → - 2 ^ 63 ≤ a < 2 ^ 63 - 1 →
  seat_taken (seat_released ws) = ws.
Proof.
  destruct ws as [d av t]. cbn [availableSeats]. intros -> Ha.
  unfold seat_released, seat_taken. cbn [date availableSeats totalSeats].
  rewrite sql_add_Int by lia. rewrite sql_add_Int by lia.
  do 2 f_equal. lia.
Qed.

Lemma alter_alter_id {A} (f g : A → A) (m : gmap string A) i :
  (∀ x, m !! i = Some x → f (g x) = x) → alter f i (alter g i m) = m.
Proof.
  intros Hfg. apply map_eq. intros j. destruct (decide (j = i)) as [->|Hne].
  - rewrite !lookup_alter_eq.
    destruct (m !! i) eqn:Hi; simpl; [by rewrite Hfg|done].
  - by rewrite !lookup_alter_ne.
Qed.

(** The one row Cancel can find after a Reserve that succeeded. *)
Lemma select_after_insert u w s id r :
  ¬ has_reservation u w s → reservations s !! id = None →
  r_userId r = u → r_workshopId r = w →
  ∀ s1, reservations s1 = <[id:=r]> (reservations s) →
        select_reservation u w s1 = Some (id, r).
Proof.
  intros Hno Hid Hu Hw s1 Hs1.
  destruct (select_reservation u w s1) as [[id' r']|] eqn:Hsel.
  - apply select_reservation_Some in Hsel as (Hl & Hu' & Hw').
    rewrite Hs1 in Hl. apply lookup_insert_Some in Hl as [[<- <-]|[_ Hl]]; [done|].
    destruct Hno. by exists id', r'.
  - apply select_reservation_None in Hsel. destruct Hsel.
    exists id, r. by rewrite Hs1, lookup_insert_eq.
Qed.

(** X3: on a workshop whose availableSeats holds a whole number (an
    INTEGER strictly inside the 64-bit range), a Reserve that succeeded,
    followed by the Cancel of the same pair, gives back the state before
    the Reserve, in every table: the reservation row is gone and
    availableSeats is what it was. *)
Theorem reserve_then_cancel_restores (e : Env) (u w : string) (s s1 : State)
    (code : Z) (body : Reply) (ws : Workshop) (a : Z) :
  workshops s !! w = Some ws →
  availableSeats ws = Int a → - 2 ^ 63 < a < 2 ^ 63 →
  Api.post_reservations e u w s = (Ok code body, s1) →
  Api.delete_reservations u w s1
    = (Ok 200 (ReservationCancelled (workshops s !! w)), s).
Proof.
  intros Hws Ha Hrange.
  destruct (truthy u) eqn:Hu; [|by unfold Api.post_reservations; rewrite Hu].
  destruct (truthy w) eqn:Hw.
  2: { unfold Api.post_reservations. rewrite Hu, Hw. done. }
  rewrite reserve_outcome by done.
  destruct (users s !! u) as [x|]; [|done].
  rewrite Hws.
  destruct (Api.workshop_expired e ws); [done|].
  destruct (js_le_zero _); [done|].
  case_bool_decide as Hres; [done|].
  destruct (reservations s !! pretty (now e)) eqn:Hid; [done|].
  intros [= <- <- <-]. rewrite cancel_outcome by done.
  match goal with |- context [select_reservation u w ?s1] =>
    rewrite (select_after_insert u w s (pretty (now e))
               (mkReservation u w (now e)) Hres Hid eq_refl eq_refl s1 eq_refl)
  end.
  unfold set_workshops, set_reservations. simpl.
  rewrite lookup_alter_eq, Hws. simpl.
  rewrite (seat_released_taken ws a) by done.
  rewrite (alter_alter_id seat_released seat_taken).
  2: { intros ws' Hws'. rewrite Hws in Hws'. injection Hws' as <-.
       by apply (seat_released_taken ws a). }
  rewrite delete_insert_id by done.
  by destruct s.
Qed.

Lemma reserve_then_cancel_restores_witness :
  workshops one_seat !! "W" = Some (mkWorkshop None (Int 1) (Int 1)) ∧
  - 2 ^ 63 < 1 < 2 ^ 63 ∧
  Api.delete_reservations "alice" "W" alice_reserved
    = (Ok 200 (ReservationCancelled (workshops one_seat !! "W")), one_seat).
Proof.
  split; [reflexivity|]. split; [lia|].
  apply (reserve_then_cancel_restores (env_at 1000 "" "") "alice" "W" one_seat
           alice_reserved 201
           (ReservationCreated "1000" (mkReservation "alice" "W" 1000)
              (Some (mkWorkshop None (Int 0) (Int 1))))
           (mkWorkshop None (Int 1) (Int 1)) 1);
    [reflexivity|reflexivity|lia|].
  vm_compute. reflexivity.
Defined.

(** On a fractional availableSeats the same round trip does not give the
    row back: 0.3 - 1 + 1 is the next double after 0.3. *)
Example fractional_seats_drift :
  availableSeats <$> workshops fractional_workshop !! "1000"
    = Some (Real (S754_finite false 5404319552844595 (-54))) ∧
  is_success
    (Api.post_reservations (env_at 2000 "" "") "alice" "1000"
       fractional_workshop).1 ∧
  is_success
    (Api.delete_reservations "alice" "1000"
       (Api.post_reservations (env_at 2000 "" "") "alice" "1000"
          fractional_workshop).2).1 ∧
  availableSeats <$>
    workshops
      (Api.delete_reservations "alice" "1000"
         (Api.post_reservations (env_at 2000 "" "") "alice" "1000"
            fractional_workshop).2).2 !! "1000"
    = Some (Real (S754_finite false 5404319552844596 (-54))).
Proof.
  split; [vm_compute; reflexivity|]. split; [vm_compute; exact I|].
  split; [vm_compute; exact I|]. vm_compute. reflexivity.
Qed.

(** ** Every request, branch by branch *)

Lemma transaction_reserve_iff id r w s s' :
  transaction [insert_reservation id r; add_availableSeats (-1) w] s = Some s' →
  s' = set_workshops (alter seat_taken w) (set_reservations (insert id r) s) ∧
  reservations s !! id = None ∧
  ¬ has_reservation (r_userId r) (r_workshopId r) s.
Proof.
  intros Htx. pose proof Htx as [Hid ->]%transaction_reserve.
  split; [done|]. split; [done|].
  simpl in Htx. unfold insert_reservation in Htx. rewrite Hid in Htx.
  destruct (select_reservation _ _ s) eqn:Hsel; [done|].
  by apply select_reservation_None.
Qed.

Lemma insert_reservation_Some id r s s' :
  insert_reservation id r s = Some s' →
  s' = set_reservations (insert id r) s ∧
  reservations s !! id = None ∧
  ¬ has_reservation (r_userId r) (r_workshopId r) s.
Proof.
  unfold insert_reservation.
  destruct (reservations s !! id); [done|].
  destruct (select_reservation _ _ s) eqn:Hsel; [done|].
  intros [= <-]. split; [done|]. split; [done|].
  by apply select_reservation_None.
Qed.

(** Unfold a handler and split on every test it makes, replacing each
    statement that ran by the state it leaves. *)
Ltac split_handler :=
  repeat first
    [ progress simplify_eq/=
    | match goal with
      | H : transaction [insert_reservation _ _; add_availableSeats (-1) _] _
            = Some _ |- _ =>
          apply transaction_reserve_iff in H as (-> & ? & ?)
      | H : transaction [delete_reservation _; add_availableSeats 1 _] _
            = Some _ |- _ =>
          apply transaction_cancel in H as ->
      | H : transaction [insert_attendance _ _; mark_used _] _ = Some _ |- _ =>
          apply transaction_check_in in H as (? & ? & ->)
      | H : insert_reservation _ _ _ = Some _ |- _ =>
          apply insert_reservation_Some in H as (-> & ? & ?)
      | H : insert_attendance _ _ _ = Some _ |- _ =>
          apply insert_attendance_Some in H as (? & ? & ->)
      | H : insert_qr_token _ _ _ _ _ = Some _ |- _ =>
          apply insert_qr_token_Some in H as (? & ->)
      | H : insert_user _ _ _ = Some _ |- _ =>
          apply insert_user_Some in H as (? & ? & ->)
      | H : insert_workshop _ _ _ _ = Some _ |- _ =>
          apply insert_workshop_Some in H as (? & ? & ? & ->)
      end
    | case_bool_decide
    | case_match ].

Ltac unfold_handlers :=
  unfold Api.handle, Api.get_health, Api.post_register, Api.post_login,
    Api.get_workshops, Api.post_workshops, Api.post_reservations,
    Api.get_reservations, Api.delete_reservations, Api.get_admin_overview,
    Api.post_qr_generate, Api.post_qr_validate,
    Api.post_qr_generate_workshop, Api.post_qr_validate_workshop,
    Api.get_events, Api.close_events, Api.clean_expired_tokens.

(** Only POST /register changes the users table, and it only adds a row
    under a new id. *)
Lemma handle_users e r s :
  users (Api.handle e r s).2 = users s ∨
  ∃ n em pw, r = Api.PostRegister n em pw ∧
             users s !! pretty (now e) = None ∧
             users (Api.handle e r s).2
             = <[pretty (now e) := mkUser n em pw "user"]> (users s).
Proof.
  unfold_handlers. destruct r; split_handler; try (by left).
  right. by eexists _, _, _.
Qed.

Lemma handle_users_kept e r s : users s ⊆ users (Api.handle e r s).2.
Proof.
  destruct (handle_users e r s) as [->|(n & em & pw & _ & Hid & ->)]; [done|].
  by apply insert_subseteq.
Qed.

Lemma run_users_kept reqs s : users s ⊆ users (Api.run reqs s).
Proof.
  revert s. induction reqs as [|[e r] reqs IH]; intros s; [done|].
  change (Api.run ((e, r) :: reqs) s)
    with (Api.run reqs (Api.handle e r s).2).
  etrans; [apply (handle_users_kept e r)|apply IH].
Qed.

(** X4: an error response has changed no user, workshop, reservation or
    attendance row, no subscription, and has sent nothing; the token
    tables can only have lost rows; and apart from the three answers that
    delete the presented token ("Token expired", "QR token expired",
    user-scoped "Already checked in") the state is exactly the one
    before the request. *)
Theorem error_changes_nothing_durable (e : Env) (r : Api.Request) (s : State)
    (err : ApiError) :
  (Api.handle e r s).1 = Err err →
  users (Api.handle e r s).2 = users s ∧
  workshops (Api.handle e r s).2 = workshops s ∧
  reservations (Api.handle e r s).2 = reservations s ∧
  attendance (Api.handle e r s).2 = attendance s ∧
  sseClients (Api.handle e r s).2 = sseClients s ∧
  wire (Api.handle e r s).2 = wire s ∧
  qr_tokens (Api.handle e r s).2 ⊆ qr_tokens s ∧
  qrTokens (Api.handle e r s).2 ⊆ qrTokens s ∧
  (err ≠ E_token_expired → err ≠ E_qr_expired → err ≠ E_already_checked_in →
   (Api.handle e r s).2 = s).
Proof.
  unfold_handlers. destruct r; split_handler; intros;
    repeat split; try done; try apply delete_subseteq;
    intros; simplify_eq.
Qed.

Lemma error_changes_nothing_durable_witness :
  (Api.handle scan_env (Api.PostQrValidateWorkshop "T" "W" "alice") scan_state).1
    = Err E_already_checked_in_workshop ∧
  (Api.handle scan_env (Api.PostQrValidateWorkshop "T" "W" "alice") scan_state).2
    = scan_state.
Proof.
  assert (Hr : (Api.handle scan_env (Api.PostQrValidateWorkshop "T" "W" "alice")
                  scan_state).1 = Err E_already_checked_in_workshop)
    by (vm_compute; reflexivity).
  split; [exact Hr|].
  destruct (error_changes_nothing_durable scan_env
              (Api.PostQrValidateWorkshop "T" "W" "alice") scan_state _ Hr)
    as (_ & _ & _ & _ & _ & _ & _ & _ & Hsame).
  apply Hsame; discriminate.
Defined.

(** ** Invariants along every sequence of requests *)

Lemma handle_reservations e r s :
  reservations (Api.handle e r s).2 = reservations s ∨
  (∃ id r0, reservations s !! id = None ∧
            ¬ has_reservation (r_userId r0) (r_workshopId r0) s ∧
            reservations (Api.handle e r s).2 = <[id:=r0]> (reservations s)) ∨
  (∃ id, reservations (Api.handle e r s).2 = delete id (reservations s)).
Proof.
  unfold_handlers. destruct r; split_handler;
    first [ by left
          | right; left; eexists _, (mkReservation _ _ _); by repeat split
          | right; right; by eexists ].
Qed.

Lemma handle_unique_reservations e r s :
  unique_reservations s → unique_reservations (Api.handle e r s).2.
Proof.
  intros Hun.
  destruct (handle_reservations e r s)
    as [Heq|[(id & r0 & Hid & Hno & Heq)|[id Heq]]];
    intros id1 id2 r1 r2 H1 H2 Hu Hw; rewrite Heq in H1, H2.
  - by eapply Hun.
  - apply lookup_insert_Some in H1 as [[<- <-]|[Hne1 H1]];
      apply lookup_insert_Some in H2 as [[<- <-]|[Hne2 H2]].
    + done.
    + destruct Hno. exists id2, r2. by rewrite Hu, Hw.
    + destruct Hno. exists id1, r1. by rewrite <- Hu, <- Hw.
    + by eapply Hun.
  - apply lookup_delete_Some in H1 as [_ H1].
    apply lookup_delete_Some in H2 as [_ H2]. by eapply Hun.
Qed.

(** X5: UNIQUE(userId, workshopId) of the reservations table is kept by
    every sequence of requests through the handlers' own checks: no
    request ever leaves two reservations of one user for one workshop. *)
Theorem one_reservation_per_pair (reqs : list (Env * Api.Request)) (s : State) :
  unique_reservations s → Forall unique_reservations (Api.states reqs s).
Proof.
  apply states_invariant. intros. by apply handle_unique_reservations.
Qed.

Lemma one_reservation_per_pair_witness :
  unique_reservations one_seat ∧
  Forall unique_reservations (Api.states mixed_trace one_seat).
Proof.
  assert (Hun : unique_reservations one_seat).
  { intros id1 id2 r1 r2 H1. simpl in H1. by rewrite lookup_empty in H1. }
  exact (conj Hun (one_reservation_per_pair mixed_trace one_seat Hun)).
Defined.

Lemma workshops_kept_refl s : workshops_kept s s.
Proof. intros w ws Hw. by exists ws. Qed.

Lemma workshops_kept_trans s1 s2 s3 :
  workshops_kept s1 s2 → workshops_kept s2 s3 → workshops_kept s1 s3.
Proof.
  intros H12 H23 w ws Hw.
  destruct (H12 w ws Hw) as (ws2 & Hw2 & Ht2 & Hd2).
  destruct (H23 w ws2 Hw2) as (ws3 & Hw3 & Ht3 & Hd3).
  exists ws3. split; [done|]. split; congruence.
Qed.

Lemma workshops_kept_alter f w0 s s' :
  (∀ ws, totalSeats (f ws) = totalSeats ws ∧ date (f ws) = date ws) →
  workshops s' = alter f w0 (workshops s) → workshops_kept s s'.
Proof.
  intros Hf Hs' w ws Hw. rewrite Hs', lookup_alter. case_decide as Heq.
  - subst w0. rewrite Hw. exists (f ws). split; [done|]. apply Hf.
  - by exists ws.
Qed.

Lemma workshops_kept_same s s' :
  workshops s' = workshops s → workshops_kept s s'.
Proof. intros Heq w ws Hw. exists ws. by rewrite Heq. Qed.

Lemma handle_workshops_kept e r s : workshops_kept s (Api.handle e r s).2.
Proof.
  unfold_handlers. destruct r; split_handler;
    first [ by apply workshops_kept_same
          | by eapply (workshops_kept_alter seat_taken)
          | by eapply (workshops_kept_alter seat_released)
          | idtac ].
  all: try (intros w ws Hw; simpl; exists ws; split; [|done];
            rewrite lookup_insert_ne; [done|]; intros <-; congruence).
Qed.

(** X6: no sequence of requests removes or changes a row of the users
    table (POST /register is the only route that writes to it, and it
    only adds rows: a sequence without it leaves the table as it is),
    removes a workshop, or changes the totalSeats or the date of a
    workshop that exists: of a workshop row only availableSeats ever
    moves. *)
Theorem users_and_capacity_kept (reqs : list (Env * Api.Request)) (s : State) :
  Forall (λ s', users s ⊆ users s' ∧ workshops_kept s s') (Api.states reqs s) ∧
  (Forall (λ er, ∀ n em pw, er.2 ≠ Api.PostRegister n em pw) reqs →
   Forall (λ s', users s' = users s) (Api.states reqs s)).
Proof.
  split.
  - apply (states_invariant (λ s', users s ⊆ users s' ∧ workshops_kept s s')).
    + intros e r s' [Hu Hk]. split.
      * etrans; [done|]. apply handle_users_kept.
      * eapply workshops_kept_trans; [done|]. apply handle_workshops_kept.
    + split; [done|]. apply workshops_kept_refl.
  - revert s. induction reqs as [|[e r] reqs IH]; intros s Hreqs; simpl.
    + by constructor.
    + apply Forall_cons in Hreqs as [Hr Hreqs]. constructor; [done|].
      destruct (handle_users e r s) as [Heq|(n & em & pw & -> & _)].
      * rewrite <- Heq. by apply IH.
      * by destruct (Hr n em pw).
Qed.

Lemma users_and_capacity_kept_witness :
  Forall (λ er, ∀ n em pw, er.2 ≠ Api.PostRegister n em pw)
         (take 11 mixed_trace) ∧
  Forall (λ s', users s' = users one_seat)
         (Api.states (take 11 mixed_trace) one_seat) ∧
  users (Api.run mixed_trace one_seat) !! "43000"
    = Some (mkUser "Carol" "carol@example.org" "c" "user").
Proof.
  assert (Hreqs : Forall (λ er, ∀ n em pw, er.2 ≠ Api.PostRegister n em pw)
                         (take 11 mixed_trace))
    by (repeat constructor; intros; discriminate).
  split; [exact Hreqs|]. split; [|vm_compute; reflexivity].
  exact (proj2 (users_and_capacity_kept (take 11 mixed_trace) one_seat) Hreqs).
Defined.

(** ** What is written to the subscribers *)

Lemma broadcast_to_clients ev d clients m :
  m ∈ broadcast ev d clients → m.1 ∈ clients ∧ m.2 = mkSse ev d.
Proof.
  unfold broadcast. intros (c & -> & Hc)%list_elem_of_fmap. done.
Qed.

Lemma handle_wire e r s :
  ∃ sent, wire (Api.handle e r s).2 = wire s ++ sent ∧
          ∀ m, m ∈ sent → m.1 ∈ sseClients s.
Proof.
  unfold_handlers. destruct r; split_handler;
    try (exists []; split; [by rewrite app_nil_r|by intros m ?%elem_of_nil]).
  - eexists. split; [reflexivity|].
    intros m Hm. by apply (broadcast_to_clients "attendance") in Hm as [? _].
  - eexists. split; [symmetry; apply app_assoc|].
    intros m [Hm|Hm]%elem_of_app.
    + by apply (broadcast_to_clients "attendance") in Hm as [? _].
    + by apply (broadcast_to_clients "qr_used") in Hm as [? _].
  - eexists. split; [symmetry; apply app_assoc|].
    intros m [Hm|Hm]%elem_of_app.
    + by apply (broadcast_to_clients "attendance") in Hm as [? _].
    + by apply (broadcast_to_clients "qr_used") in Hm as [? _].
Qed.

Lemma filter_none {A} (P : A → Prop) `{!∀ x, Decision (P x)} (l : list A) :
  (∀ x, x ∈ l → ¬ P x) → filter P l = [].
Proof.
  induction l as [|x l IH]; intros Hall; [done|].
  rewrite filter_cons, decide_False by (apply Hall; left).
  apply IH. intros y Hy. apply Hall. by right.
Qed.

Lemma received_app c s s' sent :
  wire s' = wire s ++ sent →
  received c s' = received c s ++ (filter (λ m, m.1 = c) sent).*2.
Proof. intros Hw. unfold received. by rewrite Hw, filter_app, fmap_app. Qed.

(** X7: the record of writes to the subscribers only ever grows at its
    end, along every sequence of requests, and a request writes only to
    clients that were subscribed when it arrived: a client that connects
    later is never sent an event published before. *)
Theorem events_never_retroactive (e : Env) (r : Api.Request) (s : State)
    (reqs : list (Env * Api.Request)) (c : nat) :
  Forall (λ s', wire s `prefix_of` wire s') (Api.states reqs s) ∧
  (c ∉ sseClients s → received c (Api.handle e r s).2 = received c s).
Proof.
  split.
  - apply (states_invariant (λ s', wire s `prefix_of` wire s')); [|done].
    intros e' r' s' [k Hk].
    destruct (handle_wire e' r' s') as (sent & -> & _).
    exists (k ++ sent). by rewrite Hk, app_assoc.
  - intros Hc. destruct (handle_wire e r s) as (sent & Hw & Hsent).
    rewrite (received_app c s _ sent Hw).
    rewrite (filter_none (λ m : nat * SseMessage, m.1 = c) sent).
    + by rewrite app_nil_r.
    + intros m Hm Heq. apply Hc. rewrite <- Heq. by apply Hsent.
Qed.

Lemma events_never_retroactive_witness :
(9%nat ∉ sseClients scan_state) ∧
  is_success
    (Api.handle scan_env (Api.PostQrValidateWorkshop "T" "W" "bob") scan_state).1 ∧
  received 9
    (Api.handle scan_env (Api.PostQrValidateWorkshop "T" "W" "bob") scan_state).2
    = received 9 scan_state.
Proof.
  assert (Hc : 9%nat ∉ sseClients scan_state).
  { simpl. intros [=]%list_elem_of_singleton. }
  split; [exact Hc|]. split; [vm_compute; exact I|].
  exact (proj2 (events_never_retroactive scan_env
                  (Api.PostQrValidateWorkshop "T" "W" "bob") scan_state [] 9) Hc).
Defined.





(** ** The user-scoped token, from issue to check-in *)

Lemma validate_user_token_success_inv unknown e token s code body s' :
  validate_user_token unknown e token s = (Ok code body, s') →
  ∃ td user,
    truthy token = true ∧
    qrTokens s !! token = Some td ∧ ¬ t_expiresAt td < now e ∧
    users s !! t_userId td = Some user ∧
    ¬ has_attendance (t_userId td) (t_workshopId td) s ∧
    attendance s !! pretty (now e) = None ∧
    code = 200 ∧
    body = CheckedIn (t_userId td) (t_workshopId td) (now e) ∧
    s' = user_checked_in e token td user s.
Proof.
  unfold validate_user_token.
  destruct (truthy token) eqn:Ht; [|done]. cbn [negb].
  destruct (qrTokens s !! token) as [td|]; [|done].
  case_bool_decide as Hexp; [done|].
  destruct (users s !! t_userId td) as [user|] eqn:Hus; [|done].
  case_bool_decide as Hatt; [done|].
  destruct (attendance s !! pretty (now e)) eqn:Hid; [done|].
  intros [= <- <- <-]. by exists td, user.
Qed.

Lemma validate_user_token_success unknown e token s td user :
  truthy token = true →
  qrTokens s !! token = Some td → ¬ t_expiresAt td < now e →
  users s !! t_userId td = Some user →
  ¬ has_attendance (t_userId td) (t_workshopId td) s →
  attendance s !! pretty (now e) = None →
  validate_user_token unknown e token s
  = (Ok 200 (CheckedIn (t_userId td) (t_workshopId td) (now e)),
     user_checked_in e token td user s).
Proof.
  intros Ht Htd Hexp Hus Hatt Hid. unfold validate_user_token.
  rewrite Ht, Htd. cbn [negb].
  rewrite bool_decide_eq_false_2 by done. rewrite Hus.
  rewrite bool_decide_eq_false_2 by done. by rewrite Hid.
Qed.

(** X9: what a successful user-scoped check-in has done, on either
    server: the token was in the Map and not expired, its user exists and
    had no attendance record for the workshop; one attendance row was
    added under the id [String(Date.now())]; the token was deleted; every
    subscriber was written one "attendance" message with the user's
    name and email; reservations, seats and the workshop tokens were not
    touched. *)
Theorem user_check_in_effect (e : Env) (token : string) (s s' : State)
    (code : Z) (body : Reply) :
  Api.post_qr_validate e token s = (Ok code body, s') ∨
  ServerIndex.post_qr_validate e token s = (Ok code body, s') →
  ∃ td user,
    qrTokens s !! token = Some td ∧ ¬ t_expiresAt td < now e ∧
    users s !! t_userId td = Some user ∧
    ¬ has_attendance (t_userId td) (t_workshopId td) s ∧
    body = CheckedIn (t_userId td) (t_workshopId td) (now e) ∧
    attendance s'
      = <[pretty (now e) := mkAttendance (t_userId td) (t_workshopId td) (now e)]>
          (attendance s) ∧
    qrTokens s' = delete token (qrTokens s) ∧
    wire s' = wire s
              ++ broadcast "attendance"
                   (AttendanceData (pretty (now e)) (t_userId td) (name user)
                      (email user) (t_workshopId td) (now e))
                   (sseClients s) ∧
    users s' = users s ∧ workshops s' = workshops s ∧
    reservations s' = reservations s ∧ qr_tokens s' = qr_tokens s ∧
    sseClients s' = sseClients s.
Proof.
  rewrite api_validate_user_token, server_index_validate_user_token.
  intros [H|H];
    apply validate_user_token_success_inv in H
      as (td & user & _ & Htd & Hexp & Hus & Hatt & _ & _ & -> & ->);
    exists td, user; by repeat split.
Qed.

Lemma user_check_in_effect_witness :
  ∃ s',
    Api.post_qr_validate (env_at 3000 "" "") "TA" scenario_b_issued
      = (Ok 200 (CheckedIn "alice" "W" 3000), s') ∧
    qrTokens s' = delete "TA" (qrTokens scenario_b_issued) ∧
    wire s' = wire scenario_b_issued
              ++ [(7%nat, mkSse "attendance"
                            (AttendanceData "3000" "alice" "Alice"
                               "alice@example.org" "W" 3000))].
Proof.
  exists (Api.post_qr_validate (env_at 3000 "" "") "TA" scenario_b_issued).2.
  assert (Hr : Api.post_qr_validate (env_at 3000 "" "") "TA" scenario_b_issued
               = (Ok 200 (CheckedIn "alice" "W" 3000),
                  (Api.post_qr_validate (env_at 3000 "" "") "TA"
                     scenario_b_issued).2))
    by (vm_compute; reflexivity).
  destruct (user_check_in_effect _ _ _ _ _ _ (or_introl Hr))
    as (td & user & Htd & _ & Hus & _ & _ & _ & Hq & Hw & _).
  assert (Htd' : qrTokens scenario_b_issued !! "TA"
                 = Some (mkTokenData "alice" "W" 32000))
    by (vm_compute; reflexivity).
  rewrite Htd' in Htd. injection Htd as <-.
  assert (Hus' : users scenario_b_issued !! "alice" = Some alice)
    by (vm_compute; reflexivity).
  simpl in Hus. rewrite Hus' in Hus. injection Hus as <-.
  exact (conj Hr (conj Hq Hw)).
Defined.

Lemma generate_user_token_outcome e u w s :
  truthy u = true → truthy w = true → has_reservation u w s →
  Api.post_qr_generate e u w s
  = (Ok 200 (TokenIssued (randomBytes e) (now e + 30000)),
     set_qrTokens
       (insert (randomBytes e) (mkTokenData u w (now e + 30000))) s) ∧
  ServerIndex.post_qr_generate e u w s
  = (Ok 200 (TokenIssued (randomBytes e) (now e + 10000)),
     set_qrTokens
       (insert (randomBytes e) (mkTokenData u w (now e + 10000))) s).
Proof.
  intros Hu Hw [x Hsel]%has_reservation_select.
  unfold Api.post_qr_generate, ServerIndex.post_qr_generate.
  by rewrite Hu, Hw, Hsel.
Qed.

Lemma issued_token_fate unknown e' tok u w x user s :
  truthy tok = true → users s !! u = Some user →
  ¬ has_attendance u w s → attendance s !! pretty (now e') = None →
  (¬ x < now e' →
     is_success
       (validate_user_token unknown e' tok
          (set_qrTokens (insert tok (mkTokenData u w x)) s)).1 ∧
     has_attendance u w
       (validate_user_token unknown e' tok
          (set_qrTokens (insert tok (mkTokenData u w x)) s)).2) ∧
  (x < now e' →
     validate_user_token unknown e' tok
       (set_qrTokens (insert tok (mkTokenData u w x)) s)
     = (Err E_token_expired,
        set_qrTokens (delete tok)
          (set_qrTokens (insert tok (mkTokenData u w x)) s))).
Proof.
  intros Ht Hus Hatt Hid. split.
  - intros Hexp.
    rewrite (validate_user_token_success unknown e' tok _ (mkTokenData u w x) user);
      try done.
    + split; [done|].
      exists (pretty (now e')), (mkAttendance u w (now e')). simpl.
      by rewrite lookup_insert_eq.
    + simpl. apply lookup_insert_eq.
  - intros Hexp. unfold validate_user_token. rewrite Ht. cbn [negb].
    cbn [qrTokens set_qrTokens]. rewrite lookup_insert_eq.
    by rewrite bool_decide_eq_true_2.
Qed.

(** X10: a user-scoped token lives 30 s on the later server and 10 s on
    [src/server/index.js]: issued at [now] to a user with a reservation
    and no attendance record, it checks the user in when presented at
    any time up to and including [now + lifetime], and past that it is
    answered "Token expired" and deleted. *)
Theorem user_token_lifetime (e e' : Env) (u w : string) (s : State) (user : User) :
  truthy u = true → truthy w = true → truthy (randomBytes e) = true →
  users s !! u = Some user → has_reservation u w s →
  ¬ has_attendance u w s → attendance s !! pretty (now e') = None →
  (Api.post_qr_generate e u w s).1
    = Ok 200 (TokenIssued (randomBytes e) (now e + 30000)) ∧
  (ServerIndex.post_qr_generate e u w s).1
    = Ok 200 (TokenIssued (randomBytes e) (now e + 10000)) ∧
  (now e' ≤ now e + 30000 →
     is_success (Api.post_qr_validate e' (randomBytes e)
                   (Api.post_qr_generate e u w s).2).1 ∧
     has_attendance u w (Api.post_qr_validate e' (randomBytes e)
                           (Api.post_qr_generate e u w s).2).2) ∧
  (now e + 30000 < now e' →
     (Api.post_qr_validate e' (randomBytes e)
        (Api.post_qr_generate e u w s).2).1 = Err E_token_expired ∧
     qrTokens (Api.post_qr_validate e' (randomBytes e)
                 (Api.post_qr_generate e u w s).2).2 !! randomBytes e = None) ∧
  (now e' ≤ now e + 10000 →
     is_success (ServerIndex.post_qr_validate e' (randomBytes e)
                   (ServerIndex.post_qr_generate e u w s).2).1 ∧
     has_attendance u w (ServerIndex.post_qr_validate e' (randomBytes e)
                           (ServerIndex.post_qr_generate e u w s).2).2) ∧
  (now e + 10000 < now e' →
     (ServerIndex.post_qr_validate e' (randomBytes e)
        (ServerIndex.post_qr_generate e u w s).2).1 = Err E_token_expired ∧
     qrTokens (ServerIndex.post_qr_validate e' (randomBytes e)
                 (ServerIndex.post_qr_generate e u w s).2).2 !! randomBytes e
       = None).
Proof.
  intros Hu Hw Ht Hus Hres Hatt Hid.
  destruct (generate_user_token_outcome e u w s Hu Hw Hres) as [-> ->].
  rewrite api_validate_user_token, server_index_validate_user_token.
  cbn [fst snd].
  destruct (issued_token_fate E_invalid_token_format e' (randomBytes e) u w
              (now e + 30000) user s Ht Hus Hatt Hid) as [Hok Hexp].
  destruct (issued_token_fate E_invalid_or_expired_token e' (randomBytes e) u w
              (now e + 10000) user s Ht Hus Hatt Hid) as [Hok' Hexp'].
  split; [done|]. split; [done|].
  split; [intros; apply Hok; lia|].
  split.
  { intros Hlate. rewrite Hexp by done. split; [done|]. simpl.
    apply lookup_delete_eq. }
  split; [intros; apply Hok'; lia|].
  intros Hlate. rewrite Hexp' by done. split; [done|]. simpl.
  apply lookup_delete_eq.
Qed.

Lemma user_token_lifetime_witness :
  has_reservation "alice" "W" alice_reserved ∧
  ¬ has_attendance "alice" "W" alice_reserved ∧
  is_success
    (Api.post_qr_validate (env_at 32000 "" "") "TA"
       (Api.post_qr_generate (env_at 2000 "TA" "") "alice" "W" alice_reserved).2).1 ∧
  (Api.post_qr_validate (env_at 32001 "" "") "TA"
     (Api.post_qr_generate (env_at 2000 "TA" "") "alice" "W" alice_reserved).2).1
  = Err E_token_expired ∧
  (ServerIndex.post_qr_validate (env_at 32000 "" "") "TA"
     (ServerIndex.post_qr_generate (env_at 2000 "TA" "") "alice" "W"
        alice_reserved).2).1
  = Err E_token_expired.
Proof.
  assert (Hres : has_reservation "alice" "W" alice_reserved).
  { exists "1000", (mkReservation "alice" "W" 1000). by vm_compute. }
  assert (Hatt : ¬ has_attendance "alice" "W" alice_reserved).
  { apply select_attendance_None. vm_compute. reflexivity. }
  assert (Hus : users alice_reserved !! "alice" = Some alice)
    by (vm_compute; reflexivity).
  destruct (user_token_lifetime (env_at 2000 "TA" "") (env_at 32000 "" "")
              "alice" "W" alice_reserved alice eq_refl eq_refl eq_refl Hus
              Hres Hatt eq_refl) as (_ & _ & Hok & _ & _ & Hlate10).
  destruct (user_token_lifetime (env_at 2000 "TA" "") (env_at 32001 "" "")
              "alice" "W" alice_reserved alice eq_refl eq_refl eq_refl Hus
              Hres Hatt eq_refl) as (_ & _ & _ & Hlate30 & _).
  assert (H1 : now (env_at 32000 "" "") ≤ now (env_at 2000 "TA" "") + 30000)
    by (simpl; lia).
  assert (H2 : now (env_at 2000 "TA" "") + 30000 < now (env_at 32001 "" ""))
    by (simpl; lia).
  assert (H3 : now (env_at 2000 "TA" "") + 10000 < now (env_at 32000 "" ""))
    by (simpl; lia).
  exact (conj Hres (conj Hatt (conj (proj1 (Hok H1))
           (conj (proj1 (Hlate30 H2)) (proj1 (Hlate10 H3)))))).
Defined.

(** ** The 30 s sweep of the in-memory tokens *)

Lemma validate_user_token_same_answer unknown e token s s' :
  qrTokens s' !! token = qrTokens s !! token →
  users s' = users s → attendance s' = attendance s →
  (validate_user_token unknown e token s').1
  = (validate_user_token unknown e token s).1.
Proof.
  intros Htok Hus Hatt. unfold validate_user_token.
  destruct (negb (truthy token)); [done|]. rewrite Htok.
  destruct (qrTokens s !! token) as [td|]; [|done].
  case_bool_decide; [done|]. rewrite Hus.
  destruct (users s !! t_userId td); [|done].
  assert (Hb : bool_decide (has_attendance (t_userId td) (t_workshopId td) s')
               = bool_decide (has_attendance (t_userId td) (t_workshopId td) s)).
  { apply bool_decide_ext. unfold has_attendance. by rewrite Hatt. }
  rewrite Hb. clear Hb. case_bool_decide; [done|]. rewrite Hatt.
  by destruct (attendance s !! pretty (now e)).
Qed.

(** X11: the sweep keeps exactly the entries of [qrTokens] that are not
    expired at its time and touches nothing else.  It changes no answer
    for a token it keeps; a token it removes is from then on answered as
    an unknown token ("Invalid token format...", kind InvalidToken),
    whereas without the sweep the same late presentation is answered
    "Token expired". *)
Theorem sweep_keeps_live_tokens (e e' : Env) (token : string) (s : State) :
  (∀ td, qrTokens (Api.clean_expired_tokens e s).2 !! token = Some td ↔
         qrTokens s !! token = Some td ∧ ¬ t_expiresAt td < now e) ∧
  (users (Api.clean_expired_tokens e s).2 = users s ∧
   workshops (Api.clean_expired_tokens e s).2 = workshops s ∧
   reservations (Api.clean_expired_tokens e s).2 = reservations s ∧
   attendance (Api.clean_expired_tokens e s).2 = attendance s ∧
   qr_tokens (Api.clean_expired_tokens e s).2 = qr_tokens s ∧
   sseClients (Api.clean_expired_tokens e s).2 = sseClients s ∧
   wire (Api.clean_expired_tokens e s).2 = wire s) ∧
  (∀ td, qrTokens s !! token = Some td → ¬ t_expiresAt td < now e →
     (Api.post_qr_validate e' token (Api.clean_expired_tokens e s).2).1
     = (Api.post_qr_validate e' token s).1) ∧
  (∀ td, truthy token = true → qrTokens s !! token = Some td →
         t_expiresAt td < now e → now e ≤ now e' →
     (Api.post_qr_validate e' token s).1 = Err E_token_expired ∧
     Api.post_qr_validate e' token (Api.clean_expired_tokens e s).2
     = (Err E_invalid_token_format, (Api.clean_expired_tokens e s).2)).
Proof.
  split; [|split; [done|split]].
  - intros td. simpl. rewrite map_lookup_filter_Some. done.
  - intros td Htd Hexp. rewrite !api_validate_user_token.
    apply validate_user_token_same_answer; try done.
    simpl. rewrite Htd. apply map_lookup_filter_Some. split; [done|].
    unfold Api.token_alive. simpl. exact Hexp.
  - intros td Ht Htd Hexp Hle. rewrite !api_validate_user_token. split.
    + unfold validate_user_token. rewrite Ht, Htd. cbn [negb].
      rewrite bool_decide_eq_true_2; [done|lia].
    + apply validate_user_token_gone; [done|]. simpl.
      apply map_lookup_filter_None. right. intros td' Htd'.
      rewrite Htd in Htd'. injection Htd' as <-.
      unfold Api.token_alive. simpl. tauto.
Qed.

Lemma sweep_keeps_live_tokens_witness :
  qrTokens scenario_b_issued !! "TA" = Some (mkTokenData "alice" "W" 32000) ∧
  (Api.post_qr_validate (env_at 50000 "" "") "TA" scenario_b_issued).1
    = Err E_token_expired ∧
  (Api.post_qr_validate (env_at 50000 "" "") "TA"
     (Api.clean_expired_tokens (env_at 40000 "" "") scenario_b_issued).2).1
    = Err E_invalid_token_format.
Proof.
  assert (Htd : qrTokens scenario_b_issued !! "TA"
                = Some (mkTokenData "alice" "W" 32000))
    by (vm_compute; reflexivity).
  destruct (sweep_keeps_live_tokens (env_at 40000 "" "") (env_at 50000 "" "")
              "TA" scenario_b_issued) as (_ & _ & _ & H).
  assert (H1 : t_expiresAt (mkTokenData "alice" "W" 32000)
               < now (env_at 40000 "" "")) by (simpl; lia).
  assert (H2 : now (env_at 40000 "" "") ≤ now (env_at 50000 "" ""))
    by (simpl; lia).
  destruct (H _ eq_refl Htd H1 H2) as [Hexp Hinv].
  split; [exact Htd|]. split; [exact Hexp|]. by rewrite Hinv.
Defined.

(** ** The workshop-scoped token, from issue to check-in *)

(** X12: what a successful POST /qr/generate-workshop has done: the
    workshop exists; the new token is stored unused with
    [expiresAt = now + random_ms + 10000], that is 10 to 30 s ahead; it
    is the only row of that workshop; every other row left is a row of
    another workshop that was there before and whose expiresAt does not
    sort before [String(now)] as text (the DELETE compares the TEXT
    column with a string, so this is the order of the digit strings, not
    of the numbers); the answer carries the token and the workshop's
    attendance count (and no expiry time); no other table changed. *)
Theorem generate_workshop_effect (e : Env) (w : string) (s s' : State)
    (code : Z) (body : Reply) :
  Api.post_qr_generate_workshop e w s = (Ok code body, s') →
  is_Some (workshops s !! w) ∧
  body = WorkshopTokenIssued (randomBytes e)
           (size (filter (Api.attendance_in w) (attendance s))) ∧
  qr_tokens s' !! randomBytes e
    = Some (mkQrRow w (now e) (now e + random_ms e + 10000) false) ∧
  (0 ≤ random_ms e < 20000 →
     now e + 10000 ≤ now e + random_ms e + 10000 < now e + 30000) ∧
  (∀ t q, qr_tokens s' !! t = Some q → q_workshopId q = w →
          t = randomBytes e) ∧
  (∀ t q, t ≠ randomBytes e →
          (qr_tokens s' !! t = Some q ↔
           qr_tokens s !! t = Some q ∧
           Api.text_lt (pretty (q_expiresAt q)) (pretty (now e)) = false ∧
           q_workshopId q ≠ w)) ∧
  users s' = users s ∧ workshops s' = workshops s ∧
  reservations s' = reservations s ∧ attendance s' = attendance s ∧
  qrTokens s' = qrTokens s ∧ sseClients s' = sseClients s ∧ wire s' = wire s.
Proof.
  unfold Api.post_qr_generate_workshop.
  destruct (negb (truthy w)); [done|].
  destruct (workshops s !! w) as [ws|] eqn:Hws; [|done]. cbn zeta.
  destruct (insert_qr_token _ _ _ _ _) as [s2|] eqn:Hins; [|done].
  apply insert_qr_token_Some in Hins as [Hfresh ->].
  intros [= <- <- <-].
  split; [by eexists|]. split; [done|].
  split; [simpl; apply lookup_insert_eq|].
  split; [lia|].
  split.
  { intros t q Hq Hqw. simpl in Hq.
    apply lookup_insert_Some in Hq as [[<- _]|[_ Hq]]; [done|].
    apply map_lookup_filter_Some in Hq as [_ Hkept]. destruct Hkept. by right. }
  split; [|done].
  intros t q Hne. simpl. rewrite lookup_insert_ne by done.
  rewrite map_lookup_filter_Some. unfold Api.qr_kept, Api.expired_as_text.
  cbn [snd]. destruct (Api.text_lt _ _).
  - split; [intros [_ Hk]; destruct Hk; by left|by intros (_ & ? & _)].
  - split.
    + intros [Hq Hk]. split; [done|]. split; [done|].
      intros Heq. apply Hk. by right.
    + intros (Hq & _ & Hw). split; [done|]. by intros [?|?].
Qed.

(** The order of the digit strings is not the order of the numbers: at
    7000 a token of another workshop that expires at 20000 is deleted,
    and at 10000 one that expired at 9000 is kept. *)
Example text_order_of_timestamps :
  Api.expired_as_text 7000 (mkQrRow "V" 6000 20000 false) = true ∧
  ¬ Api.qr_kept 7000 "W" ("T", mkQrRow "V" 6000 20000 false) ∧
  Api.expired_as_text 10000 (mkQrRow "V" 1000 9000 false) = false ∧
  Api.qr_kept 10000 "W" ("T", mkQrRow "V" 1000 9000 false).
Proof.
  split; [reflexivity|]. split; [intros H; apply H; by left|].
  split; [reflexivity|]. intros [H|H]; discriminate.
Qed.

Lemma generate_workshop_effect_witness :
  ∃ s',
    Api.post_qr_generate_workshop (mkEnv 7000 0 "P" "" "" 100) "W" scan_state
      = (Ok 200 (WorkshopTokenIssued "P" 1), s') ∧
    qr_tokens s' !! "P" = Some (mkQrRow "W" 7000 17100 false) ∧
    ∀ t q, qr_tokens s' !! t = Some q → q_workshopId q = "W" → t = "P".
Proof.
  exists (Api.post_qr_generate_workshop (mkEnv 7000 0 "P" "" "" 100) "W"
            scan_state).2.
  assert (Hr : Api.post_qr_generate_workshop (mkEnv 7000 0 "P" "" "" 100) "W"
                 scan_state
               = (Ok 200 (WorkshopTokenIssued "P" 1),
                  (Api.post_qr_generate_workshop (mkEnv 7000 0 "P" "" "" 100)
                     "W" scan_state).2))
    by (vm_compute; reflexivity).
  destruct (generate_workshop_effect _ _ _ _ _ _ Hr)
    as (_ & _ & Hrow & _ & Honly & _).
  exact (conj Hr (conj Hrow Honly)).
Defined.

Lemma handle_spent e r s t :
  randomBytes e ≠ t → spent t s → spent t (Api.handle e r s).2.
Proof.
  intros Hne Hsp. unfold_handlers. destruct r; split_handler; try done;
    intros row Hrow; simpl in Hrow;
    repeat match goal with
      | H : <[_:=_]> _ !! t = Some _ |- _ =>
          apply lookup_insert_Some in H as [[? _]|[_ H]]; [done|]
      | H : filter _ _ !! t = Some _ |- _ =>
          apply map_lookup_filter_Some in H as [H _]
      | H : delete _ _ !! t = Some _ |- _ =>
          apply lookup_delete_Some in H as [_ H]
      | H : alter _ _ _ !! t = Some _ |- _ =>
          apply lookup_alter_Some in H as [(_ & ? & _ & ->)|[_ H]]; [done|]
      end;
    by apply Hsp.
Qed.

Lemma spent_along reqs : ∀ s t,
  never_drawn t reqs → spent t s → Forall (spent t) (Api.states reqs s).
Proof.
  induction reqs as [|[e r] reqs IH]; intros s t Hnd Hsp; simpl.
  - by constructor.
  - apply Forall_cons in Hnd as [Hne Hnd]. constructor; [done|].
    apply IH; [done|]. by apply handle_spent.
Qed.

(** X13: a workshop token checks in at most one attendee.  After a
    successful check-in the presented token is spent (its row is marked
    used); a spent token stays spent along every sequence of requests
    that does not draw the same random token again; and a check-in with a
    spent token never succeeds, whoever presents it. *)
Theorem workshop_token_single_use (e : Env) (token w u : string) (s : State)
    (reqs : list (Env * Api.Request)) :
  (is_success (Api.post_qr_validate_workshop e token w u s).1 →
     spent token (Api.post_qr_validate_workshop e token w u s).2) ∧
  (never_drawn token reqs → spent token s →
     Forall (spent token) (Api.states reqs s)) ∧
  (spent token s →
     ¬ is_success (Api.post_qr_validate_workshop e token w u s).1).
Proof.
  split; [|split].
  - destruct (Api.post_qr_validate_workshop e token w u s) as [[code body| |] s']
      eqn:Hr; try done.
    intros _.
    apply validate_workshop_success_inv in Hr
      as (user & q & _ & _ & Hq & _ & Hused & _ & _ & Hid & Hfresh & _ & _ & ->).
    destruct (check_in_applied_rotated e token w u user s q Hid Hq Hused Hfresh)
      as (_ & _ & _ & q' & Hq' & Hused').
    intros q'' Hq''. simpl in *. congruence.
  - apply spent_along.
  - intros Hsp Hok.
    destruct (Api.post_qr_validate_workshop e token w u s) as [[code body| |] s']
      eqn:Hr; try done.
    apply validate_workshop_success_inv in Hr
      as (user & q & _ & _ & Hq & _ & Hused & _).
    rewrite (Hsp q Hq) in Hused. done.
Qed.

Lemma workshop_token_single_use_witness :
  is_success
    (Api.post_qr_validate_workshop scan_env "T" "W" "bob" scan_state).1 ∧
  never_drawn "T" mixed_trace ∧
  Forall (spent "T")
    (Api.states mixed_trace
       (Api.post_qr_validate_workshop scan_env "T" "W" "bob" scan_state).2).
Proof.
  assert (Hok : is_success
            (Api.post_qr_validate_workshop scan_env "T" "W" "bob" scan_state).1)
    by (vm_compute; exact I).
  assert (Hnd : never_drawn "T" mixed_trace).
  { unfold never_drawn, mixed_trace. repeat constructor; discriminate. }
  destruct (workshop_token_single_use scan_env "T" "W" "bob" scan_state mixed_trace)
    as (Hsp & _ & _).
  destruct (workshop_token_single_use scan_env "T" "W" "bob"
              (Api.post_qr_validate_workshop scan_env "T" "W" "bob" scan_state).2
              mixed_trace) as (_ & Hkeep & _).
  exact (conj Hok (conj Hnd (Hkeep Hnd (Hsp Hok)))).
Defined.

(** ** Cancel, then Reserve again *)

Lemma one_reservation_unique_helper :
  Forall unique_reservations
    (Api.states [(env_at 1000 "" "", Api.PostReservations "alice" "W")] one_seat).
Proof.
  apply states_invariant; [intros; by apply handle_unique_reservations|].
  intros id1 id2 r1 r2 H1. simpl in H1. by rewrite lookup_empty in H1.
Qed.

Lemma cancel_removes_pair u w s id r :
  unique_reservations s →
  reservations s !! id = Some r → r_userId r = u → r_workshopId r = w →
  ∀ s', reservations s' = delete id (reservations s) →
        ¬ has_reservation u w s'.
Proof.
  intros Hun Hid Hu Hw s' Hs' (id2 & r2 & Hid2 & Hu2 & Hw2).
  rewrite Hs' in Hid2. apply lookup_delete_Some in Hid2 as [Hne Hid2].
  apply Hne. apply (Hun id id2 r r2); congruence.
Qed.

(** X14: after a Cancel the same user can reserve the same workshop
    again (scenario D): with a table that satisfies its
    UNIQUE(userId, workshopId), a workshop that is not dated in the past
    and whose availableSeats holds a whole number [a] with
    [0 <= a < 2^53 - 1], Cancel leaves [a + 1], the Reserve that follows
    under a new id succeeds, and the workshops table ends exactly as it
    started. *)
Theorem cancel_then_reserve_again (e : Env) (u w : string) (s : State)
    (ws : Workshop) (a : Z) :
  truthy u = true → truthy w = true →
  is_Some (users s !! u) → workshops s !! w = Some ws →
  has_reservation u w s → unique_reservations s →
  Api.workshop_expired e ws = false →
  availableSeats ws = Int a → 0 ≤ a < 2 ^ 53 - 1 →
  reservations s !! pretty (now e) = None →
  (Api.delete_reservations u w s).1
    = Ok 200 (ReservationCancelled
                (Some (mkWorkshop (date ws) (Int (a + 1)) (totalSeats ws)))) ∧
  ¬ has_reservation u w (Api.delete_reservations u w s).2 ∧
  is_success
    (Api.post_reservations e u w (Api.delete_reservations u w s).2).1 ∧
  has_reservation u w
    (Api.post_reservations e u w (Api.delete_reservations u w s).2).2 ∧
  workshops (Api.post_reservations e u w (Api.delete_reservations u w s).2).2
    = workshops s.
Proof.
  intros Hu Hw [user Hus] Hws Hres Hun Hexp Ha Hnn Hid.
  assert (Hrel : seat_released ws
                 = mkWorkshop (date ws) (Int (a + 1)) (totalSeats ws)).
  { unfold seat_released. rewrite Ha, sql_add_Int by lia. done. }
  rewrite cancel_outcome by done.
  destruct (has_reservation_select u w s Hres) as [[id r] Hsel].
  rewrite Hsel. cbn [fst snd].
  apply select_reservation_Some in Hsel as (Hl & Hru & Hrw).
  rewrite Hws. cbn [fmap option_fmap option_map]. rewrite Hrel.
  split; [done|].
  assert (Hno : ¬ has_reservation u w
                  (set_workshops (alter seat_released w)
                     (set_reservations (delete id) s))).
  { by eapply (cancel_removes_pair u w s id r). }
  split; [done|].
  rewrite reserve_outcome by done.
  cbn [users workshops reservations set_workshops set_reservations].
  rewrite Hus, lookup_alter_eq, Hws. cbn [fmap option_fmap option_map].
  assert (Hexp' : Api.workshop_expired e (seat_released ws) = false) by done.
  assert (Hfull : js_le_zero (js_number (availableSeats (seat_released ws)))
                  = false).
  { rewrite Hrel. cbn [availableSeats].
    rewrite js_le_zero_safe by (unfold safe_integer; lia).
    apply bool_decide_eq_false_2. lia. }
  rewrite Hexp', Hfull.
  rewrite bool_decide_eq_false_2 by done.
  rewrite (proj2 (lookup_delete_None (reservations s) id (pretty (now e))))
    by (by right).
  cbn [fst snd workshops set_workshops set_reservations].
  split; [done|]. split.
  - exists (pretty (now e)), (mkReservation u w (now e)). simpl.
    by rewrite lookup_insert_eq.
  - apply alter_alter_id. intros ws' Hws'. rewrite Hws in Hws'.
    injection Hws' as <-. apply (seat_taken_released ws a); [done|lia].
Qed.

Lemma cancel_then_reserve_again_witness :
  has_reservation "alice" "W" alice_reserved ∧
  unique_reservations alice_reserved ∧
  workshops alice_reserved !! "W" = Some (mkWorkshop None (Int 0) (Int 1)) ∧
  0 ≤ 0 < 2 ^ 53 - 1 ∧
  is_success
    (Api.post_reservations (env_at 1600 "" "") "alice" "W"
       (Api.delete_reservations "alice" "W" alice_reserved).2).1 ∧
  workshops
    (Api.post_reservations (env_at 1600 "" "") "alice" "W"
       (Api.delete_reservations "alice" "W" alice_reserved).2).2
  = workshops alice_reserved.
Proof.
  assert (Hres : has_reservation "alice" "W" alice_reserved).
  { exists "1000", (mkReservation "alice" "W" 1000). by vm_compute. }
  assert (Hun : unique_reservations alice_reserved).
  { apply (Forall_inv (Forall_inv_tail
      (one_reservation_unique_helper))). }
  assert (Hus : is_Some (users alice_reserved !! "alice")) by (by eexists).
  assert (Hws : workshops alice_reserved !! "W"
                = Some (mkWorkshop None (Int 0) (Int 1)))
    by (vm_compute; reflexivity).
  assert (Hnn : 0 ≤ 0 < 2 ^ 53 - 1) by lia.
  destruct (cancel_then_reserve_again (env_at 1600 "" "") "alice" "W"
              alice_reserved (mkWorkshop None (Int 0) (Int 1)) 0
              eq_refl eq_refl Hus Hws
              Hres Hun eq_refl eq_refl Hnn eq_refl) as (_ & _ & Hok & _ & Hsame).
  exact (conj Hres (conj Hun (conj Hws (conj Hnn (conj Hok Hsame))))).
Defined.

(** ** Server start *)

Lemma head_insert_Some {A} (m : gmap string A) i x :
  is_Some (head (map_to_list (<[i:=x]> m))).
Proof.
  destruct (head (map_to_list (<[i:=x]> m))) eqn:Hh; [by eexists|].
  apply head_None, map_to_list_empty_iff in Hh.
  by apply insert_non_empty in Hh.
Qed.

Lemma select_admin_None db :
  select_user_by_email "admin@admin.com" db = None ↔ ¬ has_admin db.
Proof.
  unfold select_user_by_email, has_admin. rewrite select_first_None.
  unfold has_email. simpl. split.
  - intros H (id & u & Hid & Hu). by apply (H id u).
  - intros H id u Hid Hu. apply H. by exists id, u.
Qed.

Lemma select_admin_Some db :
  is_Some (select_user_by_email "admin@admin.com" db) ↔ has_admin db.
Proof.
  destruct (select_user_by_email "admin@admin.com" db) eqn:Hsel.
  - split; [|by eexists]. intros _.
    destruct (decide (has_admin db)) as [|Hn]; [done|].
    apply select_admin_None in Hn. congruence.
  - split; [by intros [? ?]|]. intros Hin.
    by apply select_admin_None in Hsel.
Qed.

(** The second half of [initDb]: the seed workshop. *)
Lemma seed_workshop_step d (db0 db1 : State) :
  match head (map_to_list (workshops db0)) with
  | Some _ => Some db0
  | None => Some (set_workshops (insert "1" (seed_workshop d)) db0)
  end = Some db1 →
  (workshops db0 = ∅ →
     db1 = set_workshops (λ _, {["1" := seed_workshop d]}) db0) ∧
  (workshops db0 ≠ ∅ → db1 = db0).
Proof.
  destruct (head (map_to_list (workshops db0))) eqn:Hh.
  - intros [= <-]. split; [|done].
    intros Hem. rewrite Hem, map_to_list_empty in Hh. done.
  - intros [= <-]. apply head_None, map_to_list_empty_iff in Hh.
    split; [|done]. intros _. unfold set_workshops. rewrite Hh.
    by rewrite insert_empty.
Qed.

(** What [initDb] does, case by case. *)
Lemma initDb_cases d db :
  (¬ has_admin db → is_Some (users db !! "admin-1") → initDb d db = None) ∧
  ∀ db1, initDb d db = Some db1 →
    (has_admin db → users db1 = users db) ∧
    (¬ has_admin db →
       users db !! "admin-1" = None ∧
       users db1 = <["admin-1" := admin_user]> (users db)) ∧
    (workshops db = ∅ → workshops db1 = {["1" := seed_workshop d]}) ∧
    (workshops db ≠ ∅ → workshops db1 = workshops db) ∧
    reservations db1 = reservations db ∧ attendance db1 = attendance db ∧
    qr_tokens db1 = qr_tokens db ∧ qrTokens db1 = qrTokens db ∧
    sseClients db1 = sseClients db ∧ wire db1 = wire db.
Proof.
  unfold initDb. cbv zeta.
  destruct (select_user_by_email "admin@admin.com" db) as [x|] eqn:Hadmin.
  - assert (Hin : has_admin db) by (apply select_admin_Some; by eexists).
    split; [done|]. intros db1 Hstep.
    apply seed_workshop_step in Hstep as [He Hne].
    destruct (decide (workshops db = ∅)) as [Hem|Hnem].
    + rewrite (He Hem). by repeat split.
    + rewrite (Hne Hnem). by repeat split.
  - apply select_admin_None in Hadmin as Hno.
    unfold insert_user. cbn [email admin_user]. rewrite Hadmin.
    destruct (users db !! "admin-1") eqn:Hid.
    + split; [done|]. done.
    + split; [by intros _ [? ?]|]. intros db1 Hstep.
      apply seed_workshop_step in Hstep as [He Hne].
      destruct (decide (workshops db = ∅)) as [Hem|Hnem].
      * rewrite (He Hem). by repeat split.
      * rewrite (Hne Hnem). by repeat split.
Qed.

Lemma initDb_fixed d db db1 :
  initDb d db = Some db1 → initDb d db1 = Some db1.
Proof.
  intros Hinit.
  destruct (initDb_cases d db) as [_ Hc].
  destruct (Hc db1 Hinit) as (Hu1 & Hu2 & Hw1 & Hw2 & _).
  assert (Hadmin : has_admin db1).
  { destruct (decide (has_admin db)) as [Hin|Hno].
    - pose proof (Hu1 Hin) as Heq. destruct Hin as (id & u & Hid & Hu).
      exists id, u. split; [|done]. by rewrite Heq.
    - destruct (Hu2 Hno) as [_ Heq]. exists "admin-1", admin_user.
      split; [|done]. by rewrite Heq, lookup_insert_eq. }
  assert (Hws : workshops db1 ≠ ∅).
  { destruct (decide (workshops db = ∅)) as [Hem|Hnem].
    - rewrite (Hw1 Hem). apply insert_non_empty.
    - by rewrite (Hw2 Hnem). }
  unfold initDb. cbv zeta.
  apply select_admin_Some in Hadmin as [x ->].
  destruct (head (map_to_list (workshops db1))) eqn:Hh; [done|].
  by apply head_None, map_to_list_empty_iff in Hh.
Qed.

(** X15: a start of the server on an existing database.  It adds the
    admin user, under the id admin-1, exactly when no user has the
    admin's email (and it throws when that id is then taken), and the
    seed workshop with 8 of 15 seats exactly when the workshops table is
    empty; it leaves every other row of the database as it is, starts
    with no subscriber and an empty in-memory token Map, and is
    idempotent.  So every user-scoped token issued before the start is
    answered as an unknown token afterwards, while the workshop tokens,
    kept in the database, are all still there. *)
Theorem restart_keeps_database_not_user_tokens (d : option Z) (db : State)
    (e : Env) (token : string) :
  (¬ has_admin db → is_Some (users db !! "admin-1") →
     server_start d db = None) ∧
  ∀ s1, server_start d db = Some s1 →
    server_start d s1 = Some s1 ∧
    (has_admin db → users s1 = users db) ∧
    (¬ has_admin db →
       users db !! "admin-1" = None ∧
       users s1 = <["admin-1" := admin_user]> (users db)) ∧
    (workshops db = ∅ → workshops s1 = {["1" := seed_workshop d]}) ∧
    (workshops db ≠ ∅ → workshops s1 = workshops db) ∧
    reservations s1 = reservations db ∧ attendance s1 = attendance db ∧
    qr_tokens s1 = qr_tokens db ∧ wire s1 = wire db ∧
    qrTokens s1 = ∅ ∧ sseClients s1 = [] ∧
    (truthy token = true →
       Api.post_qr_validate e token s1 = (Err E_invalid_token_format, s1)).
Proof.
  unfold server_start.
  destruct (initDb_cases d (set_sseClients (λ _, [])
                              (set_qrTokens (λ _, ∅) db))) as [Hfail Hc].
  split; [exact Hfail|]. intros s1 Hstart.
  destruct (Hc s1 Hstart)
    as (Hu1 & Hu2 & Hw1 & Hw2 & Hr & Ha & Hq & Hm & Hcl & Hwi).
  simpl in Hr, Ha, Hq, Hm, Hcl, Hwi.
  split.
  { replace (set_sseClients (λ _, []) (set_qrTokens (λ _, ∅) s1)) with s1.
    - by apply initDb_fixed in Hstart.
    - destruct s1. simpl in *. by subst. }
  do 10 (split; [done|]).
  intros Ht. rewrite api_validate_user_token.
  apply validate_user_token_gone; [done|]. by rewrite Hm.
Qed.

Lemma restart_keeps_database_not_user_tokens_witness :
  qrTokens scenario_b_issued !! "TA" = Some (mkTokenData "alice" "W" 32000) ∧
  ∃ s1, server_start None scenario_b_issued = Some s1 ∧
        reservations s1 = reservations scenario_b_issued ∧
        workshops s1 = workshops scenario_b_issued ∧
        users s1 = <["admin-1" := admin_user]> (users scenario_b_issued) ∧
        Api.post_qr_validate (env_at 3000 "" "") "TA" s1
          = (Err E_invalid_token_format, s1).
Proof.
  split; [vm_compute; reflexivity|].
  destruct (server_start None scenario_b_issued) as [s1|] eqn:Hs.
  - exists s1.
    destruct (restart_keeps_database_not_user_tokens None scenario_b_issued
                (env_at 3000 "" "") "TA") as [_ H].
    destruct (H s1 Hs)
      as (_ & _ & Hu & _ & Hw & Hr & _ & _ & _ & _ & _ & Hv).
    assert (Hno : ¬ has_admin scenario_b_issued).
    { apply select_admin_None. vm_compute. reflexivity. }
    assert (Hne : workshops scenario_b_issued ≠ ∅).
    { intros Hem. assert (Hl : workshops scenario_b_issued !! "W" = None)
        by (by rewrite Hem). vm_compute in Hl. discriminate. }
    exact (conj eq_refl (conj Hr (conj (Hw Hne)
             (conj (proj2 (Hu Hno)) (Hv eq_refl))))).
  - vm_compute in Hs. discriminate.
Defined.

(** ** CSV cells *)

Lemma special_chars c :
  Ascii.eqb c dquote || Ascii.eqb c comma || Ascii.eqb c newline = false →
  c ≠ dquote ∧ c ≠ comma ∧ c ≠ newline.
Proof.
  intros H. apply orb_false_iff in H as [H Hn]. apply orb_false_iff in H as [Hq Hc].
  apply Ascii.eqb_neq in Hq, Hc, Hn. done.
Qed.

Lemma append_nil_l x : "" +:+ x = x.
Proof. reflexivity. Qed.

Lemma append_cons c a x : String.String c a +:+ x = String.String c (a +:+ x).
Proof. reflexivity. Qed.

Lemma append_nil_r a : a +:+ "" = a.
Proof. induction a as [|c a IH]; [done|]. by rewrite append_cons, IH. Qed.

Lemma append_assoc' a b c : (a +:+ b) +:+ c = a +:+ (b +:+ c).
Proof.
  induction a as [|x a IH]; [done|]. by rewrite !append_cons, IH.
Qed.

Lemma has_special_cons c a :
  has_special (String.String c a) = false →
  c ≠ dquote ∧ c ≠ comma ∧ c ≠ newline ∧ has_special a = false.
Proof.
  simpl. intros [H Ha]%orb_false_iff.
  apply special_chars in H as (? & ? & ?). done.
Qed.

Lemma plain_cells_split a b x y :
  has_special a = false → has_special b = false →
  a +:+ String.String comma x = b +:+ String.String comma y →
  a = b ∧ x = y.
Proof.
  revert b. induction a as [|c a IH]; intros [|c' b] Ha Hb;
    rewrite ?append_nil_l, ?append_cons; intros Heq.
  - by injection Heq as ->.
  - injection Heq as <- _. apply has_special_cons in Hb as (_ & Hc & _). done.
  - injection Heq as -> _. apply has_special_cons in Ha as (_ & Hc & _). done.
  - injection Heq as <- Heq.
    apply has_special_cons in Ha as (_ & _ & _ & Ha).
    apply has_special_cons in Hb as (_ & _ & _ & Hb).
    destruct (IH b Ha Hb Heq) as [-> ->]. done.
Qed.

Lemma double_quotes_cons c a :
  double_quotes (String.String c a)
  = if Ascii.eqb c dquote
    then String.String dquote (String.String dquote (double_quotes a))
    else String.String c (double_quotes a).
Proof. reflexivity. Qed.

Lemma quoted_cells_split a : ∀ b x y,
  double_quotes a +:+ String.String dquote x
    = double_quotes b +:+ String.String dquote y →
  (∀ c r, x = String.String c r → c ≠ dquote) →
  (∀ c r, y = String.String c r → c ≠ dquote) →
  a = b ∧ x = y.
Proof.
  induction a as [|c a IH]; intros [|c' b] x y;
    rewrite ?double_quotes_cons;
    try destruct (Ascii.eqb_spec c dquote) as [->|Hc];
    try destruct (Ascii.eqb_spec c' dquote) as [->|Hc'];
    change (double_quotes "") with "";
    rewrite ?append_nil_l, ?append_cons; intros Heq Hx Hy.
  - by injection Heq as ->.
  - injection Heq as Heq. destruct (Hx _ _ Heq). done.
  - by injection Heq as <- _.
  - injection Heq as Heq. destruct (Hy _ _ (eq_sym Heq)). done.
  - by injection Heq as -> _.
  - injection Heq as Heq.
    destruct (IH b x y Heq Hx Hy) as [-> ->]. done.
  - by injection Heq as <- _.
  - by injection Heq as -> _.
  - injection Heq as <- Heq. destruct (IH b x y Heq Hx Hy) as [-> ->]. done.
Qed.

Lemma plain_not_quoted a x z :
  has_special a = false → a +:+ x = String.String dquote z → a = "".
Proof.
  destruct a as [|c a]; [done|]. rewrite append_cons. intros Ha [= -> _].
  apply has_special_cons in Ha as (Hq & _). done.
Qed.

(** A cell followed by the end of the line, or by a comma and the rest of
    the line, determines the cell and what follows. *)
Lemma escaped_cell_split a b x y :
  (x = "" ∨ ∃ r, x = String.String comma r) →
  (y = "" ∨ ∃ r, y = String.String comma r) →
  escapeCell (Some a) +:+ x = escapeCell (Some b) +:+ y →
  a = b ∧ x = y.
Proof.
  intros Hx Hy. unfold escapeCell.
  assert (Hxq : ∀ c r, x = String.String c r → c ≠ dquote).
  { intros c r ->. destruct Hx as [?|[? [= -> _]]]; done. }
  assert (Hyq : ∀ c r, y = String.String c r → c ≠ dquote).
  { intros c r ->. destruct Hy as [?|[? [= -> _]]]; done. }
  destruct (has_special a) eqn:Ha, (has_special b) eqn:Hb.
  - rewrite !append_cons, !append_assoc', !append_cons, !append_nil_l.
    intros [= Heq]. by apply quoted_cells_split in Heq.
  - rewrite !append_cons, !append_assoc', !append_cons, !append_nil_l.
    intros Heq. symmetry in Heq.
    pose proof (plain_not_quoted _ _ _ Hb Heq) as ->.
    rewrite append_nil_l in Heq. subst y.
    destruct Hy as [?|[? [= ? _]]]; done.
  - rewrite !append_cons, !append_assoc', !append_cons, !append_nil_l.
    intros Heq.
    pose proof (plain_not_quoted _ _ _ Ha Heq) as ->.
    rewrite append_nil_l in Heq. subst x.
    destruct Hx as [?|[? [= ? _]]]; done.
  - destruct Hx as [->|[rx ->]], Hy as [->|[ry ->]]; rewrite ?append_nil_r.
    + by intros ->.
    + intros ->. exfalso. clear -Ha.
      induction b as [|c b IH]; [done|].
      rewrite append_cons in Ha. apply has_special_cons in Ha as (_ & _ & _ & Ha).
      by apply IH.
    + intros <-. exfalso. clear -Hb.
      induction a as [|c a IH]; [done|].
      rewrite append_cons in Hb. apply has_special_cons in Hb as (_ & _ & _ & Hb).
      by apply IH.
    + intros Heq.
      destruct (plain_cells_split _ _ _ _ Ha Hb Heq) as [-> ->]. done.
Qed.

Lemma csv_row_cons a cells :
  cells ≠ [] →
  csv_row (a :: cells)
  = escapeCell a +:+ String.String comma (csv_row cells).
Proof. destruct cells; [done|]. intros _. reflexivity. Qed.

(** X16: the CSV escaping of the admin export loses nothing.  Two rows
    with the same number of cells, none of them null, that are written as
    the same line are the same row: quoting a cell that holds a double
    quote, a comma or a newline, and doubling its double quotes, keeps
    the cell boundaries readable. *)
Theorem csv_row_injective (cells1 cells2 : list string) :
  length cells1 = length cells2 →
  csv_row (Some <$> cells1) = csv_row (Some <$> cells2) →
  cells1 = cells2.
Proof.
  revert cells2. induction cells1 as [|c1 l1 IH]; intros [|c2 l2] Hlen Heq;
    try done.
  destruct l1 as [|d1 l1], l2 as [|d2 l2]; try done.
  - change (escapeCell (Some c1) = escapeCell (Some c2)) in Heq.
    rewrite <- (append_nil_r (escapeCell (Some c1))) in Heq.
    rewrite <- (append_nil_r (escapeCell (Some c2))) in Heq.
    apply escaped_cell_split in Heq as [-> _]; [done|by left|by left].
  - rewrite !fmap_cons in Heq.
    rewrite (csv_row_cons (Some c1)), (csv_row_cons (Some c2)) in Heq by done.
    apply escaped_cell_split in Heq as [-> Heq];
      [|right; eexists; reflexivity|right; eexists; reflexivity].
    injection Heq as Heq. f_equal. apply IH; [simpl in Hlen |- *; congruence|].
    by rewrite !fmap_cons.
Qed.

Lemma csv_row_injective_witness :
  length ["a,b"; "c"] = length ["a,b"; "c"] ∧
  csv_row (Some <$> ["a,b"; "c"]) = csv_row (Some <$> ["a,b"; "c"]) ∧
  ["a,b"; "c"] = ["a,b"; "c"] ∧
  csv_row [Some "a,b"; Some "c"] ≠ csv_row [Some "a"; Some "b,c"].
Proof.
  split; [reflexivity|]. split; [reflexivity|]. split.
  - exact (csv_row_injective ["a,b"; "c"] ["a,b"; "c"] eq_refl eq_refl).
  - by vm_compute.
Defined.

(** X17: the export writes a null (or undefined) field exactly as an
    empty string: replacing every null cell of a row by the empty string
    gives the same line, so the two cannot be told apart in the file. *)
Theorem csv_null_as_empty (cells : list (option string)) :
  csv_row cells = csv_row ((λ c, Some (default "" c)) <$> cells).
Proof.
  unfold csv_row. f_equal.
  induction cells as [|[c|] cells IH]; [done|..]; cbn [map fmap list_fmap];
    f_equal; done.
Qed.

(** ** The seat ledger under every request *)

Lemma supply_isb_spec w n s : supply_isb w n s = true ↔ supply_is w n s.
Proof.
  unfold supply_isb, supply_is.
  destruct (workshops s !! w) as [[d [a|f] t]|]; simpl.
  - rewrite bool_decide_eq_true. split.
    + intros [? ?]. by eexists _, a.
    + intros (ws & a' & [= <-] & [= <-] & ? & ?). done.
  - split; [done|]. by intros (ws & a' & [= <-] & ? & _).
  - split; [done|]. by intros (ws & a' & ? & _).
Qed.

(** The routes that write neither to the reservations nor to the
    workshops table. *)
Lemma other_routes_frame e r s :
  match r with
  | Api.PostWorkshops _ _ | Api.PostReservations _ _
  | Api.DeleteReservations _ _ => True
  | _ => reservations (Api.handle e r s).2 = reservations s ∧
         workshops (Api.handle e r s).2 = workshops s
  end.
Proof. unfold_handlers. destruct r; split_handler; done. Qed.

Lemma supply_frame w n s s' :
  reservations s' = reservations s → workshops s' !! w = workshops s !! w →
  supply_is w n s → supply_is w n s'.
Proof.
  intros Hr Hw (ws & a & Hws & Ha & Hsafe & Hn).
  exists ws, a. unfold active_reservations. rewrite Hr, Hw. done.
Qed.

Lemma post_workshops_supply e d t s w n :
  supply_is w n s → supply_is w n (Api.post_workshops e d t s).2.
Proof.
  intros Hs.
  destruct (post_workshops_state e d t s) as [->|(v & _ & Hnew & ->)]; [done|].
  apply (supply_frame w n s); [done| |done]. simpl.
  destruct Hs as (ws & a & Hws & _).
  apply lookup_insert_ne. intros <-. congruence.
Qed.

Lemma post_reservations_supply e u w' s w n :
  n < 2 ^ 53 →
  supply_is w n s → supply_is w n (Api.post_reservations e u w' s).2.
Proof.
  intros Hn Hs. pose proof Hs as (ws & a & Hws & Ha & Hsafe & Heq).
  unfold Api.post_reservations.
  destruct (negb (truthy u) || negb (truthy w')); [done|].
  destruct (users s !! u); [|done].
  destruct (workshops s !! w') as [ws'|] eqn:Hw'; [|done].
  destruct (Api.workshop_expired e ws'); [done|].
  destruct (js_le_zero _) eqn:Hfull; [done|].
  destruct (select_reservation u w' s); [done|].
  destruct (transaction _ s) as [s'|] eqn:Htx; [|done].
  apply transaction_reserve in Htx as [Hid ->]. cbn [fst snd].
  unfold supply_is.
  match goal with |- context [active_reservations w ?s'] =>
    rewrite (active_reservations_insert (pretty (now e))
               (mkReservation u w' (now e)) s s' w Hid eq_refl)
  end. simpl.
  destruct (decide (w' = w)) as [->|Hne].
  - rewrite lookup_alter_eq, Hws. simpl.
    rewrite Hws in Hw'. injection Hw' as <-.
    rewrite Ha, js_le_zero_safe in Hfull by done.
    apply bool_decide_eq_false in Hfull. unfold safe_integer in Hsafe.
    eexists _, (a + -1). split; [done|]. simpl.
    rewrite Ha, sql_add_Int by lia.
    split; [done|]. split; [unfold safe_integer; lia|lia].
  - rewrite lookup_alter_ne by done. by exists ws, a.
Qed.

Lemma delete_reservations_supply u w' s w n :
  n < 2 ^ 53 →
  supply_is w n s → supply_is w n (Api.delete_reservations u w' s).2.
Proof.
  intros Hn Hs. pose proof Hs as (ws & a & Hws & Ha & Hsafe & Heq).
  unfold Api.delete_reservations.
  destruct (negb (truthy u) || negb (truthy w')); [done|].
  destruct (select_reservation u w' s) as [[id r]|] eqn:Hsel; [|done].
  apply select_first_Some in Hsel as [Hid [_ Hrw]]. simpl in Hrw.
  destruct (transaction _ s) as [s'|] eqn:Htx; [|done].
  apply transaction_cancel in Htx as ->. cbn [fst snd].
  unfold supply_is.
  match goal with |- context [active_reservations w ?s'] =>
    pose proof (active_reservations_delete id r s s' w Hid eq_refl) as Hcount
  end. simpl.
  destruct (decide (w' = w)) as [->|Hne].
  - rewrite decide_True in Hcount by done.
    rewrite lookup_alter_eq, Hws. simpl. unfold safe_integer in Hsafe.
    eexists _, (a + 1). split; [done|]. simpl.
    rewrite Ha, sql_add_Int by lia.
    split; [done|]. split; [unfold safe_integer; lia|lia].
  - rewrite decide_False in Hcount by congruence.
    rewrite lookup_alter_ne by done. rewrite <- Hcount. by exists ws, a.
Qed.

Lemma handle_supply e r s w n :
  n < 2 ^ 53 → supply_is w n s → supply_is w n (Api.handle e r s).2.
Proof.
  intros Hn Hs. pose proof (other_routes_frame e r s) as Hframe.
  destruct r;
    first [ by apply post_workshops_supply
          | by apply post_reservations_supply
          | by apply delete_reservations_supply
          | apply (supply_frame w n s);
            [apply Hframe|by rewrite (proj2 Hframe)|exact Hs] ].
Qed.

(** X18: the seats of a workshop that are free or reserved stay the
    same number under every request, not only Reserve and Cancel.  For a
    workshop whose availableSeats holds a safe whole number, the sum of
    availableSeats and the number of its reservations, when below 2^53,
    is the same in every state a sequence of requests of any kind goes
    through, and availableSeats stays a safe whole number: Reserve and
    Cancel move the two terms in opposite directions and no other route
    touches either.  (The sum is totalSeats where the seat equation
    holds; for the workshop seeded at the first start it is 8, totalSeats
    being 15.) *)
Theorem seat_supply_every_request (reqs : list (Env * Api.Request))
    (s : State) (w : string) (n : Z) :
  n < 2 ^ 53 →
  supply_is w n s →
  Forall (supply_is w n) (Api.states reqs s).
Proof.
  intros Hn Hs. apply (states_invariant (supply_is w n)); [|done].
  intros e r s0. by apply handle_supply.
Qed.

Lemma seat_supply_every_request_witness :
  1 < 2 ^ 53 ∧
  supply_is "W" 1 one_seat ∧
  Forall (supply_is "W" 1) (Api.states mixed_trace one_seat) ∧
  length (Api.states mixed_trace one_seat) = 15%nat.
Proof.
  assert (Hs : supply_is "W" 1 one_seat)
    by (apply supply_isb_spec; by vm_compute).
  assert (Hn : 1 < 2 ^ 53) by lia.
  split; [exact Hn|]. split; [exact Hs|]. split; [|reflexivity].
  exact (seat_supply_every_request mixed_trace one_seat "W" 1 Hn Hs).
Defined.

(** ** Creating a workshop *)



(** ** Attendance rows *)

Lemma handle_attendance_known_user e r s id a :
  attendance (Api.handle e r s).2 !! id = Some a →
  attendance s !! id = Some a ∨ is_Some (users s !! a_userId a).
Proof.
  unfold_handlers. destruct r; split_handler; intros Hrow; try (by left);
    apply lookup_insert_Some in Hrow as [[<- <-]|[_ Hrow]];
    try (by left); right; simpl; by eexists.
Qed.

Lemma handle_attendance_kept e r s :
  attendance s ⊆ attendance (Api.handle e r s).2.
Proof.
  destruct (handle_attendance e r s) as [->|(id & a & Hid & _ & ->)];
    [done|]. by apply insert_subseteq.
Qed.

(** X19: a check-in is permanent and only ever names a known user.  No
    sequence of requests removes or changes an attendance row, and every
    row it adds carries the id of a row of the users table (a row that
    was there when the check-in was made, and that is still there at the
    end: no request removes a user). *)
Theorem attendance_permanent (reqs : list (Env * Api.Request)) (s : State) :
  attendance s ⊆ attendance (Api.run reqs s) ∧
  ∀ id a, attendance (Api.run reqs s) !! id = Some a →
    attendance s !! id = Some a ∨
    is_Some (users (Api.run reqs s) !! a_userId a).
Proof.
  revert s. induction reqs as [|[e r] reqs IH]; intros s.
  - split; [done|]. intros id a Hrow. by left.
  - change (Api.run ((e, r) :: reqs) s)
      with (Api.run reqs (Api.handle e r s).2).
    destruct (IH (Api.handle e r s).2) as [Hsub Hnew]. split.
    + etrans; [apply (handle_attendance_kept e r)|exact Hsub].
    + intros id a Hrow. apply Hnew in Hrow as [Hrow|Hu]; [|by right].
      apply handle_attendance_known_user in Hrow as [Hrow|[x Hx]];
        [by left|right].
      exists x.
      eapply lookup_weaken; [|apply run_users_kept].
      eapply lookup_weaken; [exact Hx|apply handle_users_kept].
Qed.

(** ** Accounts *)

Lemma select_email_None em s :
  select_user_by_email em s = None ↔ ¬ email_taken em s.
Proof.
  unfold select_user_by_email, email_taken. rewrite select_first_None.
  unfold has_email. simpl. split.
  - intros H (id & u & Hid & Hu). by apply (H id u).
  - intros H id u Hid Hu. apply H. by exists id, u.
Qed.

(** X22: POST /register and the login that follows, for three non-empty
    strings.  The registration is refused with "email already
    registered" when a user has the email, and also when the email is
    new but the id [String(Date.now())] is taken (the handler reads the
    word UNIQUE in either error).  Otherwise it adds exactly one user,
    with the role user, under that id; a login with the same email and
    password then answers with that id, name, email and role, and a
    login with the same email and another password is refused with
    "invalid credentials". *)
Theorem register_then_login (e : Env) (n em pw : string) (s : State) :
  truthy n = true → truthy em = true → truthy pw = true →
  (email_taken em s ∨ is_Some (users s !! pretty (now e)) →
     Api.post_register e n em pw s = (Err E_email_already_registered, s)) ∧
  (¬ email_taken em s → users s !! pretty (now e) = None →
     Api.post_register e n em pw s
     = (Ok 201 (Registered (pretty (now e)) n em "user"),
        set_users (insert (pretty (now e)) (mkUser n em pw "user")) s) ∧
     Api.post_login em pw (Api.post_register e n em pw s).2
     = (Ok 200 (LoggedIn (pretty (now e)) n em "user"),
        (Api.post_register e n em pw s).2) ∧
     ∀ pw', truthy pw' = true → pw' ≠ pw →
       Api.post_login em pw' (Api.post_register e n em pw s).2
       = (Err E_invalid_credentials, (Api.post_register e n em pw s).2)).
Proof.
  intros Hn Hem Hpw. unfold Api.post_register. rewrite Hn, Hem, Hpw.
  cbn [negb orb]. cbv zeta. unfold insert_user. cbn [email].
  split.
  - intros [Htaken|[x Hx]].
    + destruct (select_user_by_email em s) eqn:Hsel.
      * by destruct (users s !! pretty (now e)).
      * by apply select_email_None in Hsel.
    + by rewrite Hx.
  - intros Hfree Hid. rewrite Hid.
    rewrite (proj2 (select_email_None em s) Hfree).
    split; [done|]. cbn [snd].
    set (id := pretty (now e)) in *.
    set (u := mkUser n em pw "user").
    set (s' := set_users (insert id u) s).
    assert (Honly : ∀ k x, users s' !! k = Some x → email x = em →
                           k = id ∧ x = u).
    { intros k x Hk Hx. unfold s' in Hk. simpl in Hk.
      apply lookup_insert_Some in Hk as [[<- <-]|[_ Hk]]; [done|].
      destruct Hfree. by exists k, x. }
    unfold Api.post_login. rewrite Hem. split.
    + rewrite Hpw. cbn [negb orb]. unfold select_user_by_credentials.
      destruct (select_first_is_Some (has_credentials em pw) (users s') id u)
        as [[k x] Hsel]; [apply lookup_insert_eq|done|].
      rewrite Hsel.
      apply select_first_Some in Hsel as [Hk [Hx _]]. simpl in Hx.
      by destruct (Honly k x Hk Hx) as [-> ->].
    + intros pw' Hpw' Hne. rewrite Hpw'. cbn [negb orb].
      unfold select_user_by_credentials.
      rewrite (proj2 (select_first_None (has_credentials em pw') (users s')));
        [done|].
      intros k x Hk [Hx Hp]. simpl in Hx, Hp.
      destruct (Honly k x Hk Hx) as [_ ->]. simpl in Hp. congruence.
Qed.

Lemma register_then_login_witness :
  truthy "Carol" = true ∧ truthy "carol@example.org" = true ∧
  truthy "c" = true ∧
  ¬ email_taken "carol@example.org" one_seat ∧
  users one_seat !! pretty (now (env_at 43000 "" "")) = None ∧
  Api.post_login "carol@example.org" "c"
    (Api.post_register (env_at 43000 "" "") "Carol" "carol@example.org" "c"
       one_seat).2
  = (Ok 200 (LoggedIn "43000" "Carol" "carol@example.org" "user"),
     (Api.post_register (env_at 43000 "" "") "Carol" "carol@example.org" "c"
        one_seat).2).
Proof.
  assert (Hfree : ¬ email_taken "carol@example.org" one_seat).
  { apply select_email_None. vm_compute. reflexivity. }
  split; [reflexivity|]. split; [reflexivity|]. split; [reflexivity|].
  split; [exact Hfree|]. split; [reflexivity|].
  destruct (register_then_login (env_at 43000 "" "") "Carol"
              "carol@example.org" "c" one_seat eq_refl eq_refl eq_refl)
    as [_ H].
  exact (proj1 (proj2 (H Hfree eq_refl))).
Defined.

Lemma handle_unique_emails e r s :
  unique_emails s → unique_emails (Api.handle e r s).2.
Proof.
  intros Hun.
  destruct (handle_users e r s) as [Heq|(n & em & pw & -> & Hid & Heq)].
  - unfold unique_emails. rewrite Heq. exact Hun.
  - simpl in Heq |- *.
    destruct (post_register_state e n em pw s) as [Hs|[_ Hs]];
      [unfold unique_emails; by rewrite Hs|].
    assert (Hfree : ¬ email_taken em s).
    { unfold Api.post_register in Hs.
      destruct (negb (truthy n) || negb (truthy em) || negb (truthy pw)).
      - simpl in Hs. intros _.
        assert (Hl : users s !! pretty (now e)
                     = Some (mkUser n em pw "user"))
          by (rewrite Hs at 1; apply lookup_insert_eq).
        congruence.
      - cbv zeta in Hs. unfold insert_user in Hs. cbn [email] in Hs.
        rewrite Hid in Hs.
        destruct (select_user_by_email em s) eqn:Hsel;
          [|by apply select_email_None].
        simpl in Hs. intros _.
        assert (Hl : users s !! pretty (now e)
                     = Some (mkUser n em pw "user"))
          by (rewrite Hs at 1; apply lookup_insert_eq).
        congruence. }
    intros id1 id2 u1 u2 H1 H2 Hu. rewrite Heq in H1, H2.
    apply lookup_insert_Some in H1 as [[<- <-]|[Hne1 H1]];
      apply lookup_insert_Some in H2 as [[<- <-]|[Hne2 H2]].
    + done.
    + destruct Hfree. exists id2, u2. by rewrite <- Hu.
    + destruct Hfree. exists id1, u1. by rewrite Hu.
    + by eapply Hun.
Qed.

(** X23: UNIQUE(email) of the users table is kept by every sequence of
    requests: no request ever leaves two users with one email. *)
Theorem one_user_per_email (reqs : list (Env * Api.Request)) (s : State) :
  unique_emails s → Forall unique_emails (Api.states reqs s).
Proof.
  apply states_invariant. intros. by apply handle_unique_emails.
Qed.

Lemma one_user_per_email_witness :
  unique_emails one_seat ∧
  Forall unique_emails (Api.states mixed_trace one_seat).
Proof.
  assert (Hun : unique_emails one_seat).
  { intros id1 id2 u1 u2 H1 H2 Hu. simpl in H1, H2.
    apply lookup_insert_Some in H1 as [[<- <-]|[_ H1]];
      apply lookup_insert_Some in H2 as [[<- <-]|[_ H2]]; try done.
    - apply lookup_singleton_Some in H2 as [<- <-]. done.
    - apply lookup_singleton_Some in H1 as [<- <-]. done.
    - apply lookup_singleton_Some in H1 as [<- _].
      by apply lookup_singleton_Some in H2 as [<- _]. }
  exact (conj Hun (one_user_per_email mixed_trace one_seat Hun)).
Defined.

(** ** The seeded workshop *)

(** X20: the workshop that [initDb] seeds does not start balanced.  On a
    database without any workshop (and whose reservations satisfy their
    foreign key, so that there is none), the start inserts workshop 1
    with availableSeats 8 and totalSeats 15: the bounds
    0 <= availableSeats <= totalSeats hold, but availableSeats is not
    totalSeats minus the number of reservations, which is 0. *)
Theorem seed_workshop_seat_gap (d : option Z) (db s1 : State) :
  workshops db = ∅ → reservations_reference_workshops db →
  server_start d db = Some s1 →
  workshops s1 !! "1" = Some (mkWorkshop d (Int 8) (Int 15)) ∧
  active_reservations "1" s1 = 0%nat ∧
  seat_bounds "1" s1 ∧ ¬ seat_equation "1" s1 ∧
  supply_is "1" 8 s1.
Proof.
  intros Hempty Hfk Hstart. unfold server_start in Hstart.
  destruct (initDb_cases d (set_sseClients (λ _, [])
                              (set_qrTokens (λ _, ∅) db))) as [_ Hc].
  destruct (Hc s1 Hstart) as (_ & _ & Hseed & _ & Hres & _).
  cbn in Hseed, Hres.
  specialize (Hseed Hempty).
  assert (Hrow : workshops s1 !! "1" = Some (mkWorkshop d (Int 8) (Int 15)))
    by (rewrite Hseed; apply lookup_singleton_eq).
  assert (Hnone : active_reservations "1" s1 = 0%nat).
  { unfold active_reservations. rewrite Hres.
    apply map_size_empty_iff, map_empty_filter_2.
    intros id r Hid _. destruct (Hfk id r Hid) as [ws Hws].
    by rewrite Hempty in Hws. }
  split; [exact Hrow|]. split; [exact Hnone|]. split; [|split].
  - intros ws Hws. rewrite Hrow in Hws. injection Hws as <-.
    exists (inject_Z 8), (inject_Z 15). split; [done|].
    rewrite <- !Zle_Qle. lia.
  - intros Heq. destruct (Heq _ Hrow) as (a & t & Hn & Heq').
    rewrite seat_numbers_Int in Hn. injection Hn as <- <-.
    rewrite Hnone in Heq'. apply Qeq_inject_minus in Heq'. simpl in Heq'. lia.
  - exists (mkWorkshop d (Int 8) (Int 15)), 8. rewrite Hnone.
    split; [done|]. split; [done|]. split; [unfold safe_integer; lia|done].
Qed.

Lemma seed_workshop_seat_gap_witness :
  workshops fresh_database = ∅ ∧
  reservations_reference_workshops fresh_database ∧
  ∃ s1, server_start None fresh_database = Some s1 ∧
        workshops s1 !! "1" = Some (mkWorkshop None (Int 8) (Int 15)) ∧
        users s1 !! "admin-1" = Some admin_user.
Proof.
  assert (Hfk : reservations_reference_workshops fresh_database)
    by (intros id r Hid; done).
  split; [reflexivity|]. split; [exact Hfk|].
  destruct (server_start None fresh_database) as [s1|] eqn:Hs.
  - exists s1. split; [reflexivity|].
    split; [exact (proj1 (seed_workshop_seat_gap None fresh_database s1
                            eq_refl Hfk Hs))|].
    vm_compute in Hs. injection Hs as <-. reflexivity.
  - vm_compute in Hs. discriminate.
Defined.
